(** * umDrive: storage-and-metadata layer of the Flask file service

    A shallow embedding of [src/umdrive/umdrive.py] (the deployed server,
    storage root [/app/storage]) and of the containment check of its sibling
    [src/umdrive/umDrive_Teste.py], followed by the properties of the
    natural-language specification, each proved or refuted on the embedding.

    Conventions.
    - Python [str] and [bytes] are both modelled by [string], read as the
      UTF-8 byte sequence of the text.
    - A Python [dict] with string keys is a [gmap string _]: equality of
      maps is equality of dicts (insertion order is not observable through
      [==]).
    - Handlers are written in a small state-and-exception monad over the
      file system; an exception that escapes a handler becomes the 500
      response Flask produces for it, and the effects made before the
      exception stay in place.
    - The model has no symbolic links: [Path.resolve] is lexical. *)

From Stdlib Require Import ZArith Ascii String List Sorting.Sorted Sorting.Permutation.
From Stdlib Require Import DecimalFacts DecimalN.
From stdpp Require Import gmap strings list fin_maps.

Set Warnings "-register-all".
Local Open Scope string_scope.
Local Open Scope Z_scope.

(** ** Characters and text *)

Module Text.

Definition code (c : ascii) : N := N_of_ascii c.

Definition in_range (lo hi : N) (c : ascii) : bool :=
  ((lo <=? code c) && (code c <=? hi))%N.

Definition is_upper (c : ascii) : bool := in_range 65 90 c.
Definition is_lower (c : ascii) : bool := in_range 97 122 c.
Definition is_digit (c : ascii) : bool := in_range 48 57 c.

(** Bytes kept by [encode("ascii", "ignore")]. *)
Definition is_ascii (c : ascii) : bool := (code c <? 128)%N.

(** [str.isspace] on the ASCII range: TAB, LF, VT, FF, CR, the four
    information separators 0x1c-0x1f, and SPACE. *)
Definition isspace (c : ascii) : bool :=
  in_range 9 13 c || in_range 28 31 c || (code c =? 32)%N.

Definition chars (s : string) : list ascii := list_ascii_of_string s.
Definition text (l : list ascii) : string := string_of_list_ascii l.

(** [s.replace(a, b)] for one-character [a] and [b]. *)
Definition replace_char (a b : ascii) (l : list ascii) : list ascii :=
  map (fun c => if Ascii.eqb c a then b else c) l.

(** [s.split()]: maximal runs of non-space characters. [cur] is the run
    being read, most recent character first. *)
Fixpoint split_aux (cur : list ascii) (l : list ascii) : list (list ascii) :=
  match l with
  | [] => match cur with [] => [] | _ => [rev cur] end
  | c :: l' =>
      if isspace c
      then match cur with
           | [] => split_aux [] l'
           | _ => rev cur :: split_aux [] l'
           end
      else split_aux (c :: cur) l'
  end.

Definition split (l : list ascii) : list (list ascii) := split_aux [] l.

(** [sep.join(pieces)]. *)
Fixpoint join (sep : list ascii) (pieces : list (list ascii)) : list ascii :=
  match pieces with
  | [] => []
  | [p] => p
  | p :: ps => p ++ sep ++ join sep ps
  end.

Fixpoint lstrip (drop : ascii -> bool) (l : list ascii) : list ascii :=
  match l with
  | [] => []
  | c :: l' => if drop c then lstrip drop l' else l
  end.

(** [s.strip(set)]. *)
Definition strip (drop : ascii -> bool) (l : list ascii) : list ascii :=
  rev (lstrip drop (rev (lstrip drop l))).

(** [s.startswith(prefix)]. *)
Fixpoint startswith (s prefix : list ascii) {struct prefix} : bool :=
  match prefix, s with
  | [], _ => true
  | p :: prefix', c :: s' => Ascii.eqb c p && startswith s' prefix'
  | _ :: _, [] => false
  end.

(** [s.split(sep)] for a one-character separator: empty pieces are kept. *)
Fixpoint split_on (sep : ascii) (cur : list ascii) (l : list ascii)
  : list (list ascii) :=
  match l with
  | [] => [rev cur]
  | c :: l' =>
      if Ascii.eqb c sep then rev cur :: split_on sep [] l'
      else split_on sep (c :: cur) l'
  end.

(** Lexicographic comparison of two strings by code unit, which is how
    Python orders [str] values (UTF-8 preserves code-point order). *)
Fixpoint leb (a b : list ascii) : bool :=
  match a, b with
  | [], _ => true
  | _ :: _, [] => false
  | x :: a', y :: b' =>
      if (code x <? code y)%N then true
      else if (code y <? code x)%N then false
      else leb a' b'
  end.

Definition str_leb (a b : string) : bool := leb (chars a) (chars b).

(** [str.lower] on ASCII letters. *)
Definition lower_char (c : ascii) : ascii :=
  if is_upper c then ascii_of_N (code c + 32) else c.

Definition ascii_lower (s : string) : string := text (map lower_char (chars s)).

End Text.

(** ** [werkzeug.utils.secure_filename] (POSIX branch)

    [[
    filename = unicodedata.normalize("NFKD", filename)
    filename = filename.encode("ascii", "ignore").decode("ascii")
    for sep in os.sep, os.path.altsep:
        if sep: filename = filename.replace(sep, " ")
    filename = str(_filename_ascii_strip_re.sub(
        "", "_".join(filename.split()))).strip("._")
    ]]
    with [_filename_ascii_strip_re = re.compile(r"[^A-Za-z0-9_.-]")],
    [os.sep = "/"] and [os.path.altsep = None].  The Unicode normalisation
    table is a parameter. *)

Module Werkzeug.
Import Text.

Definition slash : ascii := "/"%char.
Definition under : ascii := "_"%char.
Definition dot : ascii := "."%char.
Definition dash : ascii := "-"%char.
Definition space : ascii := " "%char.

(** The characters kept by [_filename_ascii_strip_re.sub("", _)]. *)
Definition keep (c : ascii) : bool :=
  is_upper c || is_lower c || is_digit c
  || Ascii.eqb c under || Ascii.eqb c dot || Ascii.eqb c dash.

Definition dot_or_under (c : ascii) : bool :=
  Ascii.eqb c dot || Ascii.eqb c under.

Definition secure_chars (l : list ascii) : list ascii :=
  let l1 := filter (fun c => is_ascii c = true) l in
  let l2 := replace_char slash space l1 in
  let l3 := join [under] (split l2) in
  let l4 := filter (fun c => keep c = true) l3 in
  strip dot_or_under l4.

Definition secure_filename (nfkd : string -> string) (filename : string)
  : string :=
  text (secure_chars (chars (nfkd filename))).

End Werkzeug.

(** ** [pathlib.PurePosixPath] and [Path.resolve]

    A path is its anchor and its list of components, as in [Path.parts]
    without the anchor.  Parsing drops empty and ["."] components and keeps
    [".."], as pathlib does. *)

Module Pathlib.
Import Text.

Inductive anchor := Relative | Root | DoubleSlash.

Record Path := mkPath { root : anchor; parts : list string }.

Definition anchor_eqb (a b : anchor) : bool :=
  match a, b with
  | Relative, Relative | Root, Root | DoubleSlash, DoubleSlash => true
  | _, _ => false
  end.

(** POSIX [splitroot]: exactly two leading slashes are kept apart. *)
Definition parse_anchor (l : list ascii) : anchor :=
  match l with
  | "/"%char :: "/"%char :: "/"%char :: _ => Root
  | "/"%char :: "/"%char :: _ => DoubleSlash
  | "/"%char :: _ => Root
  | _ => Relative
  end.

Definition is_component (s : string) : bool :=
  negb (String.eqb s "" || String.eqb s ".").

Definition parse_parts (l : list ascii) : list string :=
  filter (fun s => is_component s = true)
         (map text (split_on "/"%char [] l)).

(** [Path(s)]. *)
Definition of_string (s : string) : Path :=
  mkPath (parse_anchor (chars s)) (parse_parts (chars s)).

(** [p / s]: an anchored right operand replaces the left one. *)
Definition joinpath (p : Path) (s : string) : Path :=
  let q := of_string s in
  match root q with
  | Relative => mkPath (root p) (parts p ++ parts q)
  | _ => q
  end.

Definition anchor_str (a : anchor) : string :=
  match a with Relative => "" | Root => "/" | DoubleSlash => "//" end.

Fixpoint join_parts (l : list string) : string :=
  match l with
  | [] => ""
  | [s] => s
  | s :: l' => s ++ "/" ++ join_parts l'
  end.

(** [str(p)]. *)
Definition to_string (p : Path) : string :=
  match root p, parts p with
  | Relative, [] => "."
  | a, l => anchor_str a ++ join_parts l
  end.

(** [p.name]. *)
Definition name (p : Path) : string := List.last (parts p) "".

(** Components of the absolute path: [".."] steps to the parent and stays
    at the root directory. [acc] is the path walked so far, innermost
    component first. *)
Fixpoint walk (acc : list string) (l : list string) : list string :=
  match l with
  | [] => rev acc
  | s :: l' =>
      if String.eqb s ".." then walk (tail acc) l'
      else walk (s :: acc) l'
  end.

(** [p.resolve()] in a file system without symbolic links, as the list of
    components below [/]; [cwd] is the working directory of the process,
    used for relative paths only. *)
Definition resolve (cwd : list string) (p : Path) : list string :=
  match root p with
  | Relative => walk (rev cwd) (parts p)
  | _ => walk [] (parts p)
  end.

(** [str(p.resolve())]. *)
Definition resolved_str (cwd : list string) (p : Path) : string :=
  "/" ++ join_parts (resolve cwd p).

End Pathlib.

(** ** JSON values, as [json.loads] returns them

    Numbers are integers; a floating-point number has no counterpart in the
    model. *)

Inductive JSON : Type :=
  | JNull
  | JBool (b : bool)
  | JNum (n : Z)
  | JStr (s : string)
  | JArr (l : list JSON)
  | JObj (m : gmap string JSON).

(** [isinstance(v, dict)] *)
Definition is_dict (v : JSON) : bool :=
  match v with JObj _ => true | _ => false end.

(** The empty dict [{}]. *)
Definition empty_dict : JSON := JObj ∅.

(** ** The file system

    A finite map from the components of an absolute, resolved path to the
    node found there; the root directory [/] always exists.  The map sets
    no limit on the length of an entry name or of a path: the error
    [ENAMETOOLONG] of a real file system is outside this model, and the
    properties that would feel it are stated for names within the limit. *)

Inductive node :=
  | File (content : string) (mtime : Z)
  | Dir.

Abbreviation filesystem := (gmap (list string) node).

Inductive exn :=
  | FileNotFoundError
  | IsADirectoryError
  | NotADirectoryError
  | FileExistsError
  | AttributeError
  | TypeError
  | ValueError
  (* werkzeug.exceptions *)
  | BadRequest
  | NotFound
  | RequestEntityTooLarge.

(** ** Computations: state passing over the file system, with exceptions *)

Definition M (A : Type) : Type := filesystem → (exn + A) * filesystem.

#[global] Instance M_ret : MRet M := λ A a fs, (inr a, fs).

#[global] Instance M_bind : MBind M := λ A B k m fs,
  match m fs with
  | (inr a, fs') => k a fs'
  | (inl e, fs') => (inl e, fs')
  end.

Definition raise {A} (e : exn) : M A := λ fs, (inl e, fs).

(** [try: m  except Exception: h] *)
Definition try_except {A} (m : M A) (h : M A) : M A :=
  λ fs, match m fs with
        | (inr a, fs') => (inr a, fs')
        | (inl _, fs') => h fs'
        end.

Module FS.

Definition stat (fs : filesystem) (p : list string) : option node :=
  match p with
  | [] => Some Dir
  | _ => fs !! p
  end.

Definition parent (p : list string) : list string := removelast p.

(** [os.path.exists] *)
Definition exists_ (p : list string) : M bool :=
  λ fs, (inr (bool_decide (is_Some (stat fs p))), fs).

(** [os.path.isfile] *)
Definition isfile (p : list string) : M bool :=
  λ fs, (inr (match stat fs p with Some (File _ _) => true | _ => false end), fs).

(** [open(p, "rb").read()] *)
Definition read (p : list string) : M string :=
  λ fs, match stat fs p with
        | Some (File c _) => (inr c, fs)
        | Some Dir => (inl IsADirectoryError, fs)
        | None => (inl FileNotFoundError, fs)
        end.

(** [open(p, "wb").write(data)] at time [now]: the file is created or
    truncated; the directory that holds it must exist. *)
Definition write (p : list string) (data : string) (now : Z) : M () :=
  λ fs, match stat fs p with
        | Some Dir => (inl IsADirectoryError, fs)
        | _ =>
            match stat fs (parent p) with
            | Some Dir => (inr (), <[p := File data now]> fs)
            | Some (File _ _) => (inl NotADirectoryError, fs)
            | None => (inl FileNotFoundError, fs)
            end
        end.

(** [os.mkdir(p)], passing over an existing directory as
    [Path.mkdir(exist_ok=True)] does. *)
Definition mkdir (p : list string) : M () :=
  λ fs, match stat fs p with
        | Some Dir => (inr (), fs)
        | Some (File _ _) => (inl FileExistsError, fs)
        | None =>
            match stat fs (parent p) with
            | Some Dir => (inr (), <[p := Dir]> fs)
            | Some (File _ _) => (inl NotADirectoryError, fs)
            | None => (inl FileNotFoundError, fs)
            end
        end.

(** [os.unlink(p)] *)
Definition unlink (p : list string) : M () :=
  λ fs, match stat fs p with
        | Some (File _ _) => (inr (), delete p fs)
        | Some Dir => (inl IsADirectoryError, fs)
        | None => (inl FileNotFoundError, fs)
        end.

(** The entry names of directory [d], in the order the map yields them
    ([os.scandir] promises no order). *)
Definition entry_of (d : list string) (kv : list string * node)
  : option string :=
  match last kv.1 with
  | Some n => if bool_decide (kv.1 = (d ++ [n])%list) then Some n else None
  | None => None
  end.

Definition entries (fs : filesystem) (d : list string) : list string :=
  omap (entry_of d) (map_to_list fs).

(** [os.listdir(d)] *)
Definition listdir (d : list string) : M (list string) :=
  λ fs, match stat fs d with
        | Some Dir => (inr (entries fs d), fs)
        | Some (File _ _) => (inl NotADirectoryError, fs)
        | None => (inl FileNotFoundError, fs)
        end.

(** [os.stat(p)]: size and modification time. Only the attributes of
    regular files are modelled; a directory reports zeros. *)
Definition stat_result (p : list string) : M (Z * Z) :=
  λ fs, match stat fs p with
        | Some (File c t) => (inr (Z.of_nat (String.length c), t), fs)
        | Some Dir => (inr (0, 0), fs)
        | None => (inl FileNotFoundError, fs)
        end.

End FS.

(** ** A reference codec: [json.dumps(_, indent=2)] and [json.loads]

    The text Python writes and reads, for the values of the model and ASCII
    strings.  Two restrictions: the items of a dict are written in the
    enumeration order of the map (a dict of one item has one order), and
    strings are taken byte by byte, so a byte above 0x7f is copied as it is
    and a [\u] escape is read for code points below 0x80 only. *)

Module JsonText.
Import Text.

(** The double quote, code 34. *)
Abbreviation DQUOTE := (Ascii false true false false false true false false)
  (only parsing).

Definition quote : ascii := DQUOTE.
Definition backslash : ascii := "\"%char.

Definition hex_digit (n : N) : ascii :=
  if (n <? 10)%N then ascii_of_N (48 + n) else ascii_of_N (87 + n).

Definition hex_value (c : ascii) : option N :=
  if is_digit c then Some (code c - 48)%N
  else if in_range 97 102 c then Some (code c - 87)%N
  else if in_range 65 70 c then Some (code c - 55)%N
  else None.

(** [ESCAPE_ASCII]: the short escapes, [\u00XX] for the other characters
    outside [' '..'~']. *)
Definition escape_char (c : ascii) : list ascii :=
  if Ascii.eqb c quote then [backslash; quote]
  else if Ascii.eqb c backslash then [backslash; backslash]
  else if (code c =? 10)%N then [backslash; "n"%char]
  else if (code c =? 13)%N then [backslash; "r"%char]
  else if (code c =? 9)%N then [backslash; "t"%char]
  else if (code c =? 8)%N then [backslash; "b"%char]
  else if (code c =? 12)%N then [backslash; "f"%char]
  else if (code c <? 32)%N || (code c =? 127)%N
  then [backslash; "u"%char; "0"%char; "0"%char;
        hex_digit (code c / 16); hex_digit (code c mod 16)]
  else [c].

Definition dump_string (s : string) : list ascii :=
  quote :: flat_map escape_char (chars s) ++ [quote].

Fixpoint digits (u : Decimal.uint) : list ascii :=
  match u with
  | Decimal.Nil => []
  | Decimal.D0 u => "0"%char :: digits u
  | Decimal.D1 u => "1"%char :: digits u
  | Decimal.D2 u => "2"%char :: digits u
  | Decimal.D3 u => "3"%char :: digits u
  | Decimal.D4 u => "4"%char :: digits u
  | Decimal.D5 u => "5"%char :: digits u
  | Decimal.D6 u => "6"%char :: digits u
  | Decimal.D7 u => "7"%char :: digits u
  | Decimal.D8 u => "8"%char :: digits u
  | Decimal.D9 u => "9"%char :: digits u
  end.

Definition dump_int (n : Z) : list ascii :=
  if n <? 0 then "-"%char :: digits (N.to_uint (Z.abs_N n))
  else digits (N.to_uint (Z.abs_N n)).

(** A line break and the indentation of nesting depth [lvl]. *)
Definition newline (lvl : nat) : list ascii :=
  "010"%char :: repeat " "%char (2 * lvl).

Definition dump_item (kv : string * list ascii) : list ascii :=
  dump_string kv.1 ++ chars ": " ++ kv.2.

(** The opening bracket, the items one per line, the closing bracket. *)
Definition dump_block (lvl : nat) (opening closing : ascii)
    (items : list (list ascii)) : list ascii :=
  match items with
  | [] => [opening; closing]
  | _ => opening :: newline (S lvl)
           ++ join (","%char :: newline (S lvl)) items
           ++ newline lvl ++ [closing]
  end.

Fixpoint dump (lvl : nat) (v : JSON) : list ascii :=
  match v with
  | JNull => chars "null"
  | JBool true => chars "true"
  | JBool false => chars "false"
  | JNum n => dump_int n
  | JStr s => dump_string s
  | JArr l => dump_block lvl "["%char "]"%char (map (dump (S lvl)) l)
  | JObj m =>
      dump_block lvl "{"%char "}"%char
                 (map dump_item (map_to_list (dump (S lvl) <$> m)))
  end.

Definition dumps (v : JSON) : string := text (dump 0 v).

(** *** Reading *)

Definition is_ws (c : ascii) : bool :=
  Ascii.eqb c " "%char || (code c =? 9)%N || (code c =? 10)%N || (code c =? 13)%N.

Fixpoint skip_ws (s : list ascii) : list ascii :=
  match s with
  | c :: s' => if is_ws c then skip_ws s' else s
  | [] => []
  end.

Definition unescape (c : ascii) : option ascii :=
  if Ascii.eqb c quote || Ascii.eqb c backslash || Ascii.eqb c "/"%char then Some c
  else if Ascii.eqb c "b"%char then Some (ascii_of_N 8)
  else if Ascii.eqb c "f"%char then Some (ascii_of_N 12)
  else if Ascii.eqb c "n"%char then Some (ascii_of_N 10)
  else if Ascii.eqb c "r"%char then Some (ascii_of_N 13)
  else if Ascii.eqb c "t"%char then Some (ascii_of_N 9)
  else None.

Definition hex4 (a b c d : ascii) : option N :=
  match hex_value a, hex_value b, hex_value c, hex_value d with
  | Some x, Some y, Some z, Some w => Some (((x * 16 + y) * 16 + z) * 16 + w)%N
  | _, _, _, _ => None
  end.

(** The characters of a string literal after its opening quote, and the
    text after its closing quote. *)
Fixpoint string_body (s : list ascii) : option (list ascii * list ascii) :=
  match s with
  | [] => None
  | c :: s1 =>
      if Ascii.eqb c quote then Some ([], s1)
      else if Ascii.eqb c backslash then
        match s1 with
        | [] => None
        | e :: s2 =>
            if Ascii.eqb e "u"%char then
              match s2 with
              | h1 :: h2 :: h3 :: h4 :: s3 =>
                  match hex4 h1 h2 h3 h4 with
                  | Some n =>
                      if (n <? 128)%N then
                        match string_body s3 with
                        | Some (cs, r) => Some (ascii_of_N n :: cs, r)
                        | None => None
                        end
                      else None
                  | None => None
                  end
              | _ => None
              end
            else
              match unescape e with
              | Some d =>
                  match string_body s2 with
                  | Some (cs, r) => Some (d :: cs, r)
                  | None => None
                  end
              | None => None
              end
        end
      else if (code c <? 32)%N then None
      else
        match string_body s1 with
        | Some (cs, r) => Some (c :: cs, r)
        | None => None
        end
  end.

Definition digit_cons (c : ascii) (u : Decimal.uint) : Decimal.uint :=
  match (code c - 48)%N with
  | 0 => Decimal.D0 u | 1 => Decimal.D1 u | 2 => Decimal.D2 u
  | 3 => Decimal.D3 u | 4 => Decimal.D4 u | 5 => Decimal.D5 u
  | 6 => Decimal.D6 u | 7 => Decimal.D7 u | 8 => Decimal.D8 u
  | _ => Decimal.D9 u
  end%N.

(** The longest run of decimal digits at the head of [s]. *)
Fixpoint read_digits (s : list ascii) : Decimal.uint * list ascii :=
  match s with
  | c :: s1 =>
      if is_digit c
      then let '(u, r) := read_digits s1 in (digit_cons c u, r)
      else (Decimal.Nil, s)
  | [] => (Decimal.Nil, [])
  end.

Definition starts_fraction (s : list ascii) : bool :=
  match s with
  | c :: _ => Ascii.eqb c "."%char || Ascii.eqb c "e"%char || Ascii.eqb c "E"%char
  | [] => false
  end.

(** An integer literal: a run of digits without a leading zero (the sign
    was read by the caller); a fraction or an exponent makes a float. *)
Definition read_int (negative : bool) (s : list ascii) : option (JSON * list ascii) :=
  let '(u, r) := read_digits s in
  match u with
  | Decimal.Nil => None
  | _ =>
      if negb (Decimal.uint_beq (Decimal.unorm u) u) || starts_fraction r then None
      else
        let n := Z.of_N (N.of_uint u) in
        Some (JNum (if negative then - n else n), r)
  end.

Fixpoint parse_value (fuel : nat) (s : list ascii) : option (JSON * list ascii) :=
  match fuel with
  | O => None
  | S fuel' =>
      match skip_ws s with
      | "n"%char :: "u"%char :: "l"%char :: "l"%char :: r => Some (JNull, r)
      | "t"%char :: "r"%char :: "u"%char :: "e"%char :: r => Some (JBool true, r)
      | "f"%char :: "a"%char :: "l"%char :: "s"%char :: "e"%char :: r =>
          Some (JBool false, r)
      | DQUOTE :: r =>
          match string_body r with
          | Some (cs, r') => Some (JStr (text cs), r')
          | None => None
          end
      | "["%char :: r =>
          match skip_ws r with
          | "]"%char :: r' => Some (JArr [], r')
          | _ => parse_elements fuel' [] r
          end
      | "{"%char :: r =>
          match skip_ws r with
          | "}"%char :: r' => Some (JObj ∅, r')
          | _ => parse_members fuel' [] r
          end
      | "-"%char :: r => read_int true r
      | r => read_int false r
      end
  end
(** The elements after the opening bracket; [acc] holds those read, last
    one first. *)
with parse_elements (fuel : nat) (acc : list JSON) (s : list ascii)
  : option (JSON * list ascii) :=
  match fuel with
  | O => None
  | S fuel' =>
      match parse_value fuel' s with
      | Some (v, r) =>
          match skip_ws r with
          | ","%char :: r' => parse_elements fuel' (v :: acc) r'
          | "]"%char :: r' => Some (JArr (rev (v :: acc)), r')
          | _ => None
          end
      | None => None
      end
  end
(** The members after the opening brace; of two members with one key the
    later one stays, as in the dict Python builds. *)
with parse_members (fuel : nat) (acc : list (string * JSON)) (s : list ascii)
  : option (JSON * list ascii) :=
  match fuel with
  | O => None
  | S fuel' =>
      match skip_ws s with
      | DQUOTE :: r =>
          match string_body r with
          | Some (k, r1) =>
              match skip_ws r1 with
              | ":"%char :: r2 =>
                  match parse_value fuel' r2 with
                  | Some (v, r3) =>
                      match skip_ws r3 with
                      | ","%char :: r4 => parse_members fuel' ((text k, v) :: acc) r4
                      | "}"%char :: r4 =>
                          Some (JObj (list_to_map ((text k, v) :: acc)), r4)
                      | _ => None
                      end
                  | None => None
                  end
              | _ => None
              end
          | None => None
          end
      | _ => None
      end
  end.

Definition loads (s : string) : option JSON :=
  match parse_value (String.length s) (chars s) with
  | Some (v, r) => match skip_ws r with [] => Some v | _ => None end
  | None => None
  end.

(** *** Notions for the round trip *)

(** The number of nodes of a value. *)
Fixpoint json_size (v : JSON) : nat :=
  match v with
  | JArr l => S (list_sum (map json_size l))
  | JObj m => S (map_fold (λ _ n acc, n + acc)%nat O (json_size <$> m))
  | _ => 1
  end.

(** The text after a number: not a digit, and no fraction or exponent. *)
Definition ends_number (rest : list ascii) : Prop :=
  match rest with
  | c :: _ => is_digit c = false ∧ starts_fraction rest = false
  | [] => True
  end.

(** [v], written at any depth and followed by any text that does not
    continue a number, is read back with that text left over. *)
Definition reads (v : JSON) : Prop :=
  ∀ lvl rest fuel,
    (length (dump lvl v) ≤ fuel)%nat → ends_number rest →
    parse_value fuel (dump lvl v ++ rest) = Some (v, rest).

(** What stands between two items of a block at depth [lvl]. *)
Definition separator (lvl : nat) : list ascii := ","%char :: newline (S lvl).

(** The line of the member [kv] in a block at depth [lvl]. *)
Definition member (lvl : nat) (kv : string * JSON) : list ascii :=
  dump_item (kv.1, dump (S lvl) kv.2).

End JsonText.

(** ** What the Python runtime supplies

    - [nfkd]: [unicodedata.normalize("NFKD", _)];
    - [str_lower]: [str.lower];
    - [json_dumps v]: the bytes [write_text(json.dumps(v, indent=2),
      encoding="utf-8")] stores;
    - [json_loads b]: [json.loads] of the text [read_text(encoding="utf-8")]
      decodes from [b], [None] when decoding or parsing raises;
    - [cwd]: the working directory of the server process. *)

Class Runtime := {
  nfkd : string → string;
  str_lower : string → string;
  json_dumps : JSON → string;
  json_loads : string → option JSON;
  cwd : list string
}.

(** ** [posixpath] and the werkzeug helpers behind [send_from_directory] *)

Module Posixpath.
Import Text.

(** The loop of [posixpath.normpath]; [acc] is [new_comps], last
    component first. *)
Fixpoint norm_comps (anchored : bool) (acc : list string) (l : list string)
  : list string :=
  match l with
  | [] => rev acc
  | comp :: l' =>
      if String.eqb comp "" || String.eqb comp "." then norm_comps anchored acc l'
      else if negb (String.eqb comp "..")
              || (negb anchored && bool_decide (acc = []))
              || match acc with c :: _ => String.eqb c ".." | [] => false end
      then norm_comps anchored (comp :: acc) l'
      else norm_comps anchored (tail acc) l'
  end.

Definition normpath (path : string) : string :=
  if String.eqb path "" then "."
  else
    let a := Pathlib.parse_anchor (chars path) in
    let comps := map text (split_on "/"%char [] (chars path)) in
    let body := Pathlib.join_parts
                  (norm_comps (negb (Pathlib.anchor_eqb a Pathlib.Relative)) [] comps) in
    let r := Pathlib.anchor_str a ++ body in
    if String.eqb r "" then "." else r.

Definition isabs (s : string) : bool := startswith (chars s) ["/"%char].

Definition endswith_slash (s : string) : bool :=
  match last (chars s) with
  | Some c => Ascii.eqb c "/"%char
  | None => false
  end.

(** [posixpath.join(a, b)] *)
Definition join (a b : string) : string :=
  if isabs b then b
  else if String.eqb a "" || endswith_slash a then a ++ b
  else a ++ "/" ++ b.

End Posixpath.

Module WerkzeugSecurity.
Import Text.

(** [werkzeug.security.safe_join(directory, filename)] *)
Definition safe_join (directory filename : string) : option string :=
  let directory := if String.eqb directory "" then "." else directory in
  let filename :=
    if String.eqb filename "" then filename else Posixpath.normpath filename in
  if Posixpath.isabs filename
     || String.eqb filename ".."
     || startswith (chars filename) (chars "../")
  then None
  else Some (Posixpath.join directory filename).

End WerkzeugSecurity.

(** ** Requests and responses *)

Record FileStorage := { filename : string; stream : string }.

Record upload_request := {
  content_length : Z;
  files : gmap string FileStorage
}.

Inductive method := GET | POST.

(** The dict [file_info] builds. *)
Record file_entry := {
  fe_name : string;
  fe_size : Z;
  fe_mtime : Z;
  fe_download_url : string;
  fe_metadata : JSON
}.

Inductive body :=
  | Json (v : JSON)                          (* jsonify(v) *)
  | Listing (l : list file_entry)            (* jsonify([file_info, ...]) *)
  | Attachment (name : string) (data : string) (* send_file(..., as_attachment=True) *)
  | ErrorPage.                               (* the framework's error page *)

Record response := { status : Z; payload : body }.

Definition error_json (msg : string) : JSON := JObj {[ "error" := JStr msg ]}.

Definition message_json (msg file : string) : JSON :=
  JObj (<[ "message" := JStr msg ]> {[ "file" := JStr file ]}).

(** ** The server, [src/umdrive/umdrive.py] *)

Module UmDrive.
Section with_runtime.
Context `{RT : Runtime}.

Definition STORAGE_DIR : Pathlib.Path := Pathlib.of_string "/app/storage".
Definition METADATA_FILE : Pathlib.Path :=
  Pathlib.joinpath STORAGE_DIR "metadata.json".
Definition MAX_CONTENT_LENGTH : Z := 1000 * 1024 * 1024.

(** The node a [Path] denotes. *)
Definition locate (p : Pathlib.Path) : list string := Pathlib.resolve cwd p.

(** The node a path string handed to [open] or [os.path] denotes. *)
Definition locate_str (s : string) : list string :=
  locate (Pathlib.of_string s).

Definition secure_filename (name : string) : string :=
  Werkzeug.secure_filename nfkd name.

(** [[
    def load_metadata():
        try:
            return json.loads(METADATA_FILE.read_text(encoding='utf-8'))
        except Exception:
            return {}
    ]] *)
Definition load_metadata : M JSON :=
  try_except
    (b ← FS.read (locate METADATA_FILE);
     match json_loads b with
     | Some v => mret v
     | None => raise ValueError
     end)
    (mret empty_dict).

(** [[
    def save_metadata(md):
        METADATA_FILE.write_text(json.dumps(md, indent=2), encoding='utf-8')
    ]] *)
Definition save_metadata (md : JSON) (now : Z) : M () :=
  FS.write (locate METADATA_FILE) (json_dumps md) now.

(** What the module does when it is loaded:
    [[
    STORAGE_DIR.mkdir(exist_ok=True)
    if not METADATA_FILE.exists():
        METADATA_FILE.write_text(json.dumps({}, indent=2), encoding='utf-8')
    ]] *)
Definition startup (now : Z) : M () :=
  FS.mkdir (locate STORAGE_DIR);;
  found ← FS.exists_ (locate METADATA_FILE);
  if negb found then save_metadata empty_dict now else mret ().

(** [[
    def is_within_directory(child: Path, parent: Path) -> bool:
        return str(child.resolve()).startswith(str(parent.resolve()))
    ]] *)
Definition is_within_directory (child parent : Pathlib.Path) : bool :=
  Text.startswith (Text.chars (Pathlib.resolved_str cwd child))
                  (Text.chars (Pathlib.resolved_str cwd parent)).

(** *** Methods of the object [load_metadata] returned *)

(** [md.get(key, dflt)]; only a dict has the method. *)
Definition py_get (md : JSON) (key : string) (dflt : JSON) : M JSON :=
  match md with
  | JObj m => mret (default dflt (m !! key))
  | _ => raise AttributeError
  end.

(** [md.setdefault(key, dflt)]: the dict afterwards. *)
Definition py_setdefault (md : JSON) (key : string) (dflt : JSON) : M JSON :=
  match md with
  | JObj m =>
      match m !! key with
      | Some _ => mret (JObj m)
      | None => mret (JObj (<[key := dflt]> m))
      end
  | _ => raise AttributeError
  end.

(** [md.pop(key, None)]: the dict afterwards. A list has [pop], with
    another signature. *)
Definition py_pop (md : JSON) (key : string) : M JSON :=
  match md with
  | JObj m => mret (JObj (delete key m))
  | JArr _ => raise TypeError
  | _ => raise AttributeError
  end.

(** [md[key] = value]: the dict afterwards. *)
Definition py_setitem (md : JSON) (key : string) (value : JSON) : M JSON :=
  match md with
  | JObj m => mret (JObj (<[key := value]> m))
  | _ => raise TypeError
  end.

(** [[
    def file_info(path: Path):
        st = path.stat()
        return {
            'name': path.name,
            'size': st.st_size,
            'mtime': int(st.st_mtime),
            'download_url': f'/api/files/{path.name}/download',
            'metadata': load_metadata().get(path.name, {})
        }
    ]] *)
Definition file_info (path : Pathlib.Path) : M file_entry :=
  '(st_size, st_mtime) ← FS.stat_result (locate path);
  md ← load_metadata;
  record ← py_get md (Pathlib.name path) empty_dict;
  mret {| fe_name := Pathlib.name path;
          fe_size := st_size;
          fe_mtime := st_mtime;
          fe_download_url := "/api/files/" ++ Pathlib.name path ++ "/download";
          fe_metadata := record |}.

(** [STORAGE_DIR.iterdir()] *)
Definition iterdir (d : Pathlib.Path) : M (list Pathlib.Path) :=
  names ← FS.listdir (locate d);
  mret (map (λ n, Pathlib.mkPath (Pathlib.root d) (Pathlib.parts d ++ [n])%list)
            names).

(** [p.is_file()] *)
Definition is_file (p : Pathlib.Path) : M bool := FS.isfile (locate p).

(** [p.exists()] *)
Definition path_exists (p : Pathlib.Path) : M bool := FS.exists_ (locate p).

(** [[x for x in l if keep(x)]] with an effectful test. *)
Fixpoint filterM {A} (keep : A → M bool) (l : list A) : M (list A) :=
  match l with
  | [] => mret []
  | x :: l' =>
      b ← keep x;
      rest ← filterM keep l';
      mret (if (b : bool) then x :: rest else rest)
  end.

(** [[f(x) for x in l]] with an effectful [f]. *)
Fixpoint forM {A B} (f : A → M B) (l : list A) : M (list B) :=
  match l with
  | [] => mret []
  | x :: l' =>
      y ← f x;
      rest ← forM f l';
      mret (y :: rest)
  end.

(** [sorted(l, key=key)]: a stable sort on string keys. *)
Fixpoint insert_by {A} (key : A → string) (x : A) (l : list A) : list A :=
  match l with
  | [] => [x]
  | y :: l' =>
      if Text.str_leb (key x) (key y) then x :: l
      else y :: insert_by key x l'
  end.

Definition sorted {A} (key : A → string) (l : list A) : list A :=
  foldr (insert_by key) [] l.

(** [[
    @app.route("/api/files", methods=['GET'])
    def list_files():
        files = [file_info(p) for p in STORAGE_DIR.iterdir()
                 if p.is_file() and p.name != METADATA_FILE.name]
        return jsonify(sorted(files, key=lambda x: x['name'].lower()))
    ]]
    The comprehension tests and maps entry by entry; nothing it calls
    writes, so testing first and mapping afterwards is the same
    computation. *)
Definition list_files : M response :=
  ps ← iterdir STORAGE_DIR;
  kept ← filterM (λ p, b ← is_file p;
                       mret (b && negb (String.eqb (Pathlib.name p)
                                                   (Pathlib.name METADATA_FILE))))
                 ps;
  files ← forM file_info kept;
  mret {| status := 200;
          payload := Listing (sorted (λ x, str_lower (fe_name x)) files) |}.

(** [request.files]: parsing the form raises once the declared length
    exceeds [MAX_CONTENT_LENGTH]. *)
Definition request_files (req : upload_request) : M (gmap string FileStorage) :=
  if MAX_CONTENT_LENGTH <? content_length req then raise RequestEntityTooLarge
  else mret (files req).

(** [f.save(dst)]: [open(dst, "wb")] and copy the stream. *)
Definition save (f : FileStorage) (dst : string) (now : Z) : M () :=
  FS.write (locate_str dst) (stream f) now.

(** [[
    @app.route("/api/files", methods=['POST'])
    def upload_file():
        if 'file' not in request.files:
            return jsonify({'error': 'Nenhum ficheiro enviado'}), 400
        f = request.files['file']
        if f.filename == '':
            return jsonify({'error': 'Nome de ficheiro vazio'}), 400
        filename = secure_filename(f.filename)
        f.save(str(STORAGE_DIR / filename))
        md = load_metadata(); md.setdefault(filename, {}); save_metadata(md)
        return jsonify({'message': 'uploaded', 'file': filename}), 201
    ]] *)
Definition upload_file (req : upload_request) (now : Z) : M response :=
  fields ← request_files req;
  match fields !! "file" with
  | None =>
      mret {| status := 400; payload := Json (error_json "Nenhum ficheiro enviado") |}
  | Some f =>
      if String.eqb (filename f) "" then
        mret {| status := 400; payload := Json (error_json "Nome de ficheiro vazio") |}
      else
        let filename := secure_filename (filename f) in
        save f (Pathlib.to_string (Pathlib.joinpath STORAGE_DIR filename)) now;;
        md ← load_metadata;
        md ← py_setdefault md filename empty_dict;
        save_metadata md now;;
        mret {| status := 201; payload := Json (message_json "uploaded" filename) |}
  end.

(** [flask.send_from_directory(directory, path, as_attachment=True)]:
    [[
    path = safe_join(directory, path)
    if path is None: raise NotFound()
    if not os.path.isfile(path): raise NotFound()
    return send_file(path, ...)
    ]]
    (the application root is only prepended to a relative [directory]). *)
Definition send_from_directory (directory name : string) : M response :=
  match WerkzeugSecurity.safe_join directory name with
  | None => raise NotFound
  | Some path =>
      b ← FS.isfile (locate_str path);
      if (b : bool) then
        data ← FS.read (locate_str path);
        mret {| status := 200;
                payload := Attachment (Pathlib.name (Pathlib.of_string path)) data |}
      else raise NotFound
  end.

(** [[
    @app.route("/api/files/<path:filename>/download", methods=['GET'])
    def download_file(filename):
        safe_name = secure_filename(filename)
        path = STORAGE_DIR / safe_name
        if not path.exists(): return jsonify({'error': 'Não encontrado'}), 404
        if not is_within_directory(path, STORAGE_DIR):
            return jsonify({'error': 'Caminho inválido'}), 400
        return send_from_directory(str(STORAGE_DIR), safe_name, as_attachment=True)
    ]] *)
Definition download_file (filename : string) : M response :=
  let safe_name := secure_filename filename in
  let path := Pathlib.joinpath STORAGE_DIR safe_name in
  found ← path_exists path;
  if negb found then
    mret {| status := 404; payload := Json (error_json "Não encontrado") |}
  else if negb (is_within_directory path STORAGE_DIR) then
    mret {| status := 400; payload := Json (error_json "Caminho inválido") |}
  else send_from_directory (Pathlib.to_string STORAGE_DIR) safe_name.

(** [[
    @app.route("/api/files/<path:filename>", methods=['DELETE'])
    def delete_file(filename):
        safe_name = secure_filename(filename)
        path = STORAGE_DIR / safe_name
        if not path.exists(): return jsonify({'error': 'Não encontrado'}), 404
        path.unlink(); md = load_metadata(); md.pop(safe_name, None); save_metadata(md)
        return jsonify({'message': 'deleted', 'file': safe_name})
    ]] *)
Definition delete_file (filename : string) (now : Z) : M response :=
  let safe_name := secure_filename filename in
  let path := Pathlib.joinpath STORAGE_DIR safe_name in
  found ← path_exists path;
  if negb found then
    mret {| status := 404; payload := Json (error_json "Não encontrado") |}
  else
    FS.unlink (locate path);;
    md ← load_metadata;
    md ← py_pop md safe_name;
    save_metadata md now;;
    mret {| status := 200; payload := Json (message_json "deleted" safe_name) |}.

(** [request.get_json()]: [None] stands for a body that is not JSON, for
    which the framework raises [BadRequest]. *)
Definition get_json (body : option JSON) : M JSON :=
  match body with
  | Some v => mret v
  | None => raise BadRequest
  end.

(** [[
    @app.route("/api/files/<path:filename>/metadata", methods=['GET','POST'])
    def metadata(filename):
        safe_name = secure_filename(filename)
        md = load_metadata()
        if request.method == 'GET': return jsonify(md.get(safe_name, {}))
        data = request.get_json()
        if not isinstance(data, dict):
            return jsonify({'error': 'Esperado JSON object'}), 400
        md[safe_name] = data; save_metadata(md)
        return jsonify({'message': 'metadata updated', 'file': safe_name})
    ]] *)
Definition metadata (filename : string) (meth : method) (body : option JSON)
    (now : Z) : M response :=
  let safe_name := secure_filename filename in
  md ← load_metadata;
  match meth with
  | GET =>
      record ← py_get md safe_name empty_dict;
      mret {| status := 200; payload := Json record |}
  | POST =>
      data ← get_json body;
      if negb (is_dict data) then
        mret {| status := 400; payload := Json (error_json "Esperado JSON object") |}
      else
        md ← py_setitem md safe_name data;
        save_metadata md now;;
        mret {| status := 200;
                payload := Json (message_json "metadata updated" safe_name) |}
  end.

(** [[
    @app.errorhandler(RequestEntityTooLarge)
    def handle_large(e): return jsonify({'error': 'Ficheiro demasiado grande'}), 413
    ]] *)
Definition handle_large : response :=
  {| status := 413; payload := Json (error_json "Ficheiro demasiado grande") |}.

(** What the framework answers when a view raises: the registered handler
    for [RequestEntityTooLarge], the exception's own status for the other
    HTTP exceptions, 500 for anything else. *)
Definition on_exception (e : exn) : response :=
  match e with
  | RequestEntityTooLarge => handle_large
  | BadRequest => {| status := 400; payload := ErrorPage |}
  | NotFound => {| status := 404; payload := ErrorPage |}
  | _ => {| status := 500; payload := ErrorPage |}
  end.

(** One request: the response sent and the file system left behind. *)
Definition serve (view : M response) (fs : filesystem) : response * filesystem :=
  match view fs with
  | (inr r, fs') => (r, fs')
  | (inl e, fs') => (on_exception e, fs')
  end.

End with_runtime.
End UmDrive.
(** ** The containment check of [src/umdrive/umDrive_Teste.py] *)

Module UmDriveTeste.
Section with_runtime.
Context `{RT : Runtime}.

(** [[
    def is_within_directory(child: Path, parent: Path) -> bool:
        parent_real = str(parent.resolve())
        child_real = str(child.resolve())
        return child_real == parent_real or child_real.startswith(parent_real + os.sep)
    ]] *)
Definition is_within_directory (child parent : Pathlib.Path) : bool :=
  let parent_real := Pathlib.resolved_str cwd parent in
  let child_real := Pathlib.resolved_str cwd child in
  String.eqb child_real parent_real
  || Text.startswith (Text.chars child_real) (Text.chars (parent_real ++ "/")).

End with_runtime.
End UmDriveTeste.

(** The runtime of the examples: ASCII text (on which NFKD normalisation
    is the identity and [str.lower] maps [A-Z] to [a-z]), the reference
    codec, and a server process started in [/app]. *)
#[global] Instance reference_runtime : Runtime := {|
  nfkd := id;
  str_lower := Text.ascii_lower;
  json_dumps := JsonText.dumps;
  json_loads := JsonText.loads;
  cwd := ["app"]
|}.

(** ** Notions the properties are stated with *)

Module Store.
Section with_runtime.
Context `{RT : Runtime}.

(** A name made of the characters [A-Za-z0-9_.-] that does not start with
    a dot or an underscore. *)
Definition plain (l : list ascii) : Prop :=
  Forall (λ c, Werkzeug.keep c = true) l ∧
  match l with c :: _ => Werkzeug.dot_or_under c = false | [] => True end.

(** One path segment: no separator, and neither of the two special
    directory names. *)
Definition single_segment (s : string) : Prop :=
  ("/"%char ∉ Text.chars s) ∧ s ≠ "." ∧ s ≠ "..".

(** A path component: a name with no separator in it. *)
Definition slash_free (s : string) : Prop :=
  Forall (λ c, Ascii.eqb c "/"%char = false) (Text.chars s).

(** The components of the storage root, of the entry [name] in it, and of
    the metadata document. *)
Definition storage : list string := ["app"; "storage"].
Definition slot (name : string) : list string := ["app"; "storage"; name].
Definition reserved : string := "metadata.json".
Definition metadata_slot : list string := slot reserved.

(** The node [STORAGE_DIR / name] denotes for a sanitized [name]: the
    entry of that name, or the storage root itself for the empty name. *)
Definition target (name : string) : list string :=
  if String.eqb name "" then storage else slot name.

(** [p] is the storage root or lies below it. *)
Definition inside_storage (p : list string) : Prop :=
  ∃ rest, p = (storage ++ rest)%list.

(** The storage root exists, as [STORAGE_DIR.mkdir(exist_ok=True)] leaves
    it when the server starts. *)
Definition storage_ready (fs : filesystem) : Prop := fs !! storage = Some Dir.

(** The value [load_metadata] returns in [fs]. *)
Definition current_metadata (fs : filesystem) : JSON :=
  match fs !! metadata_slot with
  | Some (File c _) => default empty_dict (json_loads c)
  | _ => empty_dict
  end.

(** The record [getRecord] answers for [name]: the stored one, or [{}]. *)
Definition record_of (fs : filesystem) (name : string) : JSON :=
  match current_metadata fs with
  | JObj m => default empty_dict (m !! name)
  | _ => empty_dict
  end.

(** The states of the data model: the storage root exists, and the
    metadata document is a regular file or missing, and holds a JSON
    object where it can be read at all. *)
Definition well_formed (fs : filesystem) : Prop :=
  storage_ready fs ∧ fs !! metadata_slot ≠ Some Dir
  ∧ is_dict (current_metadata fs) = true.

(** The serializer gives back, when read, the document it was given. *)
Definition codec_round_trip : Prop :=
  ∀ md : gmap string JSON, json_loads (json_dumps (JObj md)) = Some (JObj md).

(** The regular files of the storage root. *)
Definition stored_file (fs : filesystem) (name : string) : Prop :=
  ∃ c t, fs !! slot name = Some (File c t).

(** The dict [md.setdefault(name, {})] leaves. *)
Definition with_default (name : string) (m : gmap string JSON) : gmap string JSON :=
  match m !! name with
  | Some _ => m
  | None => <[name := empty_dict]> m
  end.

(** The request of a client that uploads [data] under [name]. *)
Definition upload_of (name data : string) (len : Z) : upload_request :=
  {| content_length := len;
     files := {[ "file" := {| filename := name; stream := data |} ]} |}.

(** The state after [f.save] wrote [data] under [name]. *)
Definition saved (fs : filesystem) (name data : string) (now : Z) : filesystem :=
  <[slot name := File data now]> fs.

(** No entry of a directory is called [..]. *)
Definition proper_names (fs : filesystem) : Prop :=
  ∀ p, is_Some (fs !! p) → ".." ∉ p.

(** What [list] has to say about the stored file [e] names. *)
Definition describes (fs : filesystem) (e : file_entry) : Prop :=
  ∃ c t, fs !! slot (fe_name e) = Some (File c t)
         ∧ fe_size e = Z.of_nat (String.length c)
         ∧ fe_mtime e = t
         ∧ fe_metadata e = record_of fs (fe_name e).

(** The path [iterdir] yields for the entry [n] of the storage root. *)
Definition child (n : string) : Pathlib.Path :=
  Pathlib.mkPath Pathlib.Root (["app"; "storage"] ++ [n]).

(** Whether [list] shows the entry [name] of the storage root. *)
Definition listed (fs : filesystem) (name : string) : bool :=
  match fs !! slot name with
  | Some (File _ _) => negb (String.eqb name reserved)
  | _ => false
  end.

(** The line of the listing for the stored file [name]. *)
Definition entry_for (fs : filesystem) (name : string) : file_entry :=
  {| fe_name := name;
     fe_size := match fs !! slot name with
                | Some (File c _) => Z.of_nat (String.length c)
                | _ => 0
                end;
     fe_mtime := match fs !! slot name with
                 | Some (File _ t) => t
                 | _ => 0
                 end;
     fe_download_url := "/api/files/" ++ name ++ "/download";
     fe_metadata := record_of fs name |}.

(** The order of the listing: by lower-cased name. *)
Definition name_le (a b : file_entry) : Prop :=
  Text.str_leb (str_lower (fe_name a)) (str_lower (fe_name b)) = true.

(** The store after [request] was served in [fs], and the answer sent. *)
Definition after (request : M response) (fs : filesystem) : filesystem :=
  (UmDrive.serve request fs).2.

Definition answer (request : M response) (fs : filesystem) : response :=
  (UmDrive.serve request fs).1.

(** A computation that leaves every node outside [ps] as it found it,
    whether it returns or raises. *)
Definition touches {A} (m : M A) (ps : list (list string)) : Prop :=
  ∀ fs p, p ∉ ps → (m fs).2 !! p = fs !! p.

End with_runtime.
End Store.

(** ** Two [setRecord] requests served by two threads

    The server takes no lock.  A request reads the metadata document with
    [load_metadata] and writes it back with [save_metadata]; between the two
    calls the other thread may run.  The model cuts [metadata] at that point
    and lets a schedule say whose turn it is. *)

Module Interleaving.
Import UmDrive.
Section with_runtime.
Context `{RT : Runtime}.

(** [metadata] from the line after [md = load_metadata()] on. *)
Definition metadata_after_load (filename : string) (meth : method)
    (body : option JSON) (now : Z) (md : JSON) : M response :=
  let safe_name := secure_filename filename in
  match meth with
  | GET =>
      record ← py_get md safe_name empty_dict;
      mret {| status := 200; payload := Json record |}
  | POST =>
      data ← get_json body;
      if negb (is_dict data) then
        mret {| status := 400; payload := Json (error_json "Esperado JSON object") |}
      else
        md ← py_setitem md safe_name data;
        save_metadata md now;;
        mret {| status := 200;
                payload := Json (message_json "metadata updated" safe_name) |}
  end.

(** A [setRecord(name, obj)] request, and how far its thread has come. *)
Record set_record := { sr_name : string; sr_obj : gmap string JSON; sr_now : Z }.

Inductive progress :=
  | Pending
  | Loaded (md : JSON)
  | Finished (r : response).

(** One turn of the thread that serves [req]. *)
Definition turn (req : set_record) (st : progress) (fs : filesystem)
  : progress * filesystem :=
  match st with
  | Pending =>
      match load_metadata fs with
      | (inr md, fs') => (Loaded md, fs')
      | (inl e, fs') => (Finished (on_exception e), fs')
      end
  | Loaded md =>
      let '(r, fs') :=
        serve (metadata_after_load (sr_name req) POST (Some (JObj (sr_obj req)))
                 (sr_now req) md) fs in
      (Finished r, fs')
  | Finished r => (Finished r, fs)
  end.

Inductive thread := First | Second.

Fixpoint run (schedule : list thread) (a b : set_record)
    (sa sb : progress) (fs : filesystem) : progress * progress * filesystem :=
  match schedule with
  | [] => (sa, sb, fs)
  | First :: schedule' =>
      let '(sa', fs') := turn a sa fs in run schedule' a b sa' sb fs'
  | Second :: schedule' =>
      let '(sb', fs') := turn b sb fs in run schedule' a b sa sb' fs'
  end.

(** Both requests were answered with success. *)
Definition both_succeeded (sa sb : progress) : Prop :=
  match sa, sb with
  | Finished ra, Finished rb => status ra = 200 ∧ status rb = 200
  | _, _ => False
  end.

(** The schedules in which one request runs from start to end before the
    other one starts. *)
Definition serial (schedule : list thread) : Prop :=
  schedule = [First; First; Second; Second]
  ∨ schedule = [Second; Second; First; First].

End with_runtime.
End Interleaving.

(** ** States and requests of the examples *)

Module Examples.
Import UmDrive Store.

(** A machine on which only [/app] exists, and the store the server
    leaves there when it starts at time 0. *)
Definition bare : filesystem := {[ ["app"] := Dir ]}.
Definition fs0 : filesystem := (startup 0 bare).2.

Definition tag_final : gmap string JSON := {[ "tag" := JStr "final" ]}.

(** The store after [report.pdf] (10 bytes) and [Notes.txt] were uploaded
    and the record of [report.pdf] was set. *)
Definition fs_report : filesystem :=
  after (metadata "report.pdf" POST (Some (JObj tag_final)) 3)
    (after (upload_file (upload_of "Notes.txt" "to do" 5) 2)
       (after (upload_file (upload_of "report.pdf" "0123456789" 10) 1) fs0)).

(** Two [setRecord] requests for two files. *)
Definition set_a : Interleaving.set_record :=
  {| Interleaving.sr_name := "a.txt"; Interleaving.sr_obj := tag_final;
     Interleaving.sr_now := 1 |}.
Definition set_b : Interleaving.set_record :=
  {| Interleaving.sr_name := "b.txt";
     Interleaving.sr_obj := {[ "tag" := JStr "draft" ]};
     Interleaving.sr_now := 2 |}.

End Examples.


(** ** The server of [src/umdrive/umDrive_Teste.py]

    The development variant of the server: the same handlers over the
    relative storage root [Path('storage')], with a limit of 100 MB, its
    own error messages, and the containment check with the separator in
    both [download_file] and [delete_file].  What does not mention the
    storage root ([secure_filename], the dict methods, [iterdir],
    [sorted], [request.get_json], [f.save]) is shared with the model of
    [umdrive.py].

    [root_path] is [app.root_path], the directory of the module: a
    relative [directory] handed to [send_from_directory] is taken
    relative to it, not to the working directory. *)

Module UmDriveTesteApp.
Import UmDrive.
Section with_runtime.
Context `{RT : Runtime}.
Context (root_path : string).

Definition STORAGE_DIR : Pathlib.Path := Pathlib.of_string "storage".
Definition METADATA_FILE : Pathlib.Path :=
  Pathlib.joinpath STORAGE_DIR "metadata.json".
Definition MAX_CONTENT_LENGTH : Z := 100 * 1024 * 1024.

(** [[
    def load_metadata():
        try:
            return json.loads(METADATA_FILE.read_text(encoding='utf-8'))
        except Exception:
            return {}
    ]] *)
Definition load_metadata : M JSON :=
  try_except
    (b ← FS.read (locate METADATA_FILE);
     match json_loads b with
     | Some v => mret v
     | None => raise ValueError
     end)
    (mret empty_dict).

(** [[
    def save_metadata(md):
        METADATA_FILE.write_text(json.dumps(md, indent=2), encoding='utf-8')
    ]] *)
Definition save_metadata (md : JSON) (now : Z) : M () :=
  FS.write (locate METADATA_FILE) (json_dumps md) now.

(** [[
    STORAGE_DIR.mkdir(exist_ok=True)
    if not METADATA_FILE.exists():
        METADATA_FILE.write_text(json.dumps({}, indent=2), encoding='utf-8')
    ]] *)
Definition startup (now : Z) : M () :=
  FS.mkdir (locate STORAGE_DIR);;
  found ← FS.exists_ (locate METADATA_FILE);
  if negb found then save_metadata empty_dict now else mret ().

(** [[
    def file_info(path: Path):
        st = path.stat()
        return {
            'name': path.name,
            'size': st.st_size,
            'mtime': int(st.st_mtime),
            'download_url': f'/api/files/{path.name}/download',
            'metadata': load_metadata().get(path.name, {})
        }
    ]] *)
Definition file_info (path : Pathlib.Path) : M file_entry :=
  '(st_size, st_mtime) ← FS.stat_result (locate path);
  md ← load_metadata;
  record ← py_get md (Pathlib.name path) empty_dict;
  mret {| fe_name := Pathlib.name path;
          fe_size := st_size;
          fe_mtime := st_mtime;
          fe_download_url := "/api/files/" ++ Pathlib.name path ++ "/download";
          fe_metadata := record |}.

(** [[
    @app.route("/api/files", methods=['GET'])
    def list_files():
        files = [file_info(p) for p in STORAGE_DIR.iterdir()
                 if p.is_file() and p.name != METADATA_FILE.name]
        files_sorted = sorted(files, key=lambda x: x['name'].lower())
        return jsonify(files_sorted)
    ]] *)
Definition list_files : M response :=
  ps ← iterdir STORAGE_DIR;
  kept ← filterM (λ p, b ← is_file p;
                       mret (b && negb (String.eqb (Pathlib.name p)
                                                   (Pathlib.name METADATA_FILE))))
                 ps;
  files ← forM file_info kept;
  mret {| status := 200;
          payload := Listing (sorted (λ x, str_lower (fe_name x)) files) |}.

Definition request_files (req : upload_request) : M (gmap string FileStorage) :=
  if MAX_CONTENT_LENGTH <? content_length req then raise RequestEntityTooLarge
  else mret (files req).

(** The message for a form without the field, which quotes the field's
    name: [Nenhum ficheiro enviado (campo "file" ausente)]. *)
Definition no_file_message : string :=
  "Nenhum ficheiro enviado (campo "
  ++ String JsonText.quote ("file" ++ String JsonText.quote " ausente)").

(** [[
    @app.route("/api/files", methods=['POST'])
    def upload_file():
        if 'file' not in request.files:
            return jsonify({'error': 'Nenhum ficheiro enviado (campo "file" ausente)'}), 400
        f = request.files['file']
        if f.filename == '':
            return jsonify({'error': 'Nome do ficheiro vazio'}), 400
        filename = secure_filename(f.filename)
        target = STORAGE_DIR / filename
        f.save(str(target))
        md = load_metadata()
        md.setdefault(filename, {})
        save_metadata(md)
        return jsonify({'message': 'uploaded', 'file': filename}), 201
    ]] *)
Definition upload_file (req : upload_request) (now : Z) : M response :=
  fields ← request_files req;
  match fields !! "file" with
  | None =>
      mret {| status := 400; payload := Json (error_json no_file_message) |}
  | Some f =>
      if String.eqb (filename f) "" then
        mret {| status := 400; payload := Json (error_json "Nome do ficheiro vazio") |}
      else
        let filename := secure_filename (filename f) in
        let target := Pathlib.joinpath STORAGE_DIR filename in
        save f (Pathlib.to_string target) now;;
        md ← load_metadata;
        md ← py_setdefault md filename empty_dict;
        save_metadata md now;;
        mret {| status := 201; payload := Json (message_json "uploaded" filename) |}
  end.

(** [flask.send_from_directory(directory, path, as_attachment=True)]:
    [[
    path = safe_join(directory, path)
    if path is None: raise NotFound()
    path = os.path.join(current_app.root_path, path)
    if not os.path.isfile(path): raise NotFound()
    return send_file(path, ...)
    ]] *)
Definition send_from_directory (directory name : string) : M response :=
  match WerkzeugSecurity.safe_join directory name with
  | None => raise NotFound
  | Some path =>
      let path := Posixpath.join root_path path in
      b ← FS.isfile (locate_str path);
      if (b : bool) then
        data ← FS.read (locate_str path);
        mret {| status := 200;
                payload := Attachment (Pathlib.name (Pathlib.of_string path)) data |}
      else raise NotFound
  end.

(** [[
    @app.route("/api/files/<path:filename>/download", methods=['GET'])
    def download_file(filename):
        safe_name = secure_filename(filename)
        file_path = STORAGE_DIR / safe_name
        if not file_path.exists():
            return jsonify({'error': 'Ficheiro não encontrado'}), 404
        if not is_within_directory(file_path, STORAGE_DIR):
            return jsonify({'error': 'Caminho inválido'}), 400
        return send_from_directory(str(STORAGE_DIR), safe_name, as_attachment=True)
    ]] *)
Definition download_file (filename : string) : M response :=
  let safe_name := secure_filename filename in
  let file_path := Pathlib.joinpath STORAGE_DIR safe_name in
  found ← path_exists file_path;
  if negb found then
    mret {| status := 404; payload := Json (error_json "Ficheiro não encontrado") |}
  else if negb (UmDriveTeste.is_within_directory file_path STORAGE_DIR) then
    mret {| status := 400; payload := Json (error_json "Caminho inválido") |}
  else send_from_directory (Pathlib.to_string STORAGE_DIR) safe_name.

(** [[
    @app.route("/api/files/<path:filename>", methods=['DELETE'])
    def delete_file(filename):
        safe_name = secure_filename(filename)
        file_path = STORAGE_DIR / safe_name
        if not file_path.exists():
            return jsonify({'error': 'Ficheiro não encontrado'}), 404
        if not is_within_directory(file_path, STORAGE_DIR):
            return jsonify({'error': 'Caminho inválido'}), 400
        file_path.unlink()
        md = load_metadata()
        md.pop(safe_name, None)
        save_metadata(md)
        return jsonify({'message': 'deleted', 'file': safe_name})
    ]] *)
Definition delete_file (filename : string) (now : Z) : M response :=
  let safe_name := secure_filename filename in
  let file_path := Pathlib.joinpath STORAGE_DIR safe_name in
  found ← path_exists file_path;
  if negb found then
    mret {| status := 404; payload := Json (error_json "Ficheiro não encontrado") |}
  else if negb (UmDriveTeste.is_within_directory file_path STORAGE_DIR) then
    mret {| status := 400; payload := Json (error_json "Caminho inválido") |}
  else
    FS.unlink (locate file_path);;
    md ← load_metadata;
    md ← py_pop md safe_name;
    save_metadata md now;;
    mret {| status := 200; payload := Json (message_json "deleted" safe_name) |}.

(** [[
    @app.route("/api/files/<path:filename>/metadata", methods=['GET', 'POST'])
    def metadata(filename):
        safe_name = secure_filename(filename)
        file_path = STORAGE_DIR / safe_name
        md = load_metadata()
        if request.method == 'GET':
            return jsonify(md.get(safe_name, {}))
        else:
            data = request.get_json()
            if not isinstance(data, dict):
                return jsonify({'error': 'Esperado body JSON object'}), 400
            md[safe_name] = data
            save_metadata(md)
            return jsonify({'message': 'metadata updated', 'file': safe_name})
    ]]
    ([file_path] is built and not used.) *)
Definition metadata (filename : string) (meth : method) (body : option JSON)
    (now : Z) : M response :=
  let safe_name := secure_filename filename in
  md ← load_metadata;
  match meth with
  | GET =>
      record ← py_get md safe_name empty_dict;
      mret {| status := 200; payload := Json record |}
  | POST =>
      data ← get_json body;
      if negb (is_dict data) then
        mret {| status := 400;
                payload := Json (error_json "Esperado body JSON object") |}
      else
        md ← py_setitem md safe_name data;
        save_metadata md now;;
        mret {| status := 200;
                payload := Json (message_json "metadata updated" safe_name) |}
  end.

(** [[
    @app.errorhandler(RequestEntityTooLarge)
    def handle_file_too_large(e):
        return jsonify({'error': 'Ficheiro demasiado grande'}), 413
    ]] *)
Definition handle_file_too_large : response :=
  {| status := 413; payload := Json (error_json "Ficheiro demasiado grande") |}.

Definition on_exception (e : exn) : response :=
  match e with
  | RequestEntityTooLarge => handle_file_too_large
  | BadRequest => {| status := 400; payload := ErrorPage |}
  | NotFound => {| status := 404; payload := ErrorPage |}
  | _ => {| status := 500; payload := ErrorPage |}
  end.

(** One request: the response sent and the file system left behind. *)
Definition serve (view : M response) (fs : filesystem) : response * filesystem :=
  match view fs with
  | (inr r, fs') => (r, fs')
  | (inl e, fs') => (on_exception e, fs')
  end.

End with_runtime.
End UmDriveTesteApp.

(** ** Notions for the further properties *)

Module Effects.

(** [m] leaves the file system as it found it, whether it returns or
    raises. *)
Definition reads_only {A} (m : M A) : Prop := ∀ fs, (m fs).2 = fs.

(** [m] leaves every directory in place, whether it returns or raises. *)
Definition keeps_dirs {A} (m : M A) : Prop :=
  ∀ fs p, fs !! p = Some Dir → (m fs).2 !! p = Some Dir.

End Effects.

Module Conditions.
Import Store.
Section with_runtime.
Context `{RT : Runtime}.

(** A well-formed store in which no entry is called [..]. *)
Definition consistent (fs : filesystem) : Prop :=
  well_formed fs ∧ proper_names fs.

(** A plain name that does not end with a dot or an underscore. *)
Definition tidy (l : list ascii) : Prop :=
  plain l ∧ ∀ c, last l = Some c → Werkzeug.dot_or_under c = false.

(** The longest entry name a file system takes, [NAME_MAX], and the
    longest path text, [PATH_MAX], as Linux has them. *)
Definition NAME_MAX : nat := 255.
Definition PATH_MAX : nat := 4096.

(** A name short enough to be the name of an entry.  For a longer one
    [open] fails with [ENAMETOOLONG], and so does [Path.exists] before
    Python 3.13, where the store would say that there is no such entry.
    A sanitized name is ASCII text, so its length is its number of
    bytes. *)
Definition fits (name : string) : Prop :=
  (String.length name ≤ NAME_MAX)%nat.

(** The test of the comprehension of [list_files], on the name of an
    entry of the storage root. *)
Definition shown (n : string) : M bool :=
  b ← UmDrive.is_file (child n);
  mret (b && negb (String.eqb (Pathlib.name (child n))
                              (Pathlib.name UmDrive.METADATA_FILE))).

End with_runtime.
End Conditions.

(** The schedules of two [setRecord] requests in which both threads load
    the metadata document before either of them saves it. *)

Module Schedules.
Import Interleaving.

Definition interleaved (schedule : list thread) : Prop :=
  schedule = [First; Second; First; Second]
  ∨ schedule = [First; Second; Second; First]
  ∨ schedule = [Second; First; First; Second]
  ∨ schedule = [Second; First; Second; First].

(** The thread that takes the last turn, [First] for the empty schedule. *)
Definition last_turn (schedule : list thread) : thread :=
  List.last schedule First.

End Schedules.

(** ** Notions for the development server *)

Module TesteStore.
Section with_runtime.
Context `{RT : Runtime}.

(** The components of the storage root and of its entry [name], below the
    working directory. *)
Definition teste_storage : list string := (cwd ++ ["storage"])%list.
Definition teste_slot (name : string) : list string :=
  (cwd ++ ["storage"; name])%list.

(** The node [STORAGE_DIR / name] denotes for a sanitized [name]. *)
Definition teste_target (name : string) : list string :=
  if String.eqb name "" then teste_storage else teste_slot name.

(** The path [iterdir] yields for the entry [n] of the storage root. *)
Definition teste_child (n : string) : Pathlib.Path :=
  Pathlib.mkPath Pathlib.Relative ["storage"; n].

(** The node [send_from_directory] looks for: the entry [name] of the
    directory [storage] below the application root [root]. *)
Definition served (root : list string) (name : string) : list string :=
  (root ++ ["storage"; name])%list.

(** A directory name: not empty, without separator, and neither [.] nor
    [..]. *)
Definition component (s : string) : Prop :=
  s ≠ "" ∧ s ≠ "." ∧ s ≠ ".." ∧ Store.slash_free s.

(** The text of the absolute path with the components [root]. *)
Definition path_text (root : list string) : string :=
  "/" ++ Pathlib.join_parts root.

(** The path [root/storage/name] is one the file system takes: every
    component fits, and so does the text of the whole path, with its
    final NUL byte. *)
Definition path_fits (root : list string) (name : string) : Prop :=
  Forall Conditions.fits (root ++ ["storage"; name])
  ∧ (String.length (path_text (root ++ ["storage"; name]))
     < Conditions.PATH_MAX)%nat.

(** Two outcomes that differ at most in the body of an error response. *)
Definition same_outcome (a b : response * filesystem) : Prop :=
  a.2 = b.2 ∧ status a.1 = status b.1
  ∧ (status a.1 < 400 → payload a.1 = payload b.1).

End with_runtime.
End TesteStore.

(** ** Further states of the examples *)

Module MoreExamples.
Import UmDrive Store Examples.

(** A document that nests arrays and objects. *)
Definition nested_document : JSON :=
  JArr [JObj {[ "k" := JArr [JNum (-7); JNull] ]}; JStr "a b"; JBool true].

(** The store a fresh server is left with by the upload of a file called
    [metadata.json] that holds the JSON array [[]]. *)
Definition fs_array : filesystem :=
  after (upload_file (upload_of "metadata.json" "[]" 2) 1) fs0.

(** A store whose metadata document was cut short after its first
    character. *)
Definition fs_cut : filesystem :=
  <[metadata_slot := File "{" 0]> fs0.

(** The store the development server, run in [/app], leaves after the
    upload of [a.txt]. *)
Definition fs_teste : filesystem :=
  (UmDriveTesteApp.serve
     (UmDriveTesteApp.upload_file (upload_of "a.txt" "abc" 3) 1) fs0).2.

End MoreExamples.
(** * Properties *)

(** ** Text *)

Module TextFacts.
Import Text.

Lemma chars_text l : chars (text l) = l.
Proof. apply list_ascii_of_string_of_list_ascii. Qed.

Lemma text_chars s : text (chars s) = s.
Proof. apply string_of_list_ascii_of_string. Qed.

Lemma chars_app a b : chars (a ++ b) = (chars a ++ chars b)%list.
Proof. induction a as [|c a IH]; simpl; [done|]. by rewrite <- IH. Qed.

Lemma chars_inj a b : chars a = chars b → a = b.
Proof. intros H. by rewrite <- (text_chars a), H, text_chars. Qed.

Lemma lstrip_suffix drop l : ∃ pre, l = (pre ++ lstrip drop l)%list.
Proof.
  induction l as [|c l [pre IH]]; simpl.
  - by exists [].
  - destruct (drop c).
    + exists (c :: pre). simpl. by f_equal.
    + by exists [].
Qed.

Lemma lstrip_head drop l c l' : lstrip drop l = c :: l' → drop c = false.
Proof.
  induction l as [|x l IH]; simpl; [done|].
  destruct (drop x) eqn:E; [done|]. by intros [= <- _].
Qed.

Lemma lstrip_Forall (P : ascii → Prop) drop l :
  Forall P l → Forall P (lstrip drop l).
Proof.
  destruct (lstrip_suffix drop l) as [pre E]. intros H.
  rewrite E in H. by apply Forall_app in H as [_ ?].
Qed.

Lemma strip_Forall (P : ascii → Prop) drop l :
  Forall P l → Forall P (strip drop l).
Proof.
  intros H. unfold strip.
  apply Forall_rev, lstrip_Forall, Forall_rev, lstrip_Forall, H.
Qed.

(** What [strip] returns neither starts nor ends with a dropped character. *)
Lemma strip_head drop l c l' : strip drop l = c :: l' → drop c = false.
Proof.
  unfold strip. intros H.
  destruct (lstrip_suffix drop (rev (lstrip drop l))) as [pre E].
  set (m := lstrip drop (rev (lstrip drop l))) in *.
  assert (Hm : m = rev (c :: l')) by (by rewrite <- H, rev_involutive).
  simpl in Hm. rewrite Hm in E.
  apply (f_equal (@rev ascii)) in E.
  rewrite rev_involutive, !rev_app_distr, rev_involutive in E. simpl in E.
  by apply lstrip_head in E.
Qed.

Lemma split_on_none sep cur l :
  Forall (λ c, Ascii.eqb c sep = false) l →
  split_on sep cur l = [(rev cur ++ l)%list].
Proof.
  revert cur. induction l as [|c l IH]; intros cur H; simpl.
  - by rewrite app_nil_r.
  - apply Forall_cons in H as [Hc Hl]. rewrite Hc, IH by done.
    simpl. by rewrite <- app_assoc.
Qed.

Lemma startswith_app s t : startswith (s ++ t)%list s = true.
Proof.
  induction s as [|c s IH]; simpl; [done|].
  by rewrite Ascii.eqb_refl, IH.
Qed.

Lemma startswith_spec s p : startswith s p = true ↔ ∃ t, s = (p ++ t)%list.
Proof.
  revert s. induction p as [|c p IH]; intros s; simpl.
  - split; [by exists s|done].
  - destruct s as [|x s].
    + split; [done|]. by intros [t ?].
    + rewrite andb_true_iff, Ascii.eqb_eq, IH. split.
      * intros [-> [t ->]]. by exists t.
      * intros [t [= -> ->]]. eauto.
Qed.

(** [leb] is a total preorder. *)
Lemma leb_total a b : leb a b = false → leb b a = true.
Proof.
  revert b. induction a as [|x a IH]; intros [|y b]; simpl; try done.
  destruct (N.ltb_spec (code x) (code y)), (N.ltb_spec (code y) (code x));
    try done; try lia. apply IH.
Qed.

Lemma leb_trans a b c : leb a b = true → leb b c = true → leb a c = true.
Proof.
  revert b c. induction a as [|x a IH]; intros [|y b] [|z c]; simpl; try done.
  destruct (N.ltb_spec (code x) (code y)), (N.ltb_spec (code y) (code x)),
    (N.ltb_spec (code y) (code z)), (N.ltb_spec (code z) (code y)),
    (N.ltb_spec (code x) (code z)), (N.ltb_spec (code z) (code x));
    try done; try lia. apply IH.
Qed.

End TextFacts.

(** ** [secure_filename] returns one plain path segment *)

Module WerkzeugFacts.
Import Text TextFacts Werkzeug Store.

Lemma secure_chars_plain l : plain (secure_chars l).
Proof.
  unfold secure_chars. split.
  - apply strip_Forall, Forall_forall.
    intros c Hc. by apply list_elem_of_filter in Hc as [? _].
  - destruct (strip _ _) as [|c r] eqn:E; [done|]. by apply strip_head in E.
Qed.

Lemma secure_filename_plain norm raw : plain (chars (secure_filename norm raw)).
Proof. unfold secure_filename. rewrite chars_text. apply secure_chars_plain. Qed.

Lemma keep_not_slash c : keep c = true → Ascii.eqb c "/"%char = false.
Proof.
  intros H. destruct (Ascii.eqb_spec c "/"%char) as [->|]; [|done].
  by vm_compute in H.
Qed.

Lemma plain_no_slash l : plain l → Forall (λ c, Ascii.eqb c "/"%char = false) l.
Proof. intros [H _]. eapply Forall_impl; [exact H|]. apply keep_not_slash. Qed.

Lemma plain_not_dots s : plain (chars s) → s ≠ "." ∧ s ≠ "..".
Proof. intros [_ H]. split; intros ->; simpl in H; by vm_compute in H. Qed.

End WerkzeugFacts.

(** ** Paths built from a sanitized name *)

Module PathFacts.
Import Text TextFacts Werkzeug WerkzeugFacts Pathlib Store.

Lemma plain_head_not_slash s :
  plain (chars s) → parse_anchor (chars s) = Relative.
Proof.
  intros [Hk _]. destruct (chars s) as [|c l]; [done|].
  apply Forall_cons in Hk as [Hc _]. apply keep_not_slash in Hc.
  simpl. destruct (Ascii.eqb_spec c "/"%char) as [->|Hne]; [done|].
  destruct c as [[] [] [] [] [] [] [] []]; try done.
Qed.

Lemma parse_parts_plain s :
  plain (chars s) → s ≠ "" → parse_parts (chars s) = [s].
Proof.
  intros Hp Hne. unfold parse_parts.
  rewrite split_on_none by by apply plain_no_slash.
  simpl. rewrite text_chars.
  destruct (plain_not_dots s Hp) as [Hd _].
  rewrite filter_cons_True; [done|].
  unfold is_component.
  apply String.eqb_neq in Hne, Hd. by rewrite Hne, Hd.
Qed.

Lemma of_string_plain s :
  plain (chars s) → s ≠ "" → of_string s = mkPath Relative [s].
Proof.
  intros Hp Hne. unfold of_string.
  by rewrite plain_head_not_slash, parse_parts_plain.
Qed.

Lemma joinpath_plain p s :
  plain (chars s) → s ≠ "" →
  joinpath p s = mkPath (root p) (parts p ++ [s]).
Proof. intros Hp Hne. unfold joinpath. by rewrite of_string_plain. Qed.

(** Reading back the text of the path of an entry. *)
Lemma of_string_slot s :
  plain (chars s) → s ≠ "" →
  of_string ("/app/storage/" ++ s) = mkPath Root (slot s).
Proof.
  intros Hp Hne. unfold of_string. f_equal.
  unfold parse_parts. rewrite chars_app.
  change (chars "/app/storage/") with
    ("/"%char :: chars "app" ++ "/"%char :: chars "storage" ++ ["/"%char])%list.
  cbn [split_on app chars list_ascii_of_string Ascii.eqb Bool.eqb rev].
  rewrite split_on_none by by apply plain_no_slash.
  cbn [map rev app]. rewrite text_chars.
  destruct (plain_not_dots s Hp) as [Hd _].
  apply String.eqb_neq in Hne, Hd.
  rewrite !filter_cons, !filter_nil. unfold is_component.
  rewrite Hne, Hd. done.
Qed.

Lemma walk_slot s : s ≠ ".." → walk [] (slot s) = slot s.
Proof. intros H%String.eqb_neq. unfold slot. simpl. by rewrite H. Qed.

End PathFacts.

(** ** The reference codec reads back what it writes *)

Module JsonFacts.
Import Text TextFacts JsonText.
Local Open Scope list_scope.

(** *** Induction on values *)

Lemma json_size_elem v l : v ∈ l → (json_size v < json_size (JArr l))%nat.
Proof.
  intros Hin. simpl. apply Nat.lt_succ_r.
  induction Hin as [v l|v w l _ IH]; simpl; lia.
Qed.

Lemma json_size_lookup (m : gmap string JSON) k v :
  m !! k = Some v → (json_size v < json_size (JObj m))%nat.
Proof.
  intros Hk. simpl. apply Nat.lt_succ_r.
  rewrite map_fold_foldr, map_to_list_fmap.
  apply elem_of_map_to_list in Hk.
  induction (map_to_list m) as [|[k' w] l IH]; [by apply elem_of_nil in Hk|].
  apply elem_of_cons in Hk as [[= <- <-]|Hk]; csimpl; [lia|].
  specialize (IH Hk). lia.
Qed.

Lemma JSON_nested_ind (P : JSON → Prop) :
  P JNull → (∀ b, P (JBool b)) → (∀ n, P (JNum n)) → (∀ s, P (JStr s)) →
  (∀ l, Forall P l → P (JArr l)) →
  (∀ m : gmap string JSON, map_Forall (λ _, P) m → P (JObj m)) →
  ∀ v, P v.
Proof.
  intros Hnull Hbool Hnum Hstr Harr Hobj v.
  remember (json_size v) as n eqn:Hn. revert v Hn.
  induction n as [n IH] using lt_wf_ind. intros v ->.
  destruct v as [| | | |l|m]; auto.
  - apply Harr, Forall_forall. intros w Hw.
    eapply IH; [|done]. by apply json_size_elem.
  - apply Hobj. intros k w Hk.
    eapply IH; [|done]. by eapply json_size_lookup.
Qed.

(** *** Tokens *)

Lemma length_text l : String.length (text l) = length l.
Proof. induction l as [|c l IH]; simpl; [done|]. by rewrite IH. Qed.

Lemma string_body_escape c tl :
  string_body (escape_char c ++ tl)
  = match string_body tl with
    | Some (cs, r) => Some (c :: cs, r)
    | None => None
    end.
Proof. destruct c as [[] [] [] [] [] [] [] []]; reflexivity. Qed.

Lemma string_body_dump cs rest :
  string_body (flat_map escape_char cs ++ quote :: rest) = Some (cs, rest).
Proof.
  induction cs as [|c cs IH]; [done|].
  simpl. rewrite <- app_assoc, string_body_escape. by rewrite IH.
Qed.

Lemma dump_string_read s rest :
  ∃ tl, dump_string s ++ rest = DQUOTE :: tl
        ∧ string_body tl = Some (chars s, rest).
Proof.
  exists (flat_map escape_char (chars s) ++ quote :: rest). split.
  - unfold dump_string. simpl. by rewrite <- app_assoc.
  - apply string_body_dump.
Qed.

Lemma read_digits_digits u rest :
  ends_number rest → read_digits (digits u ++ rest) = (u, rest).
Proof.
  intros Hr. induction u; simpl; rewrite ?IHu; try done.
  destruct rest as [|c r]; [done|]. simpl. by destruct Hr as [-> _].
Qed.

Lemma uint_beq_refl u : Decimal.uint_beq u u = true.
Proof. induction u; simpl; auto. Qed.

Lemma to_uint_normal n : Decimal.unorm (N.to_uint n) = N.to_uint n.
Proof. by rewrite <- (Unsigned.to_of (N.to_uint n)), Unsigned.of_to. Qed.

Lemma read_int_digits neg n rest :
  ends_number rest →
  read_int neg (digits (N.to_uint n) ++ rest)
  = Some (JNum (if neg then - Z.of_N n else Z.of_N n), rest).
Proof.
  intros Hr. unfold read_int. rewrite read_digits_digits by done.
  rewrite to_uint_normal, uint_beq_refl, Unsigned.of_to. simpl.
  assert (starts_fraction rest = false) as ->.
  { destruct rest; [done|]. by destruct Hr. }
  pose proof (unorm_nonnil (N.to_uint n)) as Hnil.
  rewrite to_uint_normal in Hnil. by destruct (N.to_uint n).
Qed.

Lemma skip_ws_spaces k s : skip_ws (repeat " "%char k ++ s) = skip_ws s.
Proof. induction k as [|k IH]; [done|]. exact IH. Qed.

Lemma skip_ws_newline lvl s : skip_ws (newline lvl ++ s) = skip_ws s.
Proof. unfold newline. exact (skip_ws_spaces _ s). Qed.

Lemma skip_ws_stop c s : is_ws c = false → skip_ws (c :: s) = c :: s.
Proof. intros H. simpl. by rewrite H. Qed.

Lemma parse_value_ws fuel s s' :
  skip_ws s = skip_ws s' → parse_value fuel s = parse_value fuel s'.
Proof. intros H. destruct fuel; simpl; [done|]. by rewrite H. Qed.

Lemma parse_members_ws fuel acc s s' :
  skip_ws s = skip_ws s' → parse_members fuel acc s = parse_members fuel acc s'.
Proof. intros H. destruct fuel; simpl; [done|]. by rewrite H. Qed.

(** *** Values *)

Lemma digits_head u rest :
  u ≠ Decimal.Nil →
  ∃ c tl, digits u ++ rest = c :: tl ∧ is_digit c = true.
Proof. destruct u; [done|..]; intros _; simpl; eauto. Qed.

Lemma parse_value_digits fuel u rest :
  u ≠ Decimal.Nil →
  parse_value (S fuel) (digits u ++ rest) = read_int false (digits u ++ rest).
Proof. destruct u; [done|..]; reflexivity. Qed.

Lemma to_uint_nonnil n : N.to_uint n ≠ Decimal.Nil.
Proof. rewrite <- to_uint_normal. apply unorm_nonnil. Qed.

Lemma reads_num n : reads (JNum n).
Proof.
  intros lvl rest fuel Hf Hr. simpl in *. unfold dump_int in *.
  destruct fuel as [|fuel].
  { destruct (n <? 0); [simpl in Hf; lia|].
    destruct (digits_head (N.to_uint (Z.abs_N n)) [] (to_uint_nonnil _))
      as (c & tl & E & _).
    rewrite app_nil_r in E. rewrite E in Hf. simpl in Hf. lia. }
  destruct (Z.ltb_spec n 0).
  - change (parse_value (S fuel) (("-"%char :: digits (N.to_uint (Z.abs_N n))) ++ rest))
      with (read_int true (digits (N.to_uint (Z.abs_N n)) ++ rest)).
    rewrite read_int_digits by done. rewrite N2Z.inj_abs_N. do 3 f_equal. lia.
  - rewrite parse_value_digits by apply to_uint_nonnil.
    rewrite read_int_digits by done. rewrite N2Z.inj_abs_N. do 3 f_equal. lia.
Qed.

Lemma dump_head lvl v rest :
  ∃ c tl, dump lvl v ++ rest = c :: tl ∧ is_ws c = false ∧ c ≠ "]"%char.
Proof.
  destruct v as [|[]|n|s|l|m]; simpl; try by eauto.
  - unfold dump_int. destruct (n <? 0); [simpl; by eauto|].
    destruct (digits_head (N.to_uint (Z.abs_N n)) rest (to_uint_nonnil _))
      as (c & tl & -> & Hc).
    exists c, tl. split; [done|].
    destruct c as [[] [] [] [] [] [] [] []]; try done.
  - unfold dump_block. destruct (map _ l); simpl; by eauto.
  - unfold dump_block. destruct (map _ _); simpl; by eauto.
Qed.

Lemma ends_number_separator lvl s : ends_number (separator lvl ++ s).
Proof. done. Qed.

Lemma join_cons2 sep (a b : list ascii) l :
  join sep (a :: b :: l) = a ++ sep ++ join sep (b :: l).
Proof. done. Qed.

Lemma elements_read lvl rest l :
  Forall reads l → l ≠ [] →
  ∀ acc fuel,
    (length (join (separator lvl) (map (dump (S lvl)) l)) < fuel)%nat →
    parse_elements fuel acc
      (newline (S lvl) ++ join (separator lvl) (map (dump (S lvl)) l)
         ++ newline lvl ++ "]"%char :: rest)
    = Some (JArr (rev acc ++ l), rest).
Proof.
  induction 1 as [|v l Hv Hl IH]; [done|]. intros _ acc fuel Hf.
  destruct fuel as [|fuel]; [lia|].
  cbn [parse_elements].
  rewrite (parse_value_ws _ _ _ (skip_ws_newline _ _)).
  destruct l as [|w l].
  - cbn [map join] in *. rewrite Hv by (done || lia).
    by rewrite skip_ws_newline, skip_ws_stop.
  - cbn [map] in *. rewrite join_cons2 in *. rewrite <- !app_assoc.
    rewrite !length_app in Hf. unfold separator at 1 in Hf. cbn [length] in Hf.
    rewrite Hv by (apply ends_number_separator || lia).
    unfold separator at 1. cbn [app]. rewrite skip_ws_stop by done.
    rewrite IH by (done || lia).
    simpl. by rewrite <- app_assoc.
Qed.

Lemma members_read lvl rest l :
  Forall (λ kv, reads kv.2) l → l ≠ [] →
  ∀ acc fuel,
    (length (join (separator lvl) (map (member lvl) l)) < fuel)%nat →
    parse_members fuel acc
      (newline (S lvl) ++ join (separator lvl) (map (member lvl) l)
         ++ newline lvl ++ "}"%char :: rest)
    = Some (JObj (list_to_map (rev l ++ acc)), rest).
Proof.
  induction 1 as [|[k v] l Hv Hl IH]; [done|]. intros _ acc fuel Hf.
  destruct fuel as [|fuel]; [lia|].
  rewrite (parse_members_ws _ _ _ _ (skip_ws_newline _ _)).
  assert (Hitem : ∀ tail,
    parse_members (S fuel) acc (member lvl (k, v) ++ tail)
    = match parse_value fuel (dump (S lvl) v ++ tail) with
      | Some (v', r3) =>
          match skip_ws r3 with
          | ","%char :: r4 => parse_members fuel ((k, v') :: acc) r4
          | "}"%char :: r4 => Some (JObj (list_to_map ((k, v') :: acc)), r4)
          | _ => None
          end
      | None => None
      end).
  { intros tail. unfold member, dump_item. cbn [fst snd].
    rewrite <- !app_assoc.
    destruct (dump_string_read k (chars ": " ++ dump (S lvl) v ++ tail))
      as (tl & -> & Hb).
    cbn [parse_members]. rewrite skip_ws_stop by done.
    rewrite Hb. simpl skip_ws. rewrite text_chars.
    rewrite (parse_value_ws fuel (" "%char :: dump (S lvl) v ++ tail)
               (dump (S lvl) v ++ tail)) by done.
    done. }
  simpl in Hv.
  destruct l as [|kw l].
  - cbn [map join] in *. rewrite Hitem.
    assert (length (dump (S lvl) v) ≤ fuel)%nat.
    { unfold member, dump_item in Hf. cbn [fst snd] in Hf.
      rewrite !length_app in Hf. lia. }
    rewrite Hv by done.
    by rewrite skip_ws_newline, skip_ws_stop.
  - cbn [map] in *. rewrite join_cons2 in *. rewrite <- !app_assoc.
    rewrite Hitem.
    rewrite !length_app in Hf. unfold separator at 1 in Hf. cbn [length] in Hf.
    assert (length (dump (S lvl) v) ≤ fuel)%nat.
    { unfold member at 1, dump_item in Hf. cbn [fst snd] in Hf.
      rewrite !length_app in Hf. lia. }
    rewrite Hv by (done || apply ends_number_separator).
    unfold separator at 1. cbn [app]. rewrite skip_ws_stop by done.
    rewrite IH by (done || lia).
    simpl. by rewrite <- !app_assoc.
Qed.

Lemma dump_block_cons lvl o c i items :
  dump_block lvl o c (i :: items)
  = o :: newline (S lvl) ++ join (separator lvl) (i :: items) ++ newline lvl ++ [c].
Proof. done. Qed.

Lemma join_head sep (a : list ascii) items t :
  ∃ t', join sep (a :: items) ++ t = a ++ t'.
Proof.
  destruct items as [|b items].
  - by exists t.
  - exists (sep ++ join sep (b :: items) ++ t). rewrite join_cons2.
    by rewrite <- !app_assoc.
Qed.

(** After the opening bracket comes the first item, not the closing one. *)
Lemma block_open (closing : ascii) lvl v items t :
  ∃ c tl, skip_ws (newline (S lvl) ++ join (separator lvl) (dump (S lvl) v :: items) ++ t)
          = c :: tl ∧ c ≠ "]"%char.
Proof.
  rewrite skip_ws_newline.
  destruct (join_head (separator lvl) (dump (S lvl) v) items t) as [t' ->].
  destruct (dump_head (S lvl) v t') as (c & tl & -> & Hws & Hc).
  exists c, tl. by rewrite skip_ws_stop.
Qed.

Lemma reads_arr l : Forall reads l → reads (JArr l).
Proof.
  intros Hl lvl rest fuel Hf _. cbn [dump] in *.
  destruct l as [|v l].
  - destruct fuel as [|fuel]; [simpl in Hf; lia|]. done.
  - cbn [map] in *. rewrite dump_block_cons in *.
    change (dump (S lvl) v :: map (dump (S lvl)) l)
      with (map (dump (S lvl)) (v :: l)) in *.
    destruct fuel as [|fuel]; [simpl in Hf; lia|].
    cbn [length] in Hf. rewrite !length_app in Hf.
    cbn [app parse_value]. rewrite skip_ws_stop by done.
    rewrite <- !app_assoc.
    destruct (block_open "]"%char lvl v (map (dump (S lvl)) l)
                (newline lvl ++ "]"%char :: rest)) as (c & tl & Hopen & Hc).
    cbn [map]. change (["]"%char] ++ rest) with ("]"%char :: rest). rewrite Hopen.
    assert (parse_elements fuel []
              (newline (S lvl) ++ join (separator lvl) (map (dump (S lvl)) (v :: l))
                 ++ newline lvl ++ "]"%char :: rest) = Some (JArr (v :: l), rest)) as Hel.
    { rewrite (elements_read lvl rest (v :: l) Hl ltac:(done) [] fuel); [done|].
      unfold newline in Hf. cbn [length] in Hf. lia. }
    cbn [map] in Hel. rewrite Hel.
    destruct c as [[] [] [] [] [] [] [] []]; done.
Qed.

Lemma items_of_map lvl (m : gmap string JSON) :
  map dump_item (map_to_list (dump (S lvl) <$> m))
  = map (member lvl) (map_to_list m).
Proof.
  rewrite map_to_list_fmap. unfold member.
  induction (map_to_list m) as [|[k v] l IH]; [done|].
  csimpl. by rewrite IH.
Qed.

Lemma list_to_map_rev (m : gmap string JSON) :
  list_to_map (rev (map_to_list m) ++ []) = m.
Proof.
  rewrite app_nil_r. rewrite <- (list_to_map_to_list m) at 2.
  symmetry. apply list_to_map_proper.
  - apply NoDup_fst_map_to_list.
  - apply Permutation_rev.
Qed.

Lemma reads_obj (m : gmap string JSON) : map_Forall (λ _, reads) m → reads (JObj m).
Proof.
  intros Hm lvl rest fuel Hf _. cbn [dump] in *. rewrite items_of_map in *.
  assert (Hl : Forall (λ kv, reads kv.2) (map_to_list m)).
  { apply Forall_forall. intros [k v] Hin. apply elem_of_map_to_list in Hin.
    by eapply Hm. }
  destruct (map_to_list m) as [|[k v] l] eqn:E.
  - apply map_to_list_empty_iff in E as ->.
    destruct fuel as [|fuel]; [simpl in Hf; lia|]. done.
  - cbn [map] in *. rewrite dump_block_cons in *.
    change (member lvl (k, v) :: map (member lvl) l)
      with (map (member lvl) ((k, v) :: l)) in *.
    destruct fuel as [|fuel]; [simpl in Hf; lia|].
    cbn [length] in Hf. rewrite !length_app in Hf.
    cbn [app parse_value]. rewrite skip_ws_stop by done.
    rewrite <- !app_assoc. change (["}"%char] ++ rest) with ("}"%char :: rest).
    assert (Hopen : ∃ tl, skip_ws (newline (S lvl)
               ++ join (separator lvl) (map (member lvl) ((k, v) :: l))
               ++ newline lvl ++ "}"%char :: rest) = DQUOTE :: tl).
    { rewrite skip_ws_newline. cbn [map].
      destruct (join_head (separator lvl) (member lvl (k, v))
                  (map (member lvl) l) (newline lvl ++ "}"%char :: rest)) as [t' ->].
      unfold member, dump_item. cbn [fst snd]. rewrite <- app_assoc.
      destruct (dump_string_read k (chars ": " ++ dump (S lvl) v ++ t'))
        as (tl & Hq & _).
      rewrite <- app_assoc, Hq. eauto. }
    destruct Hopen as [tl ->].
    rewrite (members_read lvl rest ((k, v) :: l) Hl ltac:(done) [] fuel).
    + by rewrite <- E, list_to_map_rev.
    + unfold newline in Hf. cbn [length] in Hf. lia.
Qed.

Theorem reads_all v : reads v.
Proof.
  induction v using JSON_nested_ind.
  - intros lvl rest [|fuel] Hf _; [simpl in Hf; lia|done].
  - intros lvl rest [|fuel] Hf _; destruct b; simpl in Hf; try lia; done.
  - apply reads_num.
  - intros lvl rest [|fuel] Hf _; [simpl in Hf; lia|].
    cbn [dump]. destruct (dump_string_read s rest) as (tl & -> & Hb).
    cbn [parse_value]. rewrite skip_ws_stop by done.
    by rewrite Hb, text_chars.
  - by apply reads_arr.
  - by apply reads_obj.
Qed.

(** [json.loads(json.dumps(v, indent=2)) == v] *)
Theorem loads_dumps v : loads (dumps v) = Some v.
Proof.
  unfold loads, dumps. rewrite chars_text, length_text.
  rewrite <- (app_nil_r (dump 0 v)) at 2.
  by rewrite reads_all.
Qed.

End JsonFacts.

(** ** The primitives of the server *)

Module ServiceFacts.
Import Text TextFacts Werkzeug WerkzeugFacts Pathlib PathFacts Store UmDrive.
Section with_runtime.
Context `{RT : Runtime}.

Lemma locate_storage : locate STORAGE_DIR = storage.
Proof. reflexivity. Qed.

Lemma locate_metadata : locate METADATA_FILE = metadata_slot.
Proof. reflexivity. Qed.

Lemma load_metadata_run fs : load_metadata fs = (inr (current_metadata fs), fs).
Proof.
  unfold load_metadata, try_except, mbind, M_bind, FS.read.
  rewrite locate_metadata. unfold current_metadata. simpl.
  destruct (fs !! metadata_slot) as [[c t|]|]; try done.
  by destruct (json_loads c).
Qed.

Lemma save_metadata_run fs md now :
  storage_ready fs → fs !! metadata_slot ≠ Some Dir →
  save_metadata md now fs
  = (inr (), <[metadata_slot := File (json_dumps md) now]> fs).
Proof.
  intros Hs Hm. unfold save_metadata, FS.write. rewrite locate_metadata.
  simpl. change (fs !! ["app"; "storage"]) with (fs !! storage). rewrite Hs.
  by destruct (fs !! metadata_slot) as [[]|].
Qed.

Lemma current_metadata_saved fs md now :
  json_loads (json_dumps md) = Some md →
  current_metadata (<[metadata_slot := File (json_dumps md) now]> fs) = md.
Proof.
  intros H. unfold current_metadata. by rewrite lookup_insert_eq, H.
Qed.

Lemma current_metadata_frame fs p n :
  p ≠ metadata_slot →
  current_metadata (<[p := n]> fs) = current_metadata fs.
Proof. intros H. unfold current_metadata. by rewrite lookup_insert_ne. Qed.

Lemma current_metadata_delete fs p :
  p ≠ metadata_slot →
  current_metadata (delete p fs) = current_metadata fs.
Proof. intros H. unfold current_metadata. by rewrite lookup_delete_ne. Qed.

Lemma well_formed_saved fs (m : gmap string JSON) now :
  codec_round_trip → storage_ready fs →
  well_formed (<[metadata_slot := File (json_dumps (JObj m)) now]> fs).
Proof.
  intros Hc Hs. split; [|split].
  - unfold storage_ready. by rewrite lookup_insert_ne.
  - by rewrite lookup_insert_eq.
  - by rewrite current_metadata_saved.
Qed.

(** *** Running a sequence *)

Lemma bind_ret_l {A B} (a : A) (k : A → M B) : mret a ≫= k = k a.
Proof. reflexivity. Qed.

Lemma bind_raise_l {A B} e (k : A → M B) : raise e ≫= k = raise e.
Proof. reflexivity. Qed.

Lemma bind_run {A B} (m : M A) (k : A → M B) fs a fs1 :
  m fs = (inr a, fs1) → (m ≫= k) fs = k a fs1.
Proof. intros H. unfold mbind, M_bind. by rewrite H. Qed.

(** *** Which nodes a computation can change *)

Lemma touches_ret {A} (a : A) ps : touches (mret a) ps.
Proof. by intros fs p _. Qed.

Lemma touches_raise {A} e ps : touches (raise (A := A) e) ps.
Proof. by intros fs p _. Qed.

Lemma touches_bind {A B} (m : M A) (k : A → M B) ps :
  touches m ps → (∀ a, touches (k a) ps) → touches (m ≫= k) ps.
Proof.
  intros Hm Hk fs p Hp. unfold mbind, M_bind.
  specialize (Hm fs p Hp). destruct (m fs) as [[e|a] fs1]; simpl in *; [done|].
  by rewrite Hk.
Qed.

Lemma touches_write p data now ps : p ∈ ps → touches (FS.write p data now) ps.
Proof.
  intros Hin fs q Hq. unfold FS.write.
  destruct (FS.stat fs p) as [[]|]; try done;
    destruct (FS.stat fs (FS.parent p)) as [[]|]; try done;
    simpl; apply lookup_insert_ne; by intros ->.
Qed.

Lemma touches_unlink p ps : p ∈ ps → touches (FS.unlink p) ps.
Proof.
  intros Hin fs q Hq. unfold FS.unlink.
  destruct (FS.stat fs p) as [[]|]; try done.
  simpl; apply lookup_delete_ne; by intros ->.
Qed.

Lemma touches_load_metadata ps : touches load_metadata ps.
Proof. intros fs p _. by rewrite load_metadata_run. Qed.

Lemma touches_save_metadata md now ps :
  metadata_slot ∈ ps → touches (save_metadata md now) ps.
Proof. intros. unfold save_metadata. rewrite locate_metadata. by apply touches_write. Qed.

Lemma touches_py_setdefault md k d ps : touches (py_setdefault md k d) ps.
Proof.
  destruct md as [| | | | |m]; try apply touches_raise.
  simpl. destruct (m !! k); apply touches_ret.
Qed.

Lemma touches_py_pop md k ps : touches (py_pop md k) ps.
Proof. destruct md; try apply touches_raise. apply touches_ret. Qed.

Lemma touches_serve (view : M response) ps fs p :
  touches view ps → p ∉ ps → (serve view fs).2 !! p = fs !! p.
Proof.
  intros H Hp. unfold serve. specialize (H fs p Hp).
  by destruct (view fs) as [[e|r] fs1].
Qed.

(** *** Where a sanitized name leads *)

Lemma target_inside name : inside_storage (target name).
Proof.
  unfold target. destruct (String.eqb name "").
  - by exists [].
  - by exists [name].
Qed.

Lemma locate_joinpath name :
  plain (chars name) →
  locate (joinpath STORAGE_DIR name) = target name.
Proof.
  intros Hp. unfold target. destruct (String.eqb_spec name "") as [->|Hne].
  - reflexivity.
  - rewrite joinpath_plain by done. unfold locate, resolve. simpl.
    destruct (plain_not_dots name Hp) as [_ Hd].
    apply String.eqb_neq in Hd. by rewrite Hd.
Qed.

Lemma to_string_joinpath name :
  plain (chars name) → name ≠ "" →
  to_string (joinpath STORAGE_DIR name) = "/app/storage/" ++ name.
Proof. intros Hp Hne. by rewrite joinpath_plain. Qed.

(** The text handed to [f.save] names the same node. *)
Lemma locate_str_joinpath name :
  plain (chars name) →
  locate_str (to_string (joinpath STORAGE_DIR name)) = target name.
Proof.
  intros Hp. unfold target. destruct (String.eqb_spec name "") as [->|Hne].
  - reflexivity.
  - rewrite to_string_joinpath by done. unfold locate_str.
    rewrite of_string_slot by done. unfold locate, resolve. simpl.
    destruct (plain_not_dots name Hp) as [_ Hd].
    apply String.eqb_neq in Hd. by rewrite Hd.
Qed.

Lemma is_within_directory_joinpath name :
  plain (chars name) →
  is_within_directory (joinpath STORAGE_DIR name) STORAGE_DIR = true.
Proof.
  intros Hp. unfold is_within_directory, resolved_str.
  fold (locate (joinpath STORAGE_DIR name)). rewrite locate_joinpath by done.
  change (resolve cwd STORAGE_DIR) with storage.
  unfold target. destruct (String.eqb name ""); [done|].
  change ("/" ++ join_parts (slot name)) with ("/app/storage" ++ ("/" ++ name)).
  rewrite chars_app. apply startswith_app.
Qed.

(** *** [upload_file] *)

Lemma sanitized_plain raw : plain (chars (secure_filename raw)).
Proof. apply secure_filename_plain. Qed.

Lemma plain_head s : plain (chars s) → s ≠ "" →
  ∃ c l, chars s = c :: l ∧ Ascii.eqb c "/"%char = false ∧ Ascii.eqb c "."%char = false.
Proof.
  intros [Hk Hd] Hne. destruct (chars s) as [|c l] eqn:E.
  - destruct Hne. apply chars_inj. by rewrite E.
  - exists c, l. split; [done|]. apply Forall_cons in Hk as [Hc _].
    split; [by apply keep_not_slash|].
    unfold dot_or_under in Hd. by apply orb_false_iff in Hd as [? _].
Qed.

Lemma normpath_plain s : plain (chars s) → s ≠ "" → Posixpath.normpath s = s.
Proof.
  intros Hp Hne. unfold Posixpath.normpath.
  destruct (plain_not_dots s Hp) as [Hd Hdd].
  pose proof Hne as Hne'. apply String.eqb_neq in Hne', Hd, Hdd. rewrite Hne'.
  rewrite plain_head_not_slash by done.
  rewrite split_on_none by by apply plain_no_slash.
  simpl. rewrite text_chars, Hne', Hd, Hdd. simpl.
  change (String.append "" s) with s. by rewrite Hne'.
Qed.

Lemma safe_join_plain s : plain (chars s) → s ≠ "" →
  WerkzeugSecurity.safe_join "/app/storage" s = Some ("/app/storage/" ++ s).
Proof.
  intros Hp Hne. unfold WerkzeugSecurity.safe_join.
  destruct (plain_not_dots s Hp) as [Hd Hdd].
  pose proof Hne as Hne'. apply String.eqb_neq in Hne', Hd, Hdd.
  rewrite Hne', normpath_plain by done.
  destruct (plain_head s Hp Hne) as (c & l & E & Hs & Hdot).
  unfold Posixpath.isabs. rewrite E. simpl. rewrite Hs, Hdd, Hdot. simpl.
  unfold Posixpath.join, Posixpath.isabs. rewrite E. simpl. by rewrite Hs.
Qed.

Lemma send_from_directory_run fs s :
  plain (chars s) → s ≠ "" →
  send_from_directory "/app/storage" s fs
  = match fs !! slot s with
    | Some (File c _) => (inr {| status := 200; payload := Attachment s c |}, fs)
    | _ => (inl NotFound, fs)
    end.
Proof.
  intros Hp Hne. unfold send_from_directory. rewrite safe_join_plain by done.
  unfold locate_str. rewrite of_string_slot by done.
  unfold locate, resolve. cbn [root parts]. rewrite walk_slot by by apply plain_not_dots.
  unfold mbind, M_bind, FS.isfile, FS.read. simpl.
  destruct (fs !! slot s) as [[c t|]|] eqn:E; try done.
  unfold name. simpl.
  change (fs !! ["app"; "storage"; s]) with (fs !! slot s).  rewrite E. done.
Qed.

(** An upload changes at most the node its sanitized name leads to and
    the metadata document. *)
Lemma upload_file_touches req now :
  touches (upload_file req now)
          (match files req !! "file" with
           | Some f => [target (secure_filename (filename f)); metadata_slot]
           | None => []
           end).
Proof.
  unfold upload_file, request_files.
  destruct (MAX_CONTENT_LENGTH <? content_length req).
  { rewrite bind_raise_l. apply touches_raise. }
  rewrite bind_ret_l.
  destruct (files req !! "file") as [f|]; [|apply touches_ret].
  destruct (String.eqb (filename f) ""); [apply touches_ret|].
  apply touches_bind.
  { unfold save. rewrite locate_str_joinpath by apply sanitized_plain.
    apply touches_write. set_solver. }
  intros _. apply touches_bind; [apply touches_load_metadata|]. intros md.
  apply touches_bind; [apply touches_py_setdefault|]. intros md'.
  apply touches_bind; [apply touches_save_metadata; set_solver|]. intros _.
  apply touches_ret.
Qed.

(** *** [metadata] *)

Lemma metadata_get_run fs raw body now m :
  current_metadata fs = JObj m →
  serve (metadata raw GET body now) fs
  = ({| status := 200;
        payload := Json (default empty_dict (m !! secure_filename raw)) |}, fs).
Proof.
  intros Hm. unfold serve, metadata, mbind, M_bind.
  by rewrite load_metadata_run, Hm.
Qed.

Lemma metadata_post_run fs raw obj now m :
  storage_ready fs → fs !! metadata_slot ≠ Some Dir →
  current_metadata fs = JObj m →
  serve (metadata raw POST (Some (JObj obj)) now) fs
  = ({| status := 200;
        payload := Json (message_json "metadata updated" (secure_filename raw)) |},
     <[metadata_slot :=
         File (json_dumps (JObj (<[secure_filename raw := JObj obj]> m))) now]> fs).
Proof.
  intros Hs Hd Hm. unfold serve, metadata, mbind, M_bind.
  rewrite load_metadata_run, Hm. simpl.
  by rewrite save_metadata_run.
Qed.

Lemma metadata_post_rejected fs raw v now :
  is_dict v = false →
  serve (metadata raw POST (Some v) now) fs
  = ({| status := 400; payload := Json (error_json "Esperado JSON object") |}, fs).
Proof.
  intros Hv. unfold serve, metadata, mbind, M_bind.
  rewrite load_metadata_run. simpl. by rewrite Hv.
Qed.

(** *** [download_file] *)

Lemma download_file_run fs raw :
  secure_filename raw ≠ "" →
  serve (download_file raw) fs
  = (match fs !! slot (secure_filename raw) with
     | Some (File c _) =>
         {| status := 200; payload := Attachment (secure_filename raw) c |}
     | Some Dir => {| status := 404; payload := ErrorPage |}
     | None => {| status := 404; payload := Json (error_json "Não encontrado") |}
     end, fs).
Proof.
  intros Hne. pose proof (sanitized_plain raw) as Hp.
  unfold serve, download_file, path_exists.
  rewrite is_within_directory_joinpath, locate_joinpath by done.
  unfold target. apply String.eqb_neq in Hne as Hne'. rewrite Hne'.
  unfold mbind, M_bind, FS.exists_. cbn [FS.stat slot].
  change (to_string STORAGE_DIR) with "/app/storage".
  change (fs !! ["app"; "storage"; secure_filename raw])
    with (fs !! slot (secure_filename raw)).
  destruct (fs !! slot (secure_filename raw)) as [[c t|]|] eqn:E.
  - rewrite bool_decide_eq_true_2 by eauto. cbn [negb].
    by rewrite send_from_directory_run, E.
  - rewrite bool_decide_eq_true_2 by eauto. cbn [negb].
    by rewrite send_from_directory_run, E.
  - by rewrite bool_decide_eq_false_2 by (by intros [? ?]).
Qed.

Lemma send_from_directory_empty fs :
  send_from_directory "/app/storage" "" fs
  = match fs !! storage with
    | Some (File c _) =>
        (inr {| status := 200; payload := Attachment "storage" c |}, fs)
    | _ => (inl NotFound, fs)
    end.
Proof.
  unfold send_from_directory.
  change (WerkzeugSecurity.safe_join "/app/storage" "") with (Some "/app/storage/").
  cbv beta iota.
  change (locate_str "/app/storage/") with storage.
  change (Pathlib.name (of_string "/app/storage/")) with "storage".
  unfold mbind, M_bind, FS.isfile, FS.read. cbn [FS.stat storage].
  change (fs !! ["app"; "storage"]) with (fs !! storage).
  destruct (fs !! storage) as [[c t|]|] eqn:E; try done. by rewrite E.
Qed.

(** A download changes nothing, and what it sends is the content of the
    node its sanitized name leads to. *)
Lemma download_file_reads fs raw :
  (serve (download_file raw) fs).2 = fs ∧
  ∀ n data, payload (serve (download_file raw) fs).1 = Attachment n data →
            ∃ t, fs !! target (secure_filename raw) = Some (File data t).
Proof.
  destruct (String.eqb_spec (secure_filename raw) "") as [He|Hne].
  - unfold serve, download_file, path_exists. rewrite He.
    change (locate (joinpath STORAGE_DIR "")) with storage.
    change (is_within_directory (joinpath STORAGE_DIR "") STORAGE_DIR) with true.
    change (to_string STORAGE_DIR) with "/app/storage".
    unfold mbind, M_bind, FS.exists_, target. cbn [FS.stat storage String.eqb].
    change (fs !! ["app"; "storage"]) with (fs !! storage).
    destruct (fs !! storage) as [[c t|]|] eqn:E.
    + rewrite bool_decide_eq_true_2 by eauto. cbn [negb].
      rewrite send_from_directory_empty, E. split; [done|].
      intros n data [= _ <-]. eauto.
    + rewrite bool_decide_eq_true_2 by eauto. cbn [negb].
      by rewrite send_from_directory_empty, E.
    + by rewrite bool_decide_eq_false_2 by (by intros [? ?]).
  - rewrite download_file_run by done. unfold target.
    apply String.eqb_neq in Hne as ->. simpl. split; [done|].
    destruct (fs !! slot (secure_filename raw)) as [[c t|]|]; simpl; try done.
    intros n data [= _ <-]. eauto.
Qed.

(** *** [upload_file], step by step *)

Lemma with_default_lookup name m :
  with_default name m !! name = Some (default empty_dict (m !! name)).
Proof.
  unfold with_default. destruct (m !! name) eqn:E; simpl; [done|].
  by rewrite lookup_insert_eq.
Qed.

Lemma with_default_other name k m :
  k ≠ name → with_default name m !! k = m !! k.
Proof.
  intros Hne. unfold with_default. destruct (m !! name); [done|].
  by rewrite lookup_insert_ne.
Qed.

Lemma py_setdefault_run fs name m :
  py_setdefault (JObj m) name empty_dict fs = (inr (JObj (with_default name m)), fs).
Proof. unfold py_setdefault, with_default. by destruct (m !! name). Qed.

Lemma upload_file_run fs req f now m :
  let safe := secure_filename (filename f) in
  content_length req ≤ MAX_CONTENT_LENGTH →
  files req !! "file" = Some f →
  filename f ≠ "" → safe ≠ "" →
  storage_ready fs → fs !! slot safe ≠ Some Dir →
  saved fs safe (stream f) now !! metadata_slot ≠ Some Dir →
  current_metadata (saved fs safe (stream f) now) = JObj m →
  serve (upload_file req now) fs
  = ({| status := 201; payload := Json (message_json "uploaded" safe) |},
     <[metadata_slot := File (json_dumps (JObj (with_default safe m))) now]>
       (saved fs safe (stream f) now)).
Proof.
  intros safe Hlen Hf Hraw Hsafe Hs Hd Hmd Hm.
  pose proof (sanitized_plain (filename f)) as Hp. fold safe in Hp.
  unfold serve, upload_file, request_files.
  destruct (Z.ltb_spec MAX_CONTENT_LENGTH (content_length req)); [lia|].
  rewrite bind_ret_l, Hf. apply String.eqb_neq in Hraw as ->.
  fold safe.
  assert (Hw : save f (to_string (joinpath STORAGE_DIR safe)) now fs
               = (inr (), saved fs safe (stream f) now)).
  { unfold save. rewrite locate_str_joinpath by done. unfold target.
    apply String.eqb_neq in Hsafe as ->. unfold FS.write.
    cbn [FS.stat slot FS.parent removelast].
    change (fs !! ["app"; "storage"; safe]) with (fs !! slot safe).
    change (fs !! ["app"; "storage"]) with (fs !! storage). rewrite Hs.
    by destruct (fs !! slot safe) as [[]|]. }
  rewrite (bind_run _ _ _ _ _ Hw).
  rewrite (bind_run _ _ _ _ _ (load_metadata_run _)), Hm.
  pose proof (py_setdefault_run (saved fs safe (stream f) now) safe m) as Hsd.
  rewrite (bind_run _ _ _ _ _ Hsd).
  assert (Hready : storage_ready (saved fs safe (stream f) now)).
  { unfold storage_ready, saved. by rewrite lookup_insert_ne. }
  rewrite (bind_run _ _ _ _ _ (save_metadata_run _ _ _ Hready Hmd)).
  done.
Qed.

(** Whatever else happens, an upload that could open its target leaves
    the uploaded bytes there, unless the target is the metadata
    document. *)
Lemma upload_file_stores fs req f now :
  let safe := secure_filename (filename f) in
  content_length req ≤ MAX_CONTENT_LENGTH →
  files req !! "file" = Some f →
  filename f ≠ "" → safe ≠ "" → safe ≠ reserved →
  storage_ready fs → fs !! slot safe ≠ Some Dir →
  (serve (upload_file req now) fs).2 !! slot safe = Some (File (stream f) now).
Proof.
  intros safe Hlen Hf Hraw Hsafe Hres Hs Hd.
  pose proof (sanitized_plain (filename f)) as Hp. fold safe in Hp.
  unfold serve, upload_file, request_files.
  destruct (Z.ltb_spec MAX_CONTENT_LENGTH (content_length req)); [lia|].
  rewrite bind_ret_l, Hf. apply String.eqb_neq in Hraw as ->.
  fold safe.
  assert (Hw : save f (to_string (joinpath STORAGE_DIR safe)) now fs
               = (inr (), saved fs safe (stream f) now)).
  { unfold save. rewrite locate_str_joinpath by done. unfold target.
    apply String.eqb_neq in Hsafe as ->. unfold FS.write.
    cbn [FS.stat slot FS.parent removelast].
    change (fs !! ["app"; "storage"; safe]) with (fs !! slot safe).
    change (fs !! ["app"; "storage"]) with (fs !! storage). rewrite Hs.
    by destruct (fs !! slot safe) as [[]|]. }
  rewrite (bind_run _ _ _ _ _ Hw).
  set (rest := load_metadata ≫= _).
  assert (Ht : touches rest [metadata_slot]).
  { apply touches_bind; [apply touches_load_metadata|]. intros md.
    apply touches_bind; [apply touches_py_setdefault|]. intros md'.
    apply touches_bind; [apply touches_save_metadata; set_solver|]. intros _.
    apply touches_ret. }
  specialize (Ht (saved fs safe (stream f) now) (slot safe)).
  destruct (rest _) as [[e|r] fs2]; simpl in *; rewrite Ht.
  - unfold saved. by rewrite lookup_insert_eq.
  - apply not_elem_of_cons. split; [|apply not_elem_of_nil].
    unfold metadata_slot, slot. by intros [= ?].
  - unfold saved. by rewrite lookup_insert_eq.
  - apply not_elem_of_cons. split; [|apply not_elem_of_nil].
    unfold metadata_slot, slot. by intros [= ?].
Qed.

(** *** [delete_file] *)

Lemma delete_file_run fs raw now c t m :
  let safe := secure_filename raw in
  safe ≠ "" → storage_ready fs →
  fs !! slot safe = Some (File c t) →
  delete (slot safe) fs !! metadata_slot ≠ Some Dir →
  current_metadata (delete (slot safe) fs) = JObj m →
  serve (delete_file raw now) fs
  = ({| status := 200; payload := Json (message_json "deleted" safe) |},
     <[metadata_slot := File (json_dumps (JObj (delete safe m))) now]>
       (delete (slot safe) fs)).
Proof.
  intros safe Hsafe Hs Hf Hmd Hm.
  pose proof (sanitized_plain raw) as Hp. fold safe in Hp.
  unfold serve, delete_file, path_exists. fold safe.
  rewrite locate_joinpath by done. unfold target.
  apply String.eqb_neq in Hsafe as ->.
  assert (He : FS.exists_ (slot safe) fs = (inr true, fs)).
  { unfold FS.exists_. cbn [FS.stat slot].
    change (fs !! ["app"; "storage"; safe]) with (fs !! slot safe).
    rewrite Hf. by rewrite bool_decide_eq_true_2 by eauto. }
  rewrite (bind_run _ _ _ _ _ He). cbn [negb].
  assert (Hu : FS.unlink (slot safe) fs = (inr (), delete (slot safe) fs)).
  { unfold FS.unlink. cbn [FS.stat slot].
    change (fs !! ["app"; "storage"; safe]) with (fs !! slot safe).
    by rewrite Hf. }
  rewrite (bind_run _ _ _ _ _ Hu).
  rewrite (bind_run _ _ _ _ _ (load_metadata_run _)), Hm.
  cbn [py_pop]. rewrite bind_ret_l.
  assert (Hready : storage_ready (delete (slot safe) fs)).
  { unfold storage_ready. by rewrite lookup_delete_ne. }
  by rewrite (bind_run _ _ _ _ _ (save_metadata_run _ _ _ Hready Hmd)).
Qed.

(** A delete changes at most the node its sanitized name leads to and the
    metadata document. *)
Lemma delete_file_touches raw now :
  touches (delete_file raw now) [target (secure_filename raw); metadata_slot].
Proof.
  unfold delete_file, path_exists.
  rewrite locate_joinpath by apply sanitized_plain.
  apply touches_bind; [by intros fs p _|]. intros found.
  destruct (negb found); [apply touches_ret|].
  apply touches_bind; [apply touches_unlink; set_solver|]. intros _.
  apply touches_bind; [apply touches_load_metadata|]. intros md.
  apply touches_bind; [apply touches_py_pop|]. intros md'.
  apply touches_bind; [apply touches_save_metadata; set_solver|]. intros _.
  apply touches_ret.
Qed.

(** *** [list_files] *)

Lemma NoDup_omap {A B} (f : A → option B) (l : list A) :
  NoDup l →
  (∀ x y z, x ∈ l → y ∈ l → f x = Some z → f y = Some z → x = y) →
  NoDup (omap f l).
Proof.
  induction 1 as [|x l Hx Hl IH]; intros Hinj; simpl; [constructor|].
  assert (NoDup (omap f l)) as IH'.
  { apply IH. intros a b z Ha Hb. apply Hinj; by right. }
  destruct (f x) as [z|] eqn:E; [|done].
  constructor; [|done]. intros Hz.
  apply list_elem_of_omap in Hz as (y & Hy & Hfy).
  assert (x = y) as -> by (eapply Hinj; [by left|by right|done..]).
  done.
Qed.

Lemma entry_of_Some d kv n : FS.entry_of d kv = Some n ↔ kv.1 = (d ++ [n])%list.
Proof.
  unfold FS.entry_of. split.
  - destruct (last kv.1) as [n'|]; [|done].
    case_bool_decide; [|done]. by intros [= <-].
  - intros ->. rewrite last_snoc. by rewrite bool_decide_eq_true_2.
Qed.

Lemma elem_of_entries fs d n :
  n ∈ FS.entries fs d ↔ is_Some (fs !! (d ++ [n])%list).
Proof.
  unfold FS.entries. rewrite list_elem_of_omap. split.
  - intros ([p x] & Hin & He). apply entry_of_Some in He. simpl in He. subst p.
    apply elem_of_map_to_list in Hin. eauto.
  - intros [x Hx]. exists ((d ++ [n])%list, x). split.
    + by apply elem_of_map_to_list.
    + by apply entry_of_Some.
Qed.

Lemma NoDup_entries fs d : NoDup (FS.entries fs d).
Proof.
  apply NoDup_omap; [apply NoDup_map_to_list|].
  intros [p x] [q y] n Hp Hq Ep Eq.
  apply entry_of_Some in Ep, Eq. simpl in *. subst p q.
  apply elem_of_map_to_list in Hp, Hq. congruence.
Qed.

(** The comprehension of [list_files] over a state it only reads. *)
Lemma filterM_pure {A} (keep : A → M bool) (g : A → bool) l fs :
  (∀ x, x ∈ l → keep x fs = (inr (g x), fs)) →
  filterM keep l fs = (inr (List.filter g l), fs).
Proof.
  induction l as [|x l IH]; intros H; simpl; [done|].
  rewrite (bind_run _ _ _ _ _ (H x ltac:(by left))).
  rewrite (bind_run _ _ _ _ _ (IH ltac:(intros; apply H; by right))).
  by destruct (g x).
Qed.

Lemma forM_pure {A B} (f : A → M B) (h : A → B) l fs :
  (∀ x, x ∈ l → f x fs = (inr (h x), fs)) →
  forM f l fs = (inr (map h l), fs).
Proof.
  induction l as [|x l IH]; intros H; simpl; [done|].
  rewrite (bind_run _ _ _ _ _ (H x ltac:(by left))).
  by rewrite (bind_run _ _ _ _ _ (IH ltac:(intros; apply H; by right))).
Qed.

(** [sorted] is insertion sort. *)
Lemma insert_by_perm {A} (key : A → string) x l :
  Permutation (insert_by key x l) (x :: l).
Proof.
  induction l as [|y l IH]; simpl; [done|].
  destruct (str_leb (key x) (key y)); [done|].
  rewrite IH. apply perm_swap.
Qed.

Lemma sorted_perm {A} (key : A → string) l : Permutation (sorted key l) l.
Proof.
  induction l as [|x l IH]; simpl; [done|].
  unfold sorted in *. simpl. by rewrite insert_by_perm, IH.
Qed.

Lemma insert_by_sorted {A} (key : A → string) x l :
  StronglySorted (λ a b, str_leb (key a) (key b) = true) l →
  StronglySorted (λ a b, str_leb (key a) (key b) = true) (insert_by key x l).
Proof.
  induction 1 as [|y l Hl IH Hy]; simpl.
  - repeat constructor.
  - destruct (str_leb (key x) (key y)) eqn:E.
    + constructor; [by constructor|]. constructor; [done|].
      eapply Forall_impl; [exact Hy|]. intros z Hz. simpl in Hz.
      unfold str_leb in *. by eapply leb_trans.
    + constructor; [done|].
      rewrite (Forall_forall _ (insert_by key x l)). intros z Hz.
      rewrite insert_by_perm in Hz. apply elem_of_cons in Hz as [->|Hz].
      * unfold str_leb in *. by apply leb_total.
      * rewrite Forall_forall in Hy. by apply Hy.
Qed.

Lemma sorted_sorted {A} (key : A → string) l :
  StronglySorted (λ a b, str_leb (key a) (key b) = true) (sorted key l).
Proof.
  induction l as [|x l IH]; [constructor|]. by apply insert_by_sorted.
Qed.

Lemma locate_child n : n ≠ ".." → locate (child n) = slot n.
Proof. intros H. unfold locate, resolve, child. simpl. by apply walk_slot. Qed.

Lemma name_child n : Pathlib.name (child n) = n.
Proof. reflexivity. Qed.

Lemma entries_proper fs n :
  proper_names fs → n ∈ FS.entries fs storage → n ≠ "..".
Proof.
  intros Hp Hn%elem_of_entries%Hp ->. apply Hn. set_solver.
Qed.

Lemma file_info_run fs n c t m :
  n ≠ ".." → fs !! slot n = Some (File c t) → current_metadata fs = JObj m →
  file_info (child n) fs = (inr (entry_for fs n), fs).
Proof.
  intros Hn Hf Hm. unfold file_info. rewrite locate_child by done.
  assert (Hst : FS.stat_result (slot n) fs
                = (inr (Z.of_nat (String.length c), t), fs)).
  { unfold FS.stat_result. cbn [FS.stat slot].
    change (fs !! ["app"; "storage"; n]) with (fs !! slot n). by rewrite Hf. }
  rewrite (bind_run _ _ _ _ _ Hst). cbv beta iota.
  rewrite (bind_run _ _ _ _ _ (load_metadata_run _)), Hm.
  cbn [py_get]. rewrite bind_ret_l, name_child.
  unfold entry_for, record_of. by rewrite Hf, Hm.
Qed.

Lemma list_files_run fs :
  storage_ready fs → proper_names fs → is_dict (current_metadata fs) = true →
  serve list_files fs
  = ({| status := 200;
        payload := Listing (sorted (λ x, str_lower (fe_name x))
                              (map (entry_for fs)
                                 (List.filter (listed fs) (FS.entries fs storage)))) |},
     fs).
Proof.
  intros Hs Hp Hd.
  destruct (current_metadata fs) as [| | | | |m] eqn:Hm; try done.
  unfold serve, list_files.
  assert (Hit : iterdir STORAGE_DIR fs = (inr (map child (FS.entries fs storage)), fs)).
  { unfold iterdir. rewrite locate_storage.
    assert (Hl : FS.listdir storage fs = (inr (FS.entries fs storage), fs)).
    { unfold FS.listdir. cbn [FS.stat storage].
      change (fs !! ["app"; "storage"]) with (fs !! storage). by rewrite Hs. }
    by rewrite (bind_run _ _ _ _ _ Hl). }
  rewrite (bind_run _ _ _ _ _ Hit).
  erewrite bind_run; cycle 1.
  { apply (filterM_pure _ (λ p, listed fs (Pathlib.name p))).
    intros p Hin. apply list_elem_of_fmap in Hin as (n & -> & Hn).
    unfold is_file. rewrite locate_child by by eapply entries_proper.
    rewrite name_child. unfold mbind, M_bind, FS.isfile, listed.
    cbn [FS.stat slot].
    change (fs !! ["app"; "storage"; n]) with (fs !! slot n).
    by destruct (fs !! slot n) as [[]|]. }
  erewrite bind_run; cycle 1.
  { apply (forM_pure _ (λ p, entry_for fs (Pathlib.name p))).
    intros p Hin. apply list_elem_of_In, filter_In in Hin as [Hin Hl].
    apply list_elem_of_In, list_elem_of_fmap in Hin as (n & -> & Hn).
    rewrite name_child in *. unfold listed in Hl.
    destruct (fs !! slot n) as [[c t|]|] eqn:E; try done.
    eapply file_info_run; [by eapply entries_proper|done..]. }
  unfold mret, M_ret. do 4 f_equal.
  clear Hit. induction (FS.entries fs storage) as [|n l IH]; [done|].
  cbn [map List.filter]. rewrite name_child.
  destruct (listed fs n); cbn [map]; rewrite ?name_child; by f_equal.
Qed.

(** *** Upload, download and delete of a name that is not the reserved one *)

Lemma slot_not_metadata name : name ≠ reserved → slot name ≠ metadata_slot.
Proof. intros H [= ?]. done. Qed.

Lemma lookup_upload_of name data len :
  files (upload_of name data len) !! "file"
  = Some {| filename := name; stream := data |}.
Proof. unfold upload_of. cbn [files]. apply lookup_singleton_eq. Qed.

(** What was uploaded is what a download sends. *)
Lemma put_then_get fs raw data len now :
  let safe := secure_filename raw in
  len ≤ MAX_CONTENT_LENGTH → raw ≠ "" → safe ≠ "" → safe ≠ reserved →
  storage_ready fs → fs !! slot safe ≠ Some Dir →
  answer (download_file raw) (after (upload_file (upload_of raw data len) now) fs)
  = {| status := 200; payload := Attachment safe data |}.
Proof.
  intros safe Hlen Hraw Hsafe Hres Hs Hd. unfold answer.
  rewrite download_file_run by done. fold safe. unfold after.
  pose proof (upload_file_stores fs (upload_of raw data len)
                {| filename := raw; stream := data |} now Hlen
                (lookup_upload_of raw data len) Hraw Hsafe Hres Hs Hd) as H.
  cbn [filename stream] in H. fold safe in H. by rewrite H.
Qed.

(** The store an upload leaves in a well-formed store. *)
Lemma upload_file_well_formed fs raw data len now m :
  let safe := secure_filename raw in
  len ≤ MAX_CONTENT_LENGTH → raw ≠ "" → safe ≠ "" → safe ≠ reserved →
  storage_ready fs → fs !! metadata_slot ≠ Some Dir →
  current_metadata fs = JObj m → fs !! slot safe ≠ Some Dir →
  serve (upload_file (upload_of raw data len) now) fs
  = ({| status := 201; payload := Json (message_json "uploaded" safe) |},
     <[metadata_slot := File (json_dumps (JObj (with_default safe m))) now]>
       (saved fs safe data now)).
Proof.
  intros safe Hlen Hraw Hsafe Hres Hs Hmd Hm Hd.
  refine (upload_file_run fs (upload_of raw data len)
            {| filename := raw; stream := data |} now m Hlen
            (lookup_upload_of _ _ _) Hraw Hsafe Hs Hd _ _).
  - cbn [filename stream]. unfold saved.
    by rewrite lookup_insert_ne by by apply slot_not_metadata.
  - cbn [filename stream]. unfold saved.
    by rewrite current_metadata_frame by by apply slot_not_metadata.
Qed.

(** A second upload replaces the bytes and keeps the record. *)
Lemma reupload_keeps_record fs raw data len now record :
  let safe := secure_filename raw in
  codec_round_trip → well_formed fs →
  len ≤ MAX_CONTENT_LENGTH → raw ≠ "" → safe ≠ "" → safe ≠ reserved →
  fs !! slot safe ≠ Some Dir →
  record_of fs safe = record →
  let fs' := after (upload_file (upload_of raw data len) now) fs in
  fs' !! slot safe = Some (File data now)
  ∧ record_of fs' safe = record
  ∧ ∀ other, other ≠ safe → record_of fs' other = record_of fs other.
Proof.
  intros safe Hc (Hs & Hmd & Hm) Hlen Hraw Hsafe Hres Hd Hr fs'.
  destruct (current_metadata fs) as [| | | | |m] eqn:E; try done.
  unfold fs', after.
  rewrite (upload_file_well_formed fs raw data len now m) by done. cbn [snd].
  fold safe. split; [|split].
  - rewrite lookup_insert_ne by (symmetry; by apply slot_not_metadata).
    unfold saved. by rewrite lookup_insert_eq.
  - unfold record_of in *. rewrite current_metadata_saved by done.
    rewrite E in Hr. by rewrite with_default_lookup.
  - intros other Hother. unfold record_of.
    rewrite current_metadata_saved by done. rewrite E.
    by rewrite with_default_other.
Qed.

(** After upload and delete the file and its record are gone. *)
Lemma put_delete_then_get fs raw data len now later ignored :
  let safe := secure_filename raw in
  codec_round_trip → well_formed fs →
  len ≤ MAX_CONTENT_LENGTH → raw ≠ "" → safe ≠ "" → safe ≠ reserved →
  fs !! slot safe ≠ Some Dir →
  let fs1 := after (upload_file (upload_of raw data len) now) fs in
  let fs2 := after (delete_file raw later) fs1 in
  status (answer (delete_file raw later) fs1) = 200
  ∧ answer (download_file raw) fs2
    = {| status := 404; payload := Json (error_json "Não encontrado") |}
  ∧ answer (metadata raw GET ignored later) fs2
    = {| status := 200; payload := Json empty_dict |}.
Proof.
  intros safe Hc (Hs & Hmd & Hm) Hlen Hraw Hsafe Hres Hd fs1 fs2.
  destruct (current_metadata fs) as [| | | | |m] eqn:E; try done.
  assert (Hne : slot safe ≠ metadata_slot) by by apply slot_not_metadata.
  assert (E1 : fs1 = <[metadata_slot :=
                         File (json_dumps (JObj (with_default safe m))) now]>
                       (saved fs safe data now)).
  { unfold fs1, after.
    by rewrite (upload_file_well_formed fs raw data len now m). }
  assert (Hs1 : storage_ready fs1).
  { rewrite E1. unfold storage_ready, saved. by rewrite !lookup_insert_ne. }
  assert (Hf1 : fs1 !! slot safe = Some (File data now)).
  { rewrite E1. rewrite lookup_insert_ne by done.
    unfold saved. by rewrite lookup_insert_eq. }
  assert (Hmd1 : delete (slot safe) fs1 !! metadata_slot ≠ Some Dir).
  { rewrite lookup_delete_ne by done. by rewrite E1, lookup_insert_eq. }
  assert (Hm1 : current_metadata (delete (slot safe) fs1)
                = JObj (with_default safe m)).
  { rewrite current_metadata_delete by done. rewrite E1.
    by apply current_metadata_saved. }
  assert (E2 : serve (delete_file raw later) fs1
               = ({| status := 200; payload := Json (message_json "deleted" safe) |},
                  <[metadata_slot :=
                      File (json_dumps (JObj (delete safe (with_default safe m)))) later]>
                    (delete (slot safe) fs1))).
  { by apply (delete_file_run fs1 raw later data now). }
  unfold answer, fs2, after. rewrite E2. cbn [fst snd]. split; [done|]. split.
  - rewrite download_file_run by done. fold safe.
    rewrite lookup_insert_ne by done. by rewrite lookup_delete_eq.
  - erewrite metadata_get_run; [|by apply current_metadata_saved].
    fold safe. by rewrite lookup_delete_eq.
Qed.

(** *** The containment check with the separator *)

(** The first separator of a text decides its first component. *)
Lemma first_component (a b x y : list ascii) :
  Forall (λ c, Ascii.eqb c "/"%char = false) a →
  Forall (λ c, Ascii.eqb c "/"%char = false) b →
  (a ++ "/"%char :: x = b ++ "/"%char :: y)%list → a = b ∧ x = y.
Proof.
  revert b. induction a as [|c a IH]; intros [|d b] Ha Hb H; simpl in H.
  - by injection H.
  - injection H as <- _. apply Forall_cons in Hb as [Hd _]. done.
  - injection H as -> _. apply Forall_cons in Ha as [Hc _]. done.
  - injection H as -> H. apply Forall_cons in Ha as [_ Ha].
    apply Forall_cons in Hb as [_ Hb].
    destruct (IH b Ha Hb H) as [-> ->]. done.
Qed.

Lemma chars_join_parts c rest :
  rest ≠ [] →
  chars (join_parts (c :: rest)) = (chars c ++ "/"%char :: chars (join_parts rest))%list.
Proof.
  destruct rest as [|d rest]; [done|]. intros _.
  change (join_parts (c :: d :: rest)) with (c ++ "/" ++ join_parts (d :: rest)).
  by rewrite !chars_app.
Qed.

(** A rendered path that starts with [name/] has [name] as its first
    component, and more components after it. *)
Lemma join_parts_prefix name comps t :
  slash_free name → Forall slash_free comps →
  chars (join_parts comps) = (chars name ++ "/"%char :: t)%list →
  ∃ rest, comps = name :: rest ∧ rest ≠ [] ∧ chars (join_parts rest) = t.
Proof.
  intros Hn Hc H. destruct comps as [|c rest].
  { destruct (chars name); done. }
  apply Forall_cons in Hc as [Hc Hrest].
  destruct rest as [|d rest].
  - exfalso. simpl in H. unfold slash_free in Hc.
    rewrite H in Hc. apply Forall_app in Hc as [_ Hc].
    apply Forall_cons in Hc as [Hc _]. done.
  - rewrite chars_join_parts in H by done.
    apply first_component in H as [E <-]; [|done..].
    apply chars_inj in E as ->. by exists (d :: rest).
Qed.

Lemma join_parts_single comps s :
  comps ≠ [] → slash_free s → join_parts comps = s → comps = [s].
Proof.
  intros Hne Hs E. destruct comps as [|c [|d rest]]; [done|by simpl in E; subst|].
  exfalso. unfold slash_free in Hs. rewrite <- E, chars_join_parts in Hs by done.
  apply Forall_app in Hs as [_ Hs]. by apply Forall_cons in Hs as [? _].
Qed.

(** The check of [umDrive_Teste.py] answers [True] for the storage root
    only when the resolved path is the root or lies beneath it. *)
Lemma teste_is_within_directory_sound child :
  Forall slash_free (resolve cwd child) →
  UmDriveTeste.is_within_directory child STORAGE_DIR = true →
  inside_storage (resolve cwd child).
Proof.
  intros Hc. unfold UmDriveTeste.is_within_directory, resolved_str.
  change (resolve cwd STORAGE_DIR) with storage.
  change ("/" ++ join_parts storage) with "/app/storage".
  assert (Happ : slash_free "app") by (by repeat constructor).
  assert (Hsto : slash_free "storage") by (by repeat constructor).
  intros [He|Hp]%orb_true_iff.
  - apply String.eqb_eq in He.
    assert (E : chars (join_parts (resolve cwd child))
                = (chars "app" ++ "/"%char :: chars "storage")%list).
    { apply (f_equal chars) in He. by injection He. }
    apply join_parts_prefix in E as (rest & Hcomps & Hne & E); [|done..].
    rewrite Hcomps in *. apply Forall_cons in Hc as [_ Hc].
    apply chars_inj, join_parts_single in E as ->; [|done..].
    by exists [].
  - apply startswith_spec in Hp as [t Ht].
    assert (E : chars (join_parts (resolve cwd child))
                = (chars "app" ++ "/"%char :: (chars "storage" ++ "/"%char :: t))%list).
    { simpl in Ht. by injection Ht. }
    apply join_parts_prefix in E as (rest & Hcomps & Hne & E); [|done..].
    rewrite Hcomps in *. apply Forall_cons in Hc as [_ Hc].
    apply join_parts_prefix in E as (rest2 & -> & _ & _); [|done..].
    by exists rest2.
Qed.

Lemma split_on_pieces sep cur l :
  Forall (λ c, Ascii.eqb c sep = false) cur →
  Forall (Forall (λ c, Ascii.eqb c sep = false)) (split_on sep cur l).
Proof.
  revert cur. induction l as [|c l IH]; intros cur Hcur; simpl.
  - constructor; [by apply Forall_rev|constructor].
  - destruct (Ascii.eqb c sep) eqn:E.
    + constructor; [by apply Forall_rev|]. by apply IH.
    + apply IH. by constructor.
Qed.

Lemma parse_parts_slash_free l : Forall slash_free (parse_parts l).
Proof.
  unfold parse_parts. apply Forall_forall. intros s Hs.
  apply list_elem_of_filter in Hs as [_ Hs].
  apply list_elem_of_fmap in Hs as (piece & -> & Hin).
  pose proof (split_on_pieces "/"%char [] l ltac:(constructor)) as H.
  rewrite Forall_forall in H. unfold slash_free. rewrite chars_text. by apply H.
Qed.

Lemma walk_slash_free acc l :
  Forall slash_free acc → Forall slash_free l → Forall slash_free (walk acc l).
Proof.
  revert acc. induction l as [|s l IH]; intros acc Hacc Hl; simpl.
  - by apply Forall_rev.
  - apply Forall_cons in Hl as [Hs Hl]. destruct (String.eqb s "..").
    + apply IH; [|done]. destruct acc; [done|]. by apply Forall_cons in Hacc as [_ ?].
    + apply IH; [by constructor|done].
Qed.

(** The components of a resolved path have no separator in them. *)
Lemma resolve_slash_free s :
  Forall slash_free cwd → Forall slash_free (resolve cwd (of_string s)).
Proof.
  intros Hcwd. unfold resolve, of_string. cbn [root parts].
  destruct (parse_anchor _); apply walk_slash_free;
    (by apply Forall_rev) || constructor || apply parse_parts_slash_free.
Qed.

End with_runtime.
End ServiceFacts.

(** * The properties of the specification *)

Module Claims.
Import Text TextFacts Werkzeug WerkzeugFacts Pathlib PathFacts Store.
Import UmDrive ServiceFacts Interleaving Examples.

Lemma plain_single_segment s : plain (chars s) → single_segment s.
Proof.
  intros Hp. split; [|by apply plain_not_dots].
  intros Hin. apply plain_no_slash in Hp.
  rewrite Forall_forall in Hp. specialize (Hp _ Hin). done.
Qed.

Lemma inside_storage_metadata : inside_storage metadata_slot.
Proof. by exists [reserved]. Qed.

(** C1. For every client-supplied file name, the path that download and
    upload access is the storage root joined with one sanitized segment:
    the sanitized name has no separator and is neither [.] nor [..]; the
    [Path] the handlers build from it, and the text of that path handed to
    [open], both denote the entry of that name in the storage root (the
    root itself for the empty name), which passes the containment check;
    an upload changes no node outside the storage root; a download changes
    nothing and sends only the content of that entry. *)
Theorem C1_access_stays_in_storage_root (RT : Runtime) (raw : string) :
  let safe := secure_filename raw in
  let path := joinpath STORAGE_DIR safe in
  single_segment safe
  ∧ locate path = target safe
  ∧ locate_str (to_string path) = target safe
  ∧ inside_storage (target safe)
  ∧ is_within_directory path STORAGE_DIR = true
  ∧ (∀ fs data len now p,
       ¬ inside_storage p →
       after (upload_file (upload_of raw data len) now) fs !! p = fs !! p)
  ∧ (∀ fs,
       after (download_file raw) fs = fs
       ∧ ∀ n data,
           payload (answer (download_file raw) fs) = Attachment n data →
           ∃ t, fs !! target safe = Some (File data t)).
Proof.
  intros safe path. pose proof (sanitized_plain raw) as Hp.
  split; [by apply plain_single_segment|].
  split; [by apply locate_joinpath|].
  split; [by apply locate_str_joinpath|].
  split; [apply target_inside|].
  split; [by apply is_within_directory_joinpath|].
  split.
  - intros fs data len now p Hout. unfold after.
    eapply touches_serve; [apply upload_file_touches|].
    unfold upload_of. cbn [files]. rewrite lookup_singleton_eq. cbn [filename].
    intros Hin. apply Hout.
    apply elem_of_cons in Hin as [->|Hin]; [apply target_inside|].
    apply list_elem_of_singleton in Hin as ->. apply inside_storage_metadata.
  - intros fs. apply download_file_reads.
Qed.

(** C2. The containment check of [umdrive.py] compares the two resolved
    paths as text: for the sibling directory [/app/storage2] of the storage
    root [/app/storage] it answers [True], although the sibling is neither
    the root nor beneath it.  The check of [umDrive_Teste.py], which adds
    the separator, answers [False] there, and answers [True] for the
    storage root only when the resolved path is the root or lies beneath
    it. *)
Theorem C2_prefix_check_accepts_sibling (RT : Runtime) :
  let child := of_string "/app/storage2" in
  let parent := of_string "/app/storage" in
  resolve cwd parent = storage
  ∧ resolve cwd child = ["app"; "storage2"]
  ∧ ¬ inside_storage (resolve cwd child)
  ∧ UmDrive.is_within_directory child parent = true
  ∧ UmDriveTeste.is_within_directory child parent = false
  ∧ (∀ other : string,
       Forall slash_free cwd →
       UmDriveTeste.is_within_directory (of_string other) parent = true →
       inside_storage (resolve cwd (of_string other))).
Proof.
  intros child parent.
  split; [reflexivity|]. split; [reflexivity|].
  split; [intros [rest H]; by injection H|].
  split; [reflexivity|]. split; [reflexivity|].
  intros other Hcwd. apply teste_is_within_directory_sound.
  by apply resolve_slash_free.
Qed.

(** C3. At the reserved name the round trip fails: in the store of a
    server that has just started, the upload of the bytes [hello] under
    [metadata.json] is answered 201, and the download of [metadata.json]
    that follows sends the metadata document the upload handler wrote over
    them, not the uploaded bytes. *)
Theorem C3_upload_of_reserved_name_is_not_read_back :
  let put := upload_file (upload_of "metadata.json" "hello" 5) 1 in
  let document := json_dumps (JObj {[ "metadata.json" := empty_dict ]}) in
  secure_filename "metadata.json" = "metadata.json"
  ∧ status (answer put fs0) = 201
  ∧ answer (download_file "metadata.json") (after put fs0)
    = {| status := 200; payload := Attachment "metadata.json" document |}
  ∧ document ≠ "hello".
Proof. vm_compute. repeat split; try reflexivity. discriminate. Qed.

(** C4. At the reserved name delete does not remove the file: after the
    upload of [metadata.json] and its deletion, both answered with success,
    the download of [metadata.json] is answered 200 with the metadata
    document that the delete handler wrote anew, not with "not found". *)
Theorem C4_delete_of_reserved_name_leaves_the_file :
  let put := upload_file (upload_of "metadata.json" "hello" 5) 1 in
  let del := delete_file "metadata.json" 2 in
  let fs2 := after del (after put fs0) in
  status (answer put fs0) = 201
  ∧ status (answer del (after put fs0)) = 200
  ∧ answer (download_file "metadata.json") fs2
    = {| status := 200;
         payload := Attachment "metadata.json" (json_dumps empty_dict) |}.
Proof. vm_compute. repeat split; reflexivity. Qed.

(** The reference codec reads back every document it writes. *)
Lemma reference_round_trip : @codec_round_trip reference_runtime.
Proof. intros md. apply JsonFacts.loads_dumps. Qed.

Lemma fs0_well_formed : @well_formed reference_runtime fs0.
Proof. repeat split; vm_compute; (reflexivity || discriminate). Qed.

(** C5. After an upload under the reserved name the round trip of a
    record fails.  A fresh server that is sent a file called
    [metadata.json] holding the JSON array [[]] writes it over the
    metadata document (and answers 500).  From then on [setRecord] for
    [a.txt] with the object [{"tag": "final"}] is answered 500 and stores
    nothing, and the [getRecord] that follows is answered 500 as well, not
    with the object. *)
Theorem C5_set_record_fails_after_reserved_upload :
  let put := upload_file (upload_of "metadata.json" "[]" 2) 1 in
  let fs1 := after put fs0 in
  let set := metadata "a.txt" POST (Some (JObj tag_final)) 2 in
  secure_filename "metadata.json" = reserved
  ∧ answer put fs0 = {| status := 500; payload := ErrorPage |}
  ∧ fs1 !! metadata_slot = Some (File "[]" 1)
  ∧ serve set fs1 = ({| status := 500; payload := ErrorPage |}, fs1)
  ∧ answer (metadata "a.txt" GET None 3) (after set fs1)
    = {| status := 500; payload := ErrorPage |}.
Proof. intros put fs1 set. repeat apply conj; vm_compute; exact eq_refl. Qed.

(** C6. For every name and every JSON value that is not an object,
    [setRecord] is refused with the client error for an invalid metadata
    body, and the store, the metadata document included, is left as it
    was. *)
Theorem C6_non_object_metadata_is_rejected (RT : Runtime) (fs : filesystem)
    (name : string) (value : JSON) (now : Z) :
  is_dict value = false →
  serve (metadata name POST (Some value) now) fs
  = ({| status := 400; payload := Json (error_json "Esperado JSON object") |}, fs).
Proof. apply metadata_post_rejected. Qed.

(** C6 at the store of a fresh server, for the array [[1, 2, 3]]. *)
Lemma C6_at_array :
  is_dict (JArr [JNum 1; JNum 2; JNum 3]) = false
  ∧ serve (metadata "report.pdf" POST (Some (JArr [JNum 1; JNum 2; JNum 3])) 1) fs0
    = ({| status := 400; payload := Json (error_json "Esperado JSON object") |}, fs0).
Proof.
  split; [reflexivity|].
  apply (C6_non_object_metadata_is_rejected reference_runtime). reflexivity.
Defined.

Lemma fe_name_entry_for `{RT : Runtime} fs (l : list string) :
  fe_name <$> (entry_for fs <$> l) = l.
Proof. induction l as [|n l IH]; [done|]. csimpl. by rewrite IH. Qed.

Lemma NoDup_list_filter {A} (f : A → bool) (l : list A) :
  NoDup l → NoDup (List.filter f l).
Proof.
  induction 1 as [|x l Hx Hl IH]; simpl; [constructor|].
  destruct (f x); [|done]. constructor; [|done].
  intros Hin. apply Hx. by apply list_elem_of_In, filter_In in Hin as [?%list_elem_of_In _].
Qed.

Lemma listed_spec fs n :
  listed fs n = true ↔ stored_file fs n ∧ n ≠ reserved.
Proof.
  unfold listed, stored_file. split.
  - destruct (fs !! slot n) as [[c t|]|]; try done.
    intros H%negb_true_iff%String.eqb_neq. eauto.
  - intros [(c & t & ->) H%String.eqb_neq]. by rewrite H.
Qed.

(** C7. After an upload under the reserved name [list] fails.  A fresh
    server that is sent a file called [metadata.json] holding the JSON
    array [[]] and then a file [a.txt] stores both (answering 500 each
    time); the storage root then holds the regular file [a.txt], and
    [list] is answered 500 instead of with the line for [a.txt]. *)
Theorem C7_list_fails_after_reserved_upload :
  let fs1 := after (upload_file (upload_of "metadata.json" "[]" 2) 1) fs0 in
  let fs2 := after (upload_file (upload_of "a.txt" "abc" 3) 2) fs1 in
  fs2 !! metadata_slot = Some (File "[]" 1)
  ∧ fs2 !! slot "a.txt" = Some (File "abc" 2)
  ∧ serve list_files fs2 = ({| status := 500; payload := ErrorPage |}, fs2).
Proof. intros fs1 fs2. repeat apply conj; vm_compute; exact eq_refl. Qed.

Lemma proper_names_decide fs :
  map_Forall (λ p _, ".." ∉ p) fs → proper_names fs.
Proof. intros H p [x Hx]. by eapply H. Qed.

Lemma fs_report_well_formed : @well_formed reference_runtime fs_report.
Proof. repeat split; vm_compute; (reflexivity || discriminate). Qed.

Lemma fs_report_proper : proper_names fs_report.
Proof.
  apply proper_names_decide.
  apply (bool_decide_unpack _). vm_compute. exact I.
Qed.

(** C8. A name that is empty only after sanitization is not rejected as
    invalid.  The upload of a file called [..] passes the test for an empty
    name, opens the storage root itself for writing and is answered 500,
    not 400; [setRecord] for the name [$$$] is answered 200 and stores the
    record under the empty name. *)
Theorem C8_name_empty_after_sanitization_is_not_rejected :
  let put := upload_file (upload_of ".." "x" 1) 1 in
  let set := metadata "$$$" POST (Some (JObj tag_final)) 1 in
  secure_filename ".." = "" ∧ secure_filename "$$$" = ""
  ∧ answer put fs0 = {| status := 500; payload := ErrorPage |}
  ∧ status (answer set fs0) = 200
  ∧ record_of (after set fs0) "" = JObj tag_final.
Proof. vm_compute. repeat split; reflexivity. Qed.

(** The handler is its two halves run one after the other. *)
Lemma metadata_split `{RT : Runtime} name meth body now :
  metadata name meth body now
  = load_metadata ≫= metadata_after_load name meth body now.
Proof. reflexivity. Qed.

Lemma turn_pending `{RT : Runtime} req fs :
  turn req Pending fs = (Loaded (current_metadata fs), fs).
Proof. unfold turn. by rewrite load_metadata_run. Qed.

(** Two turns of one thread in a row are the handler. *)
Lemma two_turns_serve `{RT : Runtime} req fs :
  let handler := metadata (sr_name req) POST (Some (JObj (sr_obj req))) (sr_now req) in
  turn req (turn req Pending fs).1 (turn req Pending fs).2
  = (Finished (answer handler fs), after handler fs).
Proof.
  intros handler. rewrite turn_pending. cbn [fst snd turn].
  unfold answer, after, handler. rewrite metadata_split.
  unfold serve at 2 3.
  rewrite (bind_run _ _ _ _ _ (load_metadata_run fs)).
  fold (serve (metadata_after_load (sr_name req) POST (Some (JObj (sr_obj req)))
                 (sr_now req) (current_metadata fs)) fs).
  by destruct (serve _ fs).
Qed.

Lemma turn_loaded `{RT : Runtime} req fs m :
  storage_ready fs → fs !! metadata_slot ≠ Some Dir →
  turn req (Loaded (JObj m)) fs
  = (Finished {| status := 200;
                 payload := Json (message_json "metadata updated"
                                    (secure_filename (sr_name req))) |},
     <[metadata_slot :=
         File (json_dumps (JObj (<[secure_filename (sr_name req) := JObj (sr_obj req)]> m)))
              (sr_now req)]> fs).
Proof.
  intros Hs Hd. unfold turn, serve, metadata_after_load. cbn [get_json].
  rewrite bind_ret_l. cbn [is_dict negb py_setitem]. rewrite bind_ret_l.
  by rewrite (bind_run _ _ _ _ _ (save_metadata_run _ _ _ Hs Hd)).
Qed.

(** The document after [first] and then [second] were recorded in [m]. *)
Lemma two_records `{RT : Runtime} (first second : set_record) fs m now :
  codec_round_trip →
  secure_filename (sr_name first) ≠ secure_filename (sr_name second) →
  let m2 := <[secure_filename (sr_name second) := JObj (sr_obj second)]>
              (<[secure_filename (sr_name first) := JObj (sr_obj first)]> m) in
  let fs' := <[metadata_slot := File (json_dumps (JObj m2)) now]> fs in
  record_of fs' (secure_filename (sr_name first)) = JObj (sr_obj first)
  ∧ record_of fs' (secure_filename (sr_name second)) = JObj (sr_obj second).
Proof.
  intros Hc Hne m2 fs'. unfold record_of, fs'.
  rewrite current_metadata_saved by done. unfold m2.
  rewrite lookup_insert_ne by done. by rewrite !lookup_insert_eq.
Qed.

(** C9, as the code has it. In every well-formed store, for every two
    names whose sanitized forms differ and every two objects, when one
    [setRecord] request is served from start to end before the other one
    starts, in either order, both are answered with success and both
    records are in the document afterwards. *)
Theorem C9_serial_set_records_both_persist (RT : Runtime) (fs : filesystem)
    (a b : set_record) (schedule : list thread) :
  codec_round_trip → well_formed fs → serial schedule →
  secure_filename (sr_name a) ≠ secure_filename (sr_name b) →
  ∃ sa sb fs',
    run schedule a b Pending Pending fs = (sa, sb, fs')
    ∧ both_succeeded sa sb
    ∧ record_of fs' (secure_filename (sr_name a)) = JObj (sr_obj a)
    ∧ record_of fs' (secure_filename (sr_name b)) = JObj (sr_obj b).
Proof.
  intros Hc (Hs & Hd & Hm) Hserial Hne.
  destruct (current_metadata fs) as [| | | | |m] eqn:E; try done.
  destruct Hserial as [-> | ->]; cbn [run].
  - rewrite turn_pending, E, (turn_loaded a fs m Hs Hd).
    set (ma := <[secure_filename (sr_name a) := JObj (sr_obj a)]> m).
    set (fs1 := <[metadata_slot := File (json_dumps (JObj ma)) (sr_now a)]> fs).
    destruct (well_formed_saved fs ma (sr_now a) Hc Hs) as (Hs1 & Hd1 & _).
    fold fs1 in Hs1, Hd1.
    rewrite turn_pending. unfold fs1 at 1. rewrite current_metadata_saved by done.
    rewrite (turn_loaded b fs1 ma Hs1 Hd1).
    eexists _, _, _. split; [done|]. split; [done|].
    by apply two_records.
  - rewrite turn_pending, E, (turn_loaded b fs m Hs Hd).
    set (mb := <[secure_filename (sr_name b) := JObj (sr_obj b)]> m).
    set (fs1 := <[metadata_slot := File (json_dumps (JObj mb)) (sr_now b)]> fs).
    destruct (well_formed_saved fs mb (sr_now b) Hc Hs) as (Hs1 & Hd1 & _).
    fold fs1 in Hs1, Hd1.
    rewrite turn_pending. unfold fs1 at 1. rewrite current_metadata_saved by done.
    rewrite (turn_loaded a fs1 mb Hs1 Hd1).
    eexists _, _, _. split; [done|]. split; [done|].
    apply and_comm. by apply two_records.
Qed.

(** C9 at the store of a fresh server, first request first. *)
Lemma C9_at_fresh_store :
  @codec_round_trip reference_runtime ∧ @well_formed reference_runtime fs0
  ∧ serial [First; First; Second; Second]
  ∧ secure_filename (sr_name set_a) ≠ secure_filename (sr_name set_b)
  ∧ ∃ sa sb fs',
      run [First; First; Second; Second] set_a set_b Pending Pending fs0
      = (sa, sb, fs')
      ∧ both_succeeded sa sb
      ∧ record_of fs' (secure_filename (sr_name set_a)) = JObj (sr_obj set_a)
      ∧ record_of fs' (secure_filename (sr_name set_b)) = JObj (sr_obj set_b).
Proof.
  assert (Hserial : serial [First; First; Second; Second]) by (by left).
  assert (Hne : secure_filename (sr_name set_a) ≠ secure_filename (sr_name set_b))
    by (vm_compute; discriminate).
  split; [exact reference_round_trip|]. split; [exact fs0_well_formed|].
  split; [exact Hserial|]. split; [exact Hne|].
  exact (C9_serial_set_records_both_persist reference_runtime fs0 set_a set_b _
           reference_round_trip fs0_well_formed Hserial Hne).
Defined.

(** C9, as the specification states it, fails: with the two requests
    interleaved so that both read the document before either writes it,
    both are answered with success and the record of the request that wrote
    first is gone. *)
Lemma C9_interleaved_set_records_lose_an_update :
  secure_filename (sr_name set_a) ≠ secure_filename (sr_name set_b)
  ∧ ∃ sa sb fs',
      run [First; Second; First; Second] set_a set_b Pending Pending fs0
      = (sa, sb, fs')
      ∧ both_succeeded sa sb
      ∧ record_of fs' (secure_filename (sr_name set_a)) = empty_dict
      ∧ record_of fs' (secure_filename (sr_name set_a)) ≠ JObj (sr_obj set_a).
Proof.
  split; [vm_compute; discriminate|].
  set (r := run [First; Second; First; Second] set_a set_b Pending Pending fs0).
  exists r.1.1, r.1.2, r.2. split; [by destruct r as [[? ?] ?]|].
  split; [by vm_compute|].
  assert (H : record_of r.2 (secure_filename (sr_name set_a)) = empty_dict)
    by (by vm_compute).
  split; [exact H|]. rewrite H. discriminate.
Qed.

(** C10. At the reserved name a second upload clears the record: with a
    file [metadata.json] uploaded and the record [{"tag": "final"}] set for
    it, uploading [metadata.json] again is answered 201 and leaves the
    empty record behind, and the stored bytes are not the uploaded ones. *)
Theorem C10_reupload_of_reserved_name_clears_its_record :
  let put := upload_file (upload_of "metadata.json" "hello" 5) 1 in
  let set := metadata "metadata.json" POST (Some (JObj tag_final)) 2 in
  let fs2 := after set (after put fs0) in
  let again := upload_file (upload_of "metadata.json" "world" 5) 3 in
  record_of fs2 "metadata.json" = JObj tag_final
  ∧ status (answer again fs2) = 201
  ∧ record_of (after again fs2) "metadata.json" = empty_dict
  ∧ payload (answer (download_file "metadata.json") (after again fs2))
    ≠ Attachment "metadata.json" "world".
Proof. vm_compute. repeat split; try reflexivity. discriminate. Qed.

End Claims.
(** * Further properties: the deployed server *)

(** ** Sanitized names *)

Module SanitizeFacts.
Import Text TextFacts Werkzeug WerkzeugFacts Store Conditions.

Lemma last_rev {A} (l : list A) : last (rev l) = head l.
Proof. destruct l as [|x l]; [done|]. simpl. apply last_snoc. Qed.

Lemma head_rev {A} (l : list A) : head (rev l) = last l.
Proof. by rewrite <- last_rev, rev_involutive. Qed.

Lemma strip_last drop l c : last (strip drop l) = Some c → drop c = false.
Proof.
  unfold strip. rewrite last_rev.
  destruct (lstrip drop (rev (lstrip drop l))) as [|x r] eqn:E; [done|].
  intros [= ->]. by apply lstrip_head in E.
Qed.

Lemma lstrip_id drop l :
  (∀ c, head l = Some c → drop c = false) → lstrip drop l = l.
Proof. destruct l as [|x l]; [done|]. intros H. simpl. by rewrite H. Qed.

Lemma strip_id drop l :
  (∀ c, head l = Some c → drop c = false) →
  (∀ c, last l = Some c → drop c = false) → strip drop l = l.
Proof.
  intros Hh Hl. unfold strip. rewrite (lstrip_id drop l) by done.
  rewrite lstrip_id; [apply rev_involutive|]. by rewrite head_rev.
Qed.

Lemma secure_chars_tidy l : tidy (secure_chars l).
Proof.
  split; [apply secure_chars_plain|]. unfold secure_chars. apply strip_last.
Qed.

Lemma keep_ascii c : keep c = true → is_ascii c = true.
Proof. destruct c as [[] [] [] [] [] [] [] []]; by vm_compute. Qed.

Lemma keep_not_space c : keep c = true → isspace c = false.
Proof. destruct c as [[] [] [] [] [] [] [] []]; by vm_compute. Qed.

Lemma filter_all (P : ascii → Prop) `{∀ c, Decision (P c)} (l : list ascii) :
  Forall P l → filter P l = l.
Proof.
  induction 1 as [|x l Hx Hl IH]; [done|].
  rewrite filter_cons_True by done. by rewrite IH.
Qed.

Lemma replace_char_none a b l :
  Forall (λ c, Ascii.eqb c a = false) l → replace_char a b l = l.
Proof.
  induction 1 as [|x l Hx Hl IH]; [done|]. simpl. rewrite Hx. f_equal. apply IH.
Qed.

Lemma split_aux_one cur l :
  Forall (λ c, isspace c = false) l → (rev cur ++ l)%list ≠ [] →
  split_aux cur l = [(rev cur ++ l)%list].
Proof.
  intros H. revert cur. induction H as [|x l Hx Hl IH]; intros cur Hne.
  - simpl. rewrite app_nil_r in *. destruct cur; [done|]. done.
  - simpl. rewrite Hx. rewrite IH.
    + simpl. by rewrite <- app_assoc.
    + simpl. rewrite <- app_assoc. simpl. by destruct (rev cur).
Qed.

(** Sanitizing a sanitized name gives the name. *)
Lemma secure_chars_fixed l : tidy l → secure_chars l = l.
Proof.
  intros [[Hk Hh] Hl]. unfold secure_chars.
  rewrite (filter_all (λ c, is_ascii c = true) l)
    by (eapply Forall_impl; [exact Hk|apply keep_ascii]).
  rewrite replace_char_none
    by (eapply Forall_impl; [exact Hk|apply keep_not_slash]).
  destruct l as [|x l]; [done|].
  unfold split. rewrite split_aux_one;
    [|eapply Forall_impl; [exact Hk|apply keep_not_space]|done].
  cbn [rev app join]. rewrite filter_all by done.
  apply strip_id; [|done]. by intros c [= <-].
Qed.

End SanitizeFacts.

(** ** Lemmas on the handlers *)

Module CoverageFacts.
Import Text TextFacts Werkzeug WerkzeugFacts Pathlib PathFacts Store.
Import UmDrive ServiceFacts Effects Conditions.
Section with_runtime.
Context `{RT : Runtime}.

(** *** Computations that only read *)

Lemma reads_only_ret {A} (a : A) : reads_only (mret a).
Proof. by intros fs. Qed.

Lemma reads_only_raise {A} e : reads_only (raise (A := A) e).
Proof. by intros fs. Qed.

Lemma reads_only_bind {A B} (m : M A) (k : A → M B) :
  reads_only m → (∀ a, reads_only (k a)) → reads_only (m ≫= k).
Proof.
  intros Hm Hk fs. unfold mbind, M_bind. specialize (Hm fs).
  destruct (m fs) as [[e|a] fs1]; simpl in *; subst; [done|]. apply Hk.
Qed.

Lemma reads_only_exists p : reads_only (FS.exists_ p).
Proof. by intros fs. Qed.

Lemma reads_only_isfile p : reads_only (FS.isfile p).
Proof. by intros fs. Qed.

Lemma reads_only_read p : reads_only (FS.read p).
Proof. intros fs. unfold FS.read. by destruct (FS.stat fs p) as [[]|]. Qed.

Lemma reads_only_listdir p : reads_only (FS.listdir p).
Proof. intros fs. unfold FS.listdir. by destruct (FS.stat fs p) as [[]|]. Qed.

Lemma reads_only_stat_result p : reads_only (FS.stat_result p).
Proof. intros fs. unfold FS.stat_result. by destruct (FS.stat fs p) as [[]|]. Qed.

Lemma reads_only_load_metadata : reads_only load_metadata.
Proof. intros fs. by rewrite load_metadata_run. Qed.

Lemma reads_only_py_get md k d : reads_only (py_get md k d).
Proof. destruct md; by intros fs. Qed.

Lemma reads_only_filterM {A} (keep : A → M bool) l :
  (∀ x, reads_only (keep x)) → reads_only (filterM keep l).
Proof.
  intros H. induction l as [|x l IH]; [apply reads_only_ret|].
  simpl. apply reads_only_bind; [apply H|]. intros b.
  apply reads_only_bind; [apply IH|]. intros rest. apply reads_only_ret.
Qed.

Lemma reads_only_forM {A B} (f : A → M B) l :
  (∀ x, reads_only (f x)) → reads_only (forM f l).
Proof.
  intros H. induction l as [|x l IH]; [apply reads_only_ret|].
  simpl. apply reads_only_bind; [apply H|]. intros b.
  apply reads_only_bind; [apply IH|]. intros rest. apply reads_only_ret.
Qed.

Lemma reads_only_file_info p : reads_only (file_info p).
Proof.
  unfold file_info. apply reads_only_bind; [apply reads_only_stat_result|].
  intros [sz mt]. apply reads_only_bind; [apply reads_only_load_metadata|].
  intros md. apply reads_only_bind; [apply reads_only_py_get|].
  intros r. apply reads_only_ret.
Qed.

Lemma reads_only_list_files : reads_only list_files.
Proof.
  unfold list_files, iterdir.
  apply reads_only_bind.
  { apply reads_only_bind; [apply reads_only_listdir|]. intros ?. apply reads_only_ret. }
  intros ps. apply reads_only_bind.
  { apply reads_only_filterM. intros p. unfold is_file.
    apply reads_only_bind; [apply reads_only_isfile|]. intros ?. apply reads_only_ret. }
  intros kept. apply reads_only_bind.
  { apply reads_only_forM. intros p. apply reads_only_file_info. }
  intros files. apply reads_only_ret.
Qed.

Lemma reads_only_serve (view : M response) fs :
  reads_only view → (serve view fs).2 = fs.
Proof.
  intros H. unfold serve. specialize (H fs). by destruct (view fs) as [[e|r] fs1].
Qed.

(** *** Computations that leave directories alone *)

Lemma keeps_dirs_reads_only {A} (m : M A) : reads_only m → keeps_dirs m.
Proof. intros H fs p Hp. by rewrite H. Qed.

Lemma keeps_dirs_bind {A B} (m : M A) (k : A → M B) :
  keeps_dirs m → (∀ a, keeps_dirs (k a)) → keeps_dirs (m ≫= k).
Proof.
  intros Hm Hk fs p Hp. unfold mbind, M_bind. specialize (Hm fs p Hp).
  destruct (m fs) as [[e|a] fs1]; simpl in *; [done|]. by apply Hk.
Qed.

Lemma keeps_dirs_write p data now : p ≠ [] → keeps_dirs (FS.write p data now).
Proof.
  intros Hne fs q Hq. unfold FS.write.
  assert (Hst : FS.stat fs p = fs !! p) by by destruct p.
  rewrite Hst. destruct (fs !! p) as [[c t|]|] eqn:E; try done;
    destruct (FS.stat fs (FS.parent p)) as [[]|]; try done; simpl;
    rewrite lookup_insert_ne; try done; intros ->; congruence.
Qed.

Lemma keeps_dirs_unlink p : p ≠ [] → keeps_dirs (FS.unlink p).
Proof.
  intros Hne fs q Hq. unfold FS.unlink.
  assert (Hst : FS.stat fs p = fs !! p) by by destruct p.
  rewrite Hst. destruct (fs !! p) as [[c t|]|] eqn:E; try done; simpl.
  rewrite lookup_delete_ne; try done; intros ->; congruence.
Qed.

Lemma target_nonempty name : target name ≠ [].
Proof. unfold target. by destruct (String.eqb name ""). Qed.

Lemma keeps_dirs_save_metadata md now : keeps_dirs (save_metadata md now).
Proof. unfold save_metadata. rewrite locate_metadata. by apply keeps_dirs_write. Qed.

Lemma keeps_dirs_upload_file req now : keeps_dirs (upload_file req now).
Proof.
  unfold upload_file, request_files.
  destruct (MAX_CONTENT_LENGTH <? content_length req).
  { rewrite bind_raise_l. by intros fs p Hp. }
  rewrite bind_ret_l.
  destruct (files req !! "file") as [f|]; [|by intros fs p Hp].
  destruct (String.eqb (filename f) ""); [by intros fs p Hp|].
  apply keeps_dirs_bind.
  { unfold save. rewrite locate_str_joinpath by apply sanitized_plain.
    apply keeps_dirs_write, target_nonempty. }
  intros _. apply keeps_dirs_bind.
  { apply keeps_dirs_reads_only, reads_only_load_metadata. }
  intros md. apply keeps_dirs_bind.
  { apply keeps_dirs_reads_only. intros fs.
    pose proof (touches_py_setdefault md (secure_filename (filename f)) empty_dict []) as H.
    apply map_eq. intros p. apply H. set_solver. }
  intros md'. apply keeps_dirs_bind; [apply keeps_dirs_save_metadata|].
  intros _. by intros fs p Hp.
Qed.

Lemma keeps_dirs_delete_file raw now : keeps_dirs (delete_file raw now).
Proof.
  unfold delete_file, path_exists.
  rewrite locate_joinpath by apply sanitized_plain.
  apply keeps_dirs_bind; [apply keeps_dirs_reads_only, reads_only_exists|].
  intros found. destruct (negb found); [by intros fs p Hp|].
  apply keeps_dirs_bind; [apply keeps_dirs_unlink, target_nonempty|]. intros _.
  apply keeps_dirs_bind; [apply keeps_dirs_reads_only, reads_only_load_metadata|].
  intros md. apply keeps_dirs_bind.
  { apply keeps_dirs_reads_only. intros fs. destruct md; by simpl. }
  intros md'. apply keeps_dirs_bind; [apply keeps_dirs_save_metadata|].
  intros _. by intros fs p Hp.
Qed.

Lemma keeps_dirs_metadata raw meth body now :
  keeps_dirs (metadata raw meth body now).
Proof.
  unfold metadata.
  apply keeps_dirs_bind; [apply keeps_dirs_reads_only, reads_only_load_metadata|].
  intros md. destruct meth.
  - apply keeps_dirs_reads_only, reads_only_bind; [apply reads_only_py_get|].
    intros r. apply reads_only_ret.
  - apply keeps_dirs_bind.
    { apply keeps_dirs_reads_only. intros fs. by destruct body. }
    intros data. destruct (negb (is_dict data)); [by intros fs p Hp|].
    apply keeps_dirs_bind.
    { apply keeps_dirs_reads_only. intros fs. by destruct md. }
    intros md'. apply keeps_dirs_bind; [apply keeps_dirs_save_metadata|].
    intros _. by intros fs p Hp.
Qed.

Lemma keeps_dirs_serve (view : M response) fs p :
  keeps_dirs view → fs !! p = Some Dir → (serve view fs).2 !! p = Some Dir.
Proof.
  intros H Hp. unfold serve. specialize (H fs p Hp).
  by destruct (view fs) as [[e|r] fs1].
Qed.

(** *** Records and names after a write *)

Lemma record_of_saved fs (m : gmap string JSON) now name :
  codec_round_trip →
  record_of (<[metadata_slot := File (json_dumps (JObj m)) now]> fs) name
  = default empty_dict (m !! name).
Proof.
  intros Hc. unfold record_of. by rewrite current_metadata_saved.
Qed.

Lemma storage_has_no_dotdot : ".." ∉ storage.
Proof. intros H%list_elem_of_In. simpl in H. intuition discriminate. Qed.

Lemma slot_has_no_dotdot name : name ≠ ".." → ".." ∉ slot name.
Proof.
  intros Hn H%list_elem_of_In. simpl in H.
  destruct H as [H|[H|[H|[]]]]; try discriminate. by destruct Hn.
Qed.

Lemma sanitized_not_dotdot raw : secure_filename raw ≠ "..".
Proof. apply plain_not_dots, sanitized_plain. Qed.

Lemma proper_names_insert fs p n :
  proper_names fs → ".." ∉ p → proper_names (<[p := n]> fs).
Proof.
  intros Hp Hn q [x Hx]. destruct (decide (q = p)) as [->|Hne]; [done|].
  rewrite lookup_insert_ne in Hx by done. apply Hp. eauto.
Qed.

Lemma proper_names_delete fs p : proper_names fs → proper_names (delete p fs).
Proof.
  intros Hp q [x Hx]. destruct (decide (q = p)) as [->|Hne].
  - by rewrite lookup_delete_eq in Hx.
  - rewrite lookup_delete_ne in Hx by done. apply Hp. eauto.
Qed.

Lemma filter_none {A} (f : A → bool) (l : list A) :
  (∀ x, In x l → f x = false) → List.filter f l = [].
Proof.
  induction l as [|x l IH]; intros H; [done|]. simpl.
  rewrite (H x) by by left. apply IH. intros y Hy. apply H. by right.
Qed.

(** The lines of the listing, up to their order. *)
Lemma list_files_lines fs :
  storage_ready fs → proper_names fs → is_dict (current_metadata fs) = true →
  ∃ lines names,
    serve list_files fs = ({| status := 200; payload := Listing lines |}, fs)
    ∧ lines ≡ₚ entry_for fs <$> names
    ∧ ∀ n, n ∈ names ↔ stored_file fs n ∧ n ≠ reserved.
Proof.
  intros Hs Hp Hm.
  set (names := List.filter (listed fs) (FS.entries fs storage)).
  exists (sorted (λ x, str_lower (fe_name x)) (entry_for fs <$> names)), names.
  split; [by apply list_files_run|]. split; [apply sorted_perm|].
  intros n. unfold names. rewrite list_elem_of_In, filter_In, <- list_elem_of_In.
  rewrite Claims.listed_spec, elem_of_entries. split; [tauto|].
  intros [(c & t & Hf) Hne]. split; [|split; [by exists c, t|done]].
  change (storage ++ [n])%list with (slot n). rewrite Hf. eauto.
Qed.

(** A save that succeeded wrote the document; the storage root was there
    and the document was not a directory. *)
Lemma save_metadata_done md now fs fs' :
  save_metadata md now fs = (inr (), fs') →
  fs' = <[metadata_slot := File (json_dumps md) now]> fs
  ∧ storage_ready fs ∧ fs !! metadata_slot ≠ Some Dir.
Proof.
  unfold save_metadata, FS.write. rewrite locate_metadata.
  cbn [FS.stat metadata_slot slot FS.parent removelast].
  change (fs !! ["app"; "storage"; reserved]) with (fs !! metadata_slot).
  change (fs !! ["app"; "storage"]) with (fs !! storage).
  unfold storage_ready.
  destruct (fs !! metadata_slot) as [[]|]; try done;
    destruct (fs !! storage) as [[]|]; try done; by intros [= <-].
Qed.

Lemma startup_run fs now :
  startup now fs
  = match fs !! storage with
    | Some Dir =>
        if bool_decide (is_Some (fs !! metadata_slot)) then (inr (), fs)
        else save_metadata empty_dict now fs
    | Some (File _ _) => (inl FileExistsError, fs)
    | None =>
        match fs !! ["app"] with
        | Some Dir =>
            if bool_decide (is_Some (fs !! metadata_slot))
            then (inr (), <[storage := Dir]> fs)
            else save_metadata empty_dict now (<[storage := Dir]> fs)
        | Some (File _ _) => (inl NotADirectoryError, fs)
        | None => (inl FileNotFoundError, fs)
        end
    end.
Proof.
  unfold startup, path_exists. rewrite locate_storage, locate_metadata.
  unfold mbind, M_bind, FS.mkdir, FS.exists_. cbn [FS.stat storage FS.parent removelast].
  change (fs !! ["app"; "storage"]) with (fs !! storage).
  destruct (fs !! storage) as [[c t|]|] eqn:Es; try done.
  - change (FS.stat fs metadata_slot) with (fs !! metadata_slot).
    by destruct (bool_decide (is_Some (fs !! metadata_slot))).
  - destruct (fs !! ["app"]) as [[c t|]|] eqn:Ea; try done.
    replace (FS.stat (<[storage:=Dir]> fs) metadata_slot)
      with (fs !! metadata_slot) by (symmetry; by apply lookup_insert_ne).
    by destruct (bool_decide (is_Some (fs !! metadata_slot))).
Qed.

Lemma not_elem_of_pair {A} (x a b : A) : x ≠ a → x ≠ b → x ∉ [a; b].
Proof.
  intros Ha Hb. apply not_elem_of_cons. split; [done|].
  apply not_elem_of_cons. split; [done|]. apply not_elem_of_nil.
Qed.

Lemma bind_fail {A B} (m : M A) (k : A → M B) fs e fs1 :
  m fs = (inl e, fs1) → (m ≫= k) fs = (inl e, fs1).
Proof. intros H. unfold mbind, M_bind. by rewrite H. Qed.

(** *** The cases of [upload_file] and [delete_file] *)

(** Writing where a directory lies fails and changes nothing. *)
Lemma save_on_directory f name now fs :
  plain (chars name) → FS.stat fs (target name) = Some Dir →
  save f (to_string (joinpath STORAGE_DIR name)) now fs = (inl IsADirectoryError, fs).
Proof.
  intros Hp Hd. unfold save. rewrite locate_str_joinpath by done.
  unfold FS.write. by rewrite Hd.
Qed.

Lemma stat_storage fs : storage_ready fs → FS.stat fs storage = Some Dir.
Proof. done. Qed.

Lemma stat_slot fs name : FS.stat fs (slot name) = fs !! slot name.
Proof. done. Qed.

(** An upload either leaves the store as it was, or got as far as writing
    the file. *)
Lemma upload_file_cases req now fs :
  storage_ready fs →
  (serve (upload_file req now) fs).2 = fs
  ∨ ∃ f, content_length req ≤ MAX_CONTENT_LENGTH
         ∧ files req !! "file" = Some f ∧ filename f ≠ ""
         ∧ secure_filename (filename f) ≠ ""
         ∧ fs !! slot (secure_filename (filename f)) ≠ Some Dir.
Proof.
  intros Hs. unfold serve, upload_file, request_files.
  destruct (Z.ltb_spec MAX_CONTENT_LENGTH (content_length req)); [by left|].
  rewrite bind_ret_l. destruct (files req !! "file") as [f|] eqn:Hf; [|by left].
  destruct (String.eqb_spec (filename f) "") as [|Hraw]; [by left|].
  pose proof (sanitized_plain (filename f)) as Hp.
  destruct (String.eqb_spec (secure_filename (filename f)) "") as [He|Hsafe].
  { left. unfold mbind, M_bind. rewrite save_on_directory; [done|done|].
    rewrite He. by apply stat_storage. }
  destruct (fs !! slot (secure_filename (filename f))) as [[c t|]|] eqn:Hd.
  - right. exists f. by rewrite Hd.
  - left. unfold mbind, M_bind. rewrite save_on_directory; [done|done|].
    unfold target. apply String.eqb_neq in Hsafe as ->. by rewrite stat_slot.
  - right. exists f. by rewrite Hd.
Qed.

(** A delete either leaves the store as it was, or found a regular file
    to remove. *)
Lemma delete_file_cases raw now fs :
  storage_ready fs →
  (serve (delete_file raw now) fs).2 = fs
  ∨ (secure_filename raw ≠ ""
     ∧ ∃ c t, fs !! slot (secure_filename raw) = Some (File c t)).
Proof.
  intros Hs. pose proof (sanitized_plain raw) as Hp.
  unfold serve, delete_file, path_exists. rewrite locate_joinpath by done.
  unfold mbind, M_bind, FS.exists_, FS.unlink.
  destruct (String.eqb_spec (secure_filename raw) "") as [He|Hsafe].
  { left. rewrite He. unfold target. cbn [String.eqb].
    rewrite stat_storage by done. rewrite bool_decide_eq_true_2 by eauto.
    cbn [negb]. by rewrite stat_storage. }
  unfold target. apply String.eqb_neq in Hsafe as Hsafe'. rewrite Hsafe'.
  rewrite stat_slot.
  destruct (fs !! slot (secure_filename raw)) as [[c t|]|] eqn:E.
  - right. eauto.
  - left. rewrite bool_decide_eq_true_2 by eauto. cbn [negb].
    by rewrite stat_slot, E.
  - left. by rewrite bool_decide_eq_false_2 by (by intros [? ?]).
Qed.

(** The store a write of the metadata document leaves is well-formed. *)
Lemma consistent_saved fs (m : gmap string JSON) now :
  codec_round_trip → storage_ready fs → proper_names fs →
  well_formed (<[metadata_slot := File (json_dumps (JObj m)) now]> fs)
  ∧ proper_names (<[metadata_slot := File (json_dumps (JObj m)) now]> fs).
Proof.
  intros Hc Hs Hp. split; [by apply well_formed_saved|].
  apply proper_names_insert; [done|]. by apply slot_has_no_dotdot.
Qed.

(** *** Requests that fail *)

Lemma exists_run fs p :
  FS.exists_ p fs = (inr (bool_decide (is_Some (FS.stat fs p))), fs).
Proof. done. Qed.

Lemma delete_file_missing fs raw now :
  secure_filename raw ≠ "" → fs !! slot (secure_filename raw) = None →
  serve (delete_file raw now) fs
  = ({| status := 404; payload := Json (error_json "Não encontrado") |}, fs).
Proof.
  intros Hsafe Hf. pose proof (sanitized_plain raw) as Hp.
  unfold serve, delete_file, path_exists. rewrite locate_joinpath by done.
  unfold target. apply String.eqb_neq in Hsafe as ->.
  rewrite (bind_run _ _ _ _ _ (exists_run _ _)), stat_slot, Hf.
  by rewrite bool_decide_eq_false_2 by (by intros [? ?]).
Qed.

Lemma delete_file_directory fs raw now :
  FS.stat fs (target (secure_filename raw)) = Some Dir →
  serve (delete_file raw now) fs = ({| status := 500; payload := ErrorPage |}, fs).
Proof.
  intros Hd. pose proof (sanitized_plain raw) as Hp.
  unfold serve, delete_file, path_exists. rewrite locate_joinpath by done.
  rewrite (bind_run _ _ _ _ _ (exists_run _ _)), Hd.
  rewrite bool_decide_eq_true_2 by eauto. cbn [negb].
  unfold mbind, M_bind, FS.unlink. by rewrite Hd.
Qed.


Lemma save_run f name now fs :
  plain (chars name) → name ≠ "" → storage_ready fs → fs !! slot name ≠ Some Dir →
  save f (to_string (joinpath STORAGE_DIR name)) now fs
  = (inr (), saved fs name (stream f) now).
Proof.
  intros Hp Hne Hs Hd. unfold save. rewrite locate_str_joinpath by done.
  unfold target. apply String.eqb_neq in Hne as ->. unfold FS.write.
  rewrite stat_slot. cbn [slot FS.parent removelast].
  rewrite stat_storage by done. by destruct (fs !! slot name) as [[]|].
Qed.

(** The file is written before the metadata document is looked at. *)
Lemma upload_file_partial fs req f now :
  let safe := secure_filename (filename f) in
  content_length req ≤ MAX_CONTENT_LENGTH →
  files req !! "file" = Some f → filename f ≠ "" → safe ≠ "" →
  storage_ready fs → fs !! slot safe ≠ Some Dir →
  is_dict (current_metadata (saved fs safe (stream f) now)) = false →
  serve (upload_file req now) fs
  = ({| status := 500; payload := ErrorPage |}, saved fs safe (stream f) now).
Proof.
  intros safe Hlen Hf Hraw Hsafe Hs Hd Hm.
  unfold serve, upload_file, request_files.
  destruct (Z.ltb_spec MAX_CONTENT_LENGTH (content_length req)); [lia|].
  rewrite bind_ret_l, Hf. apply String.eqb_neq in Hraw as ->. fold safe.
  rewrite (bind_run _ _ _ _ _ (save_run f safe now fs (sanitized_plain _) Hsafe Hs Hd)).
  rewrite (bind_run _ _ _ _ _ (load_metadata_run _)).
  by destruct (current_metadata (saved fs safe (stream f) now)).
Qed.

Lemma unlink_run fs p c t :
  p ≠ [] → fs !! p = Some (File c t) → FS.unlink p fs = (inr (), delete p fs).
Proof.
  intros Hp Hf. unfold FS.unlink.
  assert (FS.stat fs p = fs !! p) as -> by by destruct p. by rewrite Hf.
Qed.

(** The file is removed before the metadata document is looked at. *)
Lemma delete_file_partial fs raw now c t :
  let safe := secure_filename raw in
  safe ≠ "" → fs !! slot safe = Some (File c t) →
  is_dict (current_metadata (delete (slot safe) fs)) = false →
  serve (delete_file raw now) fs
  = ({| status := 500; payload := ErrorPage |}, delete (slot safe) fs).
Proof.
  intros safe Hsafe Hf Hm. pose proof (sanitized_plain raw) as Hp.
  unfold serve, delete_file, path_exists. rewrite locate_joinpath by done.
  fold safe. unfold target. apply String.eqb_neq in Hsafe as ->.
  rewrite (bind_run _ _ _ _ _ (exists_run _ _)), stat_slot, Hf.
  rewrite bool_decide_eq_true_2 by eauto. cbn [negb].
  rewrite (bind_run _ _ _ _ _ (unlink_run fs (slot safe) c t ltac:(done) Hf)).
  rewrite (bind_run _ _ _ _ _ (load_metadata_run _)).
  by destruct (current_metadata (delete (slot safe) fs)).
Qed.

Lemma metadata_get_failed fs raw body now :
  is_dict (current_metadata fs) = false →
  serve (metadata raw GET body now) fs = ({| status := 500; payload := ErrorPage |}, fs).
Proof.
  intros Hm. unfold serve, metadata.
  rewrite (bind_run _ _ _ _ _ (load_metadata_run _)).
  by destruct (current_metadata fs).
Qed.

Lemma metadata_post_failed fs raw obj now :
  is_dict (current_metadata fs) = false →
  serve (metadata raw POST (Some (JObj obj)) now) fs
  = ({| status := 500; payload := ErrorPage |}, fs).
Proof.
  intros Hm. unfold serve, metadata.
  rewrite (bind_run _ _ _ _ _ (load_metadata_run _)).
  by destruct (current_metadata fs).
Qed.

Lemma reads_only_metadata_get raw body now : reads_only (metadata raw GET body now).
Proof.
  unfold metadata. apply reads_only_bind; [apply reads_only_load_metadata|].
  intros md. apply reads_only_bind; [apply reads_only_py_get|].
  intros r. apply reads_only_ret.
Qed.

Lemma list_files_without_root fs :
  fs !! storage = None →
  serve list_files fs = ({| status := 500; payload := ErrorPage |}, fs).
Proof.
  intros Hs. unfold serve, list_files, iterdir. rewrite locate_storage.
  assert (Hl : FS.listdir storage fs = (inl FileNotFoundError, fs)).
  { unfold FS.listdir. cbn [FS.stat storage].
    change (fs !! ["app"; "storage"]) with (fs !! storage). by rewrite Hs. }
  by rewrite (bind_fail _ _ _ _ _ (bind_fail _ _ _ _ _ Hl)).
Qed.

Lemma upload_file_without_root fs req f now :
  let safe := secure_filename (filename f) in
  content_length req ≤ MAX_CONTENT_LENGTH →
  files req !! "file" = Some f → filename f ≠ "" → safe ≠ "" →
  fs !! storage = None → fs !! slot safe = None →
  serve (upload_file req now) fs = ({| status := 500; payload := ErrorPage |}, fs).
Proof.
  intros safe Hlen Hf Hraw Hsafe Hs Hn. unfold serve, upload_file, request_files.
  destruct (Z.ltb_spec MAX_CONTENT_LENGTH (content_length req)); [lia|].
  rewrite bind_ret_l, Hf. apply String.eqb_neq in Hraw as ->. fold safe.
  unfold mbind, M_bind, save. rewrite locate_str_joinpath by apply sanitized_plain.
  unfold target. apply String.eqb_neq in Hsafe as ->. unfold FS.write.
  rewrite stat_slot, Hn. cbn [slot FS.parent removelast FS.stat].
  change (fs !! ["app"; "storage"]) with (fs !! storage). by rewrite Hs.
Qed.

Lemma save_metadata_without_root md now fs :
  fs !! storage = None → fs !! metadata_slot = None →
  save_metadata md now fs = (inl FileNotFoundError, fs).
Proof.
  intros Hs Hm. unfold save_metadata, FS.write. rewrite locate_metadata.
  cbn [FS.stat metadata_slot slot FS.parent removelast].
  change (fs !! ["app"; "storage"; reserved]) with (fs !! metadata_slot).
  change (fs !! ["app"; "storage"]) with (fs !! storage). by rewrite Hm, Hs.
Qed.

End with_runtime.
End CoverageFacts.

(** * Further properties: the development server *)

Module TesteFacts.
Import Text TextFacts Werkzeug WerkzeugFacts Pathlib PathFacts Store.
Import UmDrive ServiceFacts Conditions CoverageFacts.
Import TesteStore.

Section with_runtime.
Context `{RT : Runtime}.

(** *** Where a sanitized name leads, in any working directory *)

Lemma append_assoc (a b c : string) : (a ++ b) ++ c = a ++ (b ++ c).
Proof.
  induction a as [|x a IH]; [done|].
  change (String x ((a ++ b) ++ c) = String x (a ++ (b ++ c))). by rewrite IH.
Qed.

Lemma walk_app acc l :
  ".." ∉ l → walk acc l = (rev acc ++ l)%list.
Proof.
  revert acc. induction l as [|s l IH]; intros acc H; simpl.
  - by rewrite app_nil_r.
  - apply not_elem_of_cons in H as [Hs Hl].
    assert (String.eqb s ".." = false) as -> by (apply String.eqb_neq; congruence).
    rewrite IH by done. simpl. by rewrite <- app_assoc.
Qed.

Lemma locate_relative l :
  ".." ∉ l → locate (mkPath Relative l) = (cwd ++ l)%list.
Proof.
  intros H. unfold locate, resolve. cbn [root parts].
  rewrite walk_app by done. by rewrite rev_involutive.
Qed.

Lemma no_dotdot_storage name : name ≠ ".." → ".." ∉ ["storage"; name].
Proof.
  intros Hn H%list_elem_of_In. simpl in H.
  destruct H as [H|[H|[]]]; [discriminate|by destruct Hn].
Qed.

Lemma teste_locate_storage : locate UmDriveTesteApp.STORAGE_DIR = teste_storage.
Proof.
  change UmDriveTesteApp.STORAGE_DIR with (mkPath Relative ["storage"]).
  apply locate_relative. intros H%list_elem_of_In. simpl in H.
  destruct H as [H|[]]. discriminate.
Qed.

Lemma teste_locate_metadata : locate UmDriveTesteApp.METADATA_FILE = teste_slot reserved.
Proof.
  change UmDriveTesteApp.METADATA_FILE with (mkPath Relative ["storage"; reserved]).
  by apply locate_relative, no_dotdot_storage.
Qed.

Lemma teste_locate_joinpath name :
  plain (chars name) → locate (joinpath UmDriveTesteApp.STORAGE_DIR name) = teste_target name.
Proof.
  intros Hp. unfold teste_target.
  destruct (String.eqb_spec name "") as [->|Hne].
  - apply teste_locate_storage.
  - rewrite joinpath_plain by done.
    change (parts UmDriveTesteApp.STORAGE_DIR ++ [name])%list with ["storage"; name].
    change (root UmDriveTesteApp.STORAGE_DIR) with Relative.
    by apply locate_relative, no_dotdot_storage, plain_not_dots.
Qed.

Lemma teste_to_string_joinpath name :
  plain (chars name) → name ≠ "" →
  to_string (joinpath UmDriveTesteApp.STORAGE_DIR name) = "storage/" ++ name.
Proof. intros Hp Hne. by rewrite joinpath_plain. Qed.

Lemma of_string_relative_slot s :
  plain (chars s) → s ≠ "" →
  of_string ("storage/" ++ s) = mkPath Relative ["storage"; s].
Proof.
  intros Hp Hne. unfold of_string. f_equal.
  unfold parse_parts. rewrite chars_app.
  change (chars "storage/") with (chars "storage" ++ ["/"%char])%list.
  cbn [split_on app chars list_ascii_of_string Ascii.eqb Bool.eqb rev].
  rewrite split_on_none by by apply plain_no_slash.
  cbn [map rev app]. rewrite text_chars.
  destruct (plain_not_dots s Hp) as [Hd _].
  apply String.eqb_neq in Hne, Hd.
  rewrite !filter_cons, !filter_nil. unfold is_component.
  rewrite Hne, Hd. done.
Qed.

Lemma teste_locate_str_joinpath name :
  plain (chars name) →
  locate_str (to_string (joinpath UmDriveTesteApp.STORAGE_DIR name)) = teste_target name.
Proof.
  intros Hp. unfold teste_target.
  destruct (String.eqb_spec name "") as [->|Hne].
  - apply teste_locate_storage.
  - rewrite teste_to_string_joinpath by done. unfold locate_str.
    rewrite of_string_relative_slot by done.
    by apply locate_relative, no_dotdot_storage, plain_not_dots.
Qed.

Lemma join_parts_snoc l x :
  l ≠ [] → join_parts (l ++ [x]) = join_parts l ++ "/" ++ x.
Proof.
  induction l as [|a l IH]; [done|]. intros _.
  destruct l as [|b l]; [done|].
  change (join_parts ((a :: b :: l) ++ [x]))
    with (a ++ "/" ++ join_parts ((b :: l) ++ [x])).
  rewrite IH by done.
  change (join_parts (a :: b :: l)) with (a ++ "/" ++ join_parts (b :: l)).
  by rewrite !append_assoc.
Qed.

(** The containment check of the development server passes for every
    sanitized name, wherever the server runs. *)
Lemma teste_is_within_directory_joinpath name :
  plain (chars name) →
  UmDriveTeste.is_within_directory (joinpath UmDriveTesteApp.STORAGE_DIR name) UmDriveTesteApp.STORAGE_DIR = true.
Proof.
  intros Hp. unfold UmDriveTeste.is_within_directory, resolved_str.
  fold (locate (joinpath UmDriveTesteApp.STORAGE_DIR name)). fold (locate UmDriveTesteApp.STORAGE_DIR).
  rewrite teste_locate_joinpath, teste_locate_storage by done.
  unfold teste_target. destruct (String.eqb_spec name "") as [->|Hne].
  - by rewrite String.eqb_refl.
  - apply orb_true_iff. right. unfold teste_slot, teste_storage.
    change (cwd ++ ["storage"; name])%list with (cwd ++ ["storage"] ++ [name])%list.
    rewrite app_assoc, join_parts_snoc by (by destruct cwd).
    set (parent := join_parts (cwd ++ ["storage"])).
    replace ("/" ++ parent ++ "/" ++ name) with (("/" ++ parent ++ "/") ++ name)
      by (by rewrite !append_assoc).
    replace (("/" ++ parent) ++ "/") with ("/" ++ parent ++ "/")
      by (by rewrite !append_assoc).
    rewrite (chars_app _ name). apply startswith_app.
Qed.

(** *** What [UmDriveTesteApp.send_from_directory] reads *)

Lemma plain_component s : plain (chars s) → s ≠ "" → component s.
Proof.
  intros Hp Hne. destruct (plain_not_dots s Hp) as [Hd Hdd].
  repeat split; try done. by apply plain_no_slash.
Qed.

Lemma split_on_sep sep cur a b :
  Forall (λ c, Ascii.eqb c sep = false) a →
  split_on sep cur (a ++ sep :: b) = (rev cur ++ a)%list :: split_on sep [] b.
Proof.
  revert cur. induction a as [|c a IH]; intros cur H; simpl.
  - by rewrite Ascii.eqb_refl, app_nil_r.
  - apply Forall_cons in H as [Hc Ha]. rewrite Hc, IH by done.
    simpl. by rewrite <- app_assoc.
Qed.

Lemma split_on_join_parts l :
  l ≠ [] → Forall slash_free l →
  split_on "/"%char [] (chars (join_parts l)) = map chars l.
Proof.
  induction l as [|c l IH]; [done|]. intros _ H.
  apply Forall_cons in H as [Hc Hl]. destruct l as [|d l].
  - simpl. by rewrite split_on_none.
  - rewrite chars_join_parts by done. rewrite split_on_sep by done.
    simpl. f_equal. by apply IH.
Qed.

Lemma filter_components l :
  Forall component l → filter (λ s, is_component s = true) l = l.
Proof.
  induction 1 as [|s l (Hne & Hd & _ & _) Hl IH]; [done|].
  rewrite filter_cons_True; [by rewrite IH|].
  unfold is_component. apply String.eqb_neq in Hne, Hd. by rewrite Hne, Hd.
Qed.

Lemma map_text_chars l : map text (map chars l) = l.
Proof. induction l as [|s l IH]; [done|]. simpl. by rewrite text_chars, IH. Qed.

Lemma component_slash_free l : Forall component l → Forall slash_free l.
Proof. intros H. eapply Forall_impl; [exact H|]. by intros s (_ & _ & _ & Hs). Qed.

Lemma component_no_dotdot l : Forall component l → ".." ∉ l.
Proof.
  intros H Hin. rewrite Forall_forall in H. by destruct (H _ Hin) as (_ & _ & ? & _).
Qed.

(** Reading back the text of an absolute path. *)
Lemma of_string_path_text l :
  Forall component l → of_string (path_text l) = mkPath Root l.
Proof.
  intros H. unfold of_string, path_text. destruct l as [|c l].
  { done. }
  f_equal.
  - apply Forall_cons in H as [(Hne & _ & _ & Hs) _].
    change (chars ("/" ++ join_parts (c :: l)))
      with ("/"%char :: chars (join_parts (c :: l))).
    assert (∃ x r, chars (join_parts (c :: l)) = x :: r ∧ Ascii.eqb x "/"%char = false)
      as (x & r & -> & Hx).
    { destruct (chars c) as [|x r] eqn:E.
      - destruct Hne. apply chars_inj. by rewrite E.
      - unfold slash_free in Hs. rewrite E in Hs. apply Forall_cons in Hs as [Hx _].
        destruct l as [|d l].
        + exists x, r. by rewrite <- E.
        + rewrite chars_join_parts by done. rewrite E. simpl. eauto. }
    simpl. destruct (Ascii.eqb_spec x "/"%char) as [->|Hn]; [done|].
    destruct x as [[] [] [] [] [] [] [] []]; try done.
  - unfold parse_parts.
    change (chars ("/" ++ join_parts (c :: l)))
      with ("/"%char :: chars (join_parts (c :: l))).
    cbn [split_on Ascii.eqb Bool.eqb rev map].
    rewrite split_on_join_parts by (done || by apply component_slash_free).
    rewrite map_text_chars. rewrite filter_cons_False by (by vm_compute).
    by apply filter_components.
Qed.

Lemma last_char_join_parts l c :
  Forall component l → l ≠ [] →
  last (chars (join_parts l)) = Some c → Ascii.eqb c "/"%char = false.
Proof.
  induction l as [|a l IH]; [done|]. intros H _ Hc.
  apply Forall_cons in H as [(Hne & _ & _ & Hs) Hl]. destruct l as [|b l].
  - simpl in Hc. unfold slash_free in Hs. rewrite Forall_forall in Hs.
    apply Hs. by apply last_Some_elem_of.
  - rewrite chars_join_parts in Hc by done.
    rewrite last_app_cons, last_cons in Hc.
    destruct (last (chars (join_parts (b :: l)))) as [x|] eqn:E.
    + injection Hc as ->. by apply IH.
    + exfalso. apply last_None in E.
      apply Forall_cons in Hl as [(Hb & _) _].
      destruct (chars b) as [|y r] eqn:Eb.
      * destruct Hb. apply chars_inj. by rewrite Eb.
      * destruct l; [simpl in E; congruence|].
        rewrite chars_join_parts, Eb in E by done. done.
Qed.

(** [os.path.join(root_path, "storage/" + name)] *)
Lemma join_root root s :
  Forall component root →
  Posixpath.join (path_text root) ("storage/" ++ s)
  = path_text (root ++ ["storage"; s]).
Proof.
  intros H. unfold Posixpath.join.
  change (Posixpath.isabs ("storage/" ++ s)) with false. cbv iota.
  change (String.eqb (path_text root) "") with false. cbn [orb].
  destruct root as [|c l].
  - done.
  - assert (Posixpath.endswith_slash (path_text (c :: l)) = false) as ->.
    { unfold Posixpath.endswith_slash, path_text.
      change (chars ("/" ++ join_parts (c :: l)))
        with ("/"%char :: chars (join_parts (c :: l))).
      rewrite last_cons.
      destruct (last (chars (join_parts (c :: l)))) as [x|] eqn:E.
      - by apply (last_char_join_parts (c :: l)).
      - exfalso. apply last_None in E.
        apply Forall_cons in H as [(Hc & _) _].
        destruct (chars c) as [|y r] eqn:Ec.
        + destruct Hc. apply chars_inj. by rewrite Ec.
        + destruct l; [simpl in E; congruence|].
          rewrite chars_join_parts, Ec in E by done. done. }
    unfold path_text.
    replace ((c :: l) ++ ["storage"; s])%list
      with (((c :: l) ++ ["storage"]) ++ [s])%list by (by rewrite <- app_assoc).
    rewrite (join_parts_snoc ((c :: l) ++ ["storage"]) s) by done.
    rewrite (join_parts_snoc (c :: l) "storage") by done.
    by rewrite !append_assoc.
Qed.

Lemma safe_join_storage s : plain (chars s) → s ≠ "" →
  WerkzeugSecurity.safe_join "storage" s = Some ("storage/" ++ s).
Proof.
  intros Hp Hne. unfold WerkzeugSecurity.safe_join.
  destruct (plain_not_dots s Hp) as [Hd Hdd].
  pose proof Hne as Hne'. apply String.eqb_neq in Hne', Hd, Hdd.
  rewrite Hne', normpath_plain by done.
  destruct (plain_head s Hp Hne) as (c & l & E & Hs & Hdot).
  unfold Posixpath.isabs. rewrite E. simpl. rewrite Hs, Hdd, Hdot. simpl.
  unfold Posixpath.join, Posixpath.isabs. rewrite E. simpl. by rewrite Hs.
Qed.

(** What the development server sends for a sanitized name: the regular
    file of that name in the directory [storage] below the application
    root. *)
Lemma teste_send_from_directory_run root fs s :
  Forall component root → plain (chars s) → s ≠ "" →
  UmDriveTesteApp.send_from_directory (path_text root) "storage" s fs
  = match fs !! served root s with
    | Some (File c _) => (inr {| status := 200; payload := Attachment s c |}, fs)
    | _ => (inl NotFound, fs)
    end.
Proof.
  intros Hr Hp Hne. unfold UmDriveTesteApp.send_from_directory.
  rewrite safe_join_storage by done. cbv beta iota zeta.
  rewrite join_root by done.
  assert (Hall : Forall component (root ++ ["storage"; s])).
  { apply Forall_app. split; [done|].
    repeat constructor; try done; by apply plain_component. }
  unfold locate_str. rewrite of_string_path_text by done.
  assert (Hloc : locate (mkPath Root (root ++ ["storage"; s])) = served root s).
  { unfold locate, resolve. cbn [Pathlib.root parts].
    apply (walk_app []). by apply component_no_dotdot. }
  rewrite Hloc.
  assert (Hst : FS.stat fs (served root s) = fs !! served root s).
  { unfold served. by destruct root. }
  assert (Hname : name (mkPath Root (root ++ ["storage"; s])) = s).
  { unfold name. cbn [parts].
    replace (root ++ ["storage"; s])%list with ((root ++ ["storage"]) ++ [s])%list
      by (by rewrite <- app_assoc).
    apply List.last_last. }
  rewrite Hname.
  unfold mbind, M_bind, FS.isfile, FS.read. rewrite Hst.
  destruct (fs !! served root s) as [[c t|]|] eqn:E; try done. by rewrite Hst.
Qed.

Lemma stat_teste_slot fs name : FS.stat fs (teste_slot name) = fs !! teste_slot name.
Proof. unfold teste_slot. by destruct cwd. Qed.

Lemma stat_teste_storage fs : FS.stat fs teste_storage = fs !! teste_storage.
Proof. unfold teste_storage. by destruct cwd. Qed.

Lemma teste_download_file_run root fs raw :
  Forall component root → secure_filename raw ≠ "" →
  UmDriveTesteApp.serve (UmDriveTesteApp.download_file (path_text root) raw) fs
  = (match fs !! teste_slot (secure_filename raw) with
     | None =>
         {| status := 404; payload := Json (error_json "Ficheiro não encontrado") |}
     | Some _ =>
         match fs !! served root (secure_filename raw) with
         | Some (File c _) =>
             {| status := 200; payload := Attachment (secure_filename raw) c |}
         | _ => {| status := 404; payload := ErrorPage |}
         end
     end, fs).
Proof.
  intros Hr Hne. pose proof (sanitized_plain raw) as Hp.
  unfold UmDriveTesteApp.serve, UmDriveTesteApp.download_file, path_exists.
  rewrite teste_is_within_directory_joinpath, teste_locate_joinpath by done.
  unfold teste_target. apply String.eqb_neq in Hne as Hne'. rewrite Hne'.
  change (to_string UmDriveTesteApp.STORAGE_DIR) with "storage".
  unfold mbind, M_bind, FS.exists_. rewrite stat_teste_slot.
  destruct (fs !! teste_slot (secure_filename raw)) as [n|] eqn:E.
  - rewrite bool_decide_eq_true_2 by eauto. cbn [negb].
    rewrite teste_send_from_directory_run by done.
    by destruct (fs !! served root (secure_filename raw)) as [[]|].
  - by rewrite bool_decide_eq_false_2 by (by intros [? ?]).
Qed.

End with_runtime.

Section in_app.
Context `{RT : Runtime}.
Hypothesis Hcwd : cwd = ["app"].

(** *** The development server run in [/app] *)

Lemma teste_storage_app : teste_storage = storage.
Proof. unfold teste_storage. by rewrite Hcwd. Qed.

Lemma teste_slot_app name : teste_slot name = slot name.
Proof. unfold teste_slot. by rewrite Hcwd. Qed.

Lemma teste_target_app name : teste_target name = target name.
Proof. unfold teste_target, target. by rewrite teste_storage_app, teste_slot_app. Qed.

Lemma teste_load_metadata : UmDriveTesteApp.load_metadata = load_metadata.
Proof.
  unfold UmDriveTesteApp.load_metadata, load_metadata.
  by rewrite teste_locate_metadata, locate_metadata, teste_slot_app.
Qed.

Lemma teste_save_metadata md now :
  UmDriveTesteApp.save_metadata md now = save_metadata md now.
Proof.
  unfold UmDriveTesteApp.save_metadata, save_metadata.
  by rewrite teste_locate_metadata, locate_metadata, teste_slot_app.
Qed.

Lemma teste_on_exception e : UmDriveTesteApp.on_exception e = on_exception e.
Proof. by destruct e. Qed.

Lemma teste_serve view fs : UmDriveTesteApp.serve view fs = serve view fs.
Proof.
  unfold UmDriveTesteApp.serve, serve.
  destruct (view fs) as [[e|r] fs1]; [|done]. by rewrite teste_on_exception.
Qed.

Lemma same_outcome_refl a : same_outcome a a.
Proof. by repeat split. Qed.

Lemma same_outcome_error m1 m2 st fs :
  400 ≤ st →
  same_outcome ({| status := st; payload := Json (error_json m1) |}, fs)
               ({| status := st; payload := Json (error_json m2) |}, fs).
Proof. intros H. split; [done|]. split; [done|]. simpl. intros. lia. Qed.

Lemma teste_startup now fs : UmDriveTesteApp.startup now fs = startup now fs.
Proof.
  unfold UmDriveTesteApp.startup, startup.
  rewrite teste_locate_storage, teste_locate_metadata, locate_storage, locate_metadata.
  rewrite teste_storage_app, teste_slot_app.
  change (slot reserved) with metadata_slot.
  unfold mbind, M_bind. destruct (FS.mkdir storage fs) as [[e|[]] fs1]; [done|].
  destruct (FS.exists_ metadata_slot fs1) as [[e|b] fs2]; [done|].
  destruct (negb b); [|done]. by rewrite teste_save_metadata.
Qed.

Lemma teste_upload_file req now fs :
  content_length req ≤ UmDriveTesteApp.MAX_CONTENT_LENGTH →
  same_outcome (UmDriveTesteApp.serve (UmDriveTesteApp.upload_file req now) fs)
               (serve (upload_file req now) fs).
Proof.
  intros Hlen. rewrite teste_serve.
  unfold serve, UmDriveTesteApp.upload_file, upload_file,
    UmDriveTesteApp.request_files, request_files.
  destruct (Z.ltb_spec UmDriveTesteApp.MAX_CONTENT_LENGTH (content_length req)); [lia|].
  destruct (Z.ltb_spec MAX_CONTENT_LENGTH (content_length req)).
  { unfold UmDriveTesteApp.MAX_CONTENT_LENGTH, MAX_CONTENT_LENGTH in *. lia. }
  rewrite !bind_ret_l. destruct (files req !! "file") as [f|].
  - destruct (String.eqb (filename f) ""); [by apply same_outcome_error|].
    unfold save. rewrite teste_locate_str_joinpath, locate_str_joinpath
      by apply sanitized_plain.
    rewrite teste_target_app, teste_load_metadata.
    unfold mbind, M_bind.
    destruct (FS.write _ _ _ fs) as [[e|[]] fs1]; [apply same_outcome_refl|].
    destruct (load_metadata fs1) as [[e|md] fs2]; [apply same_outcome_refl|].
    destruct (py_setdefault md _ _ fs2) as [[e|md'] fs3]; [apply same_outcome_refl|].
    rewrite teste_save_metadata. apply same_outcome_refl.
  - by apply same_outcome_error.
Qed.

Lemma teste_download_file raw fs :
  same_outcome (UmDriveTesteApp.serve (UmDriveTesteApp.download_file "/app" raw) fs)
               (serve (download_file raw) fs).
Proof.
  destruct (String.eqb_spec (secure_filename raw) "") as [He|Hne].
  - rewrite teste_serve. unfold serve, UmDriveTesteApp.download_file, download_file.
    rewrite He. unfold path_exists.
    change (joinpath UmDriveTesteApp.STORAGE_DIR "") with UmDriveTesteApp.STORAGE_DIR.
    change (joinpath STORAGE_DIR "") with STORAGE_DIR.
    rewrite teste_locate_storage, locate_storage, teste_storage_app.
    change (is_within_directory STORAGE_DIR STORAGE_DIR) with true.
    assert (UmDriveTeste.is_within_directory UmDriveTesteApp.STORAGE_DIR
              UmDriveTesteApp.STORAGE_DIR = true) as ->.
    { unfold UmDriveTeste.is_within_directory. by rewrite String.eqb_refl. }
    change (to_string UmDriveTesteApp.STORAGE_DIR) with "storage".
    change (to_string STORAGE_DIR) with "/app/storage".
    unfold mbind, M_bind. destruct (FS.exists_ storage fs) as [[e|b] fs1];
      [apply same_outcome_refl|].
    destruct (negb b); [by apply same_outcome_error|]. cbn [negb].
    apply same_outcome_refl.
  - change "/app" with (path_text ["app"]).
    rewrite teste_download_file_run, download_file_run; try done.
    + rewrite teste_slot_app.
      change (served ["app"] (secure_filename raw)) with (slot (secure_filename raw)).
      destruct (fs !! slot (secure_filename raw)) as [[c t|]|];
        (apply same_outcome_refl || by apply same_outcome_error).
    + repeat constructor; try done.
Qed.

Lemma teste_delete_file raw now fs :
  same_outcome (UmDriveTesteApp.serve (UmDriveTesteApp.delete_file raw now) fs)
               (serve (delete_file raw now) fs).
Proof.
  pose proof (sanitized_plain raw) as Hp.
  rewrite teste_serve. unfold serve, UmDriveTesteApp.delete_file, delete_file.
  unfold path_exists.
  rewrite teste_is_within_directory_joinpath, teste_locate_joinpath,
    locate_joinpath, teste_target_app by done.
  rewrite teste_load_metadata.
  unfold mbind, M_bind. destruct (FS.exists_ _ fs) as [[e|b] fs1];
    [apply same_outcome_refl|].
  destruct (negb b); [by apply same_outcome_error|]. cbn [negb].
  destruct (FS.unlink _ fs1) as [[e|[]] fs2]; [apply same_outcome_refl|].
  destruct (load_metadata fs2) as [[e|md] fs3]; [apply same_outcome_refl|].
  destruct (py_pop md _ fs3) as [[e|md'] fs4]; [apply same_outcome_refl|].
  rewrite teste_save_metadata. apply same_outcome_refl.
Qed.

Lemma teste_metadata raw meth body now fs :
  same_outcome (UmDriveTesteApp.serve (UmDriveTesteApp.metadata raw meth body now) fs)
               (serve (metadata raw meth body now) fs).
Proof.
  rewrite teste_serve. unfold serve, UmDriveTesteApp.metadata, metadata.
  rewrite teste_load_metadata.
  unfold mbind, M_bind. destruct (load_metadata fs) as [[e|md] fs1];
    [apply same_outcome_refl|].
  destruct meth; [apply same_outcome_refl|].
  destruct (get_json body fs1) as [[e|data] fs2]; [apply same_outcome_refl|].
  destruct (negb (is_dict data)); [by apply same_outcome_error|].
  destruct (py_setitem md _ data fs2) as [[e|md'] fs3]; [apply same_outcome_refl|].
  rewrite teste_save_metadata. apply same_outcome_refl.
Qed.

(** *** The listing *)

Lemma bind_cases {A B} (m : M A) (k : A → M B) fs :
  (m ≫= k) fs
  = match m fs with
    | (inr a, fs1) => k a fs1
    | (inl e, fs1) => (inl e, fs1)
    end.
Proof. reflexivity. Qed.

Lemma filterM_fmap {A B} (f : A → B) (keep : B → M bool) l fs :
  filterM keep (map f l) fs
  = (kept ← filterM (λ a, keep (f a)) l; mret (map f kept)) fs.
Proof.
  revert fs. induction l as [|a l IH]; intros fs; [done|]. simpl.
  unfold mbind, M_bind in *. destruct (keep (f a) fs) as [[e|b] fs1]; [done|].
  rewrite IH. destruct (filterM _ l fs1) as [[e|kept] fs2]; [done|].
  by destruct b.
Qed.

Lemma filterM_ext {A} (k1 k2 : A → M bool) l fs :
  (∀ a fs', k1 a fs' = k2 a fs') → filterM k1 l fs = filterM k2 l fs.
Proof.
  intros H. revert fs. induction l as [|a l IH]; intros fs; [done|]. simpl.
  unfold mbind, M_bind. rewrite H. destruct (k2 a fs) as [[e|b] fs1]; [done|].
  by rewrite IH.
Qed.

Lemma forM_fmap {A B C} (f : A → B) (g : B → M C) l fs :
  forM g (map f l) fs = forM (λ a, g (f a)) l fs.
Proof.
  revert fs. induction l as [|a l IH]; intros fs; [done|]. simpl.
  unfold mbind, M_bind. destruct (g (f a) fs) as [[e|y] fs1]; [done|].
  by rewrite IH.
Qed.

Lemma forM_ext {A B} (g1 g2 : A → M B) l fs :
  (∀ a fs', g1 a fs' = g2 a fs') → forM g1 l fs = forM g2 l fs.
Proof.
  intros H. revert fs. induction l as [|a l IH]; intros fs; [done|]. simpl.
  unfold mbind, M_bind. rewrite H. destruct (g2 a fs) as [[e|y] fs1]; [done|].
  by rewrite IH.
Qed.

Lemma locate_teste_child n : locate (teste_child n) = locate (child n).
Proof. unfold locate, resolve, teste_child, child. cbn [root parts]. by rewrite Hcwd. Qed.

Lemma teste_file_info n fs :
  UmDriveTesteApp.file_info (teste_child n) fs = file_info (child n) fs.
Proof.
  unfold UmDriveTesteApp.file_info, file_info.
  by rewrite locate_teste_child, teste_load_metadata.
Qed.

Lemma teste_iterdir fs :
  iterdir UmDriveTesteApp.STORAGE_DIR fs
  = match FS.listdir storage fs with
    | (inr names, fs1) => (inr (map teste_child names), fs1)
    | (inl e, fs1) => (inl e, fs1)
    end.
Proof.
  unfold iterdir. rewrite teste_locate_storage, teste_storage_app by done.
  unfold mbind, M_bind.
  destruct (FS.listdir storage fs) as [[e|names] fs1]; reflexivity.
Qed.

Lemma umdrive_iterdir fs :
  iterdir STORAGE_DIR fs
  = match FS.listdir storage fs with
    | (inr names, fs1) => (inr (map child names), fs1)
    | (inl e, fs1) => (inl e, fs1)
    end.
Proof.
  unfold iterdir. change (FS.listdir (locate STORAGE_DIR)) with (FS.listdir storage).
  unfold mbind, M_bind.
  destruct (FS.listdir storage fs) as [[e|names] fs1]; reflexivity.
Qed.

Lemma teste_kept names fs :
  filterM (λ p, b ← is_file p;
                mret (b && negb (String.eqb (name p)
                                            (name UmDriveTesteApp.METADATA_FILE))))
          (map teste_child names) fs
  = match filterM shown names fs with
    | (inr kept, fs1) => (inr (map teste_child kept), fs1)
    | (inl e, fs1) => (inl e, fs1)
    end.
Proof.
  rewrite filterM_fmap. unfold mbind at 1. unfold M_bind at 1.
  rewrite (filterM_ext _ shown); [done|].
  intros a fs'. unfold shown, is_file. by rewrite locate_teste_child.
Qed.

Lemma umdrive_kept names fs :
  filterM (λ p, b ← is_file p;
                mret (b && negb (String.eqb (name p) (name METADATA_FILE))))
          (map child names) fs
  = match filterM shown names fs with
    | (inr kept, fs1) => (inr (map child kept), fs1)
    | (inl e, fs1) => (inl e, fs1)
    end.
Proof.
  rewrite filterM_fmap. unfold mbind at 1. unfold M_bind at 1.
  by rewrite (filterM_ext _ shown).
Qed.

Lemma teste_infos kept fs :
  forM UmDriveTesteApp.file_info (map teste_child kept) fs
  = forM file_info (map child kept) fs.
Proof.
  rewrite !forM_fmap. apply forM_ext. apply teste_file_info.
Qed.

Lemma teste_list_files fs :
  UmDriveTesteApp.serve UmDriveTesteApp.list_files fs = serve list_files fs.
Proof.
  rewrite teste_serve by done. unfold serve. f_equal.
  unfold UmDriveTesteApp.list_files, list_files.
  rewrite !(bind_cases (iterdir _)), teste_iterdir, umdrive_iterdir.
  destruct (FS.listdir storage fs) as [[e|names] fs1]; [done|].
  rewrite !(bind_cases (filterM _ _)), teste_kept, umdrive_kept.
  destruct (filterM shown names fs1) as [[e|kept] fs2]; [done|].
  rewrite !(bind_cases (forM _ _)), teste_infos.
  by destruct (forM file_info (map child kept) fs2) as [[e|files] fs3].
Qed.

End in_app.
End TesteFacts.

(** * Further properties of the two servers

    Properties of [src/umdrive/umdrive.py] and [src/umdrive/umDrive_Teste.py]
    beyond those of the specification: what the handlers do at their edges,
    what they keep, how they compose. *)

Module ExampleFacts.
Import UmDrive Store Examples MoreExamples Conditions.

Lemma reference_codec : @codec_round_trip reference_runtime.
Proof. exact Claims.reference_round_trip. Qed.

Lemma fs0_proper : proper_names fs0.
Proof.
  apply Claims.proper_names_decide.
  apply (bool_decide_unpack _). vm_compute. exact I.
Qed.

Lemma fs0_consistent : @consistent reference_runtime fs0.
Proof. split; [exact Claims.fs0_well_formed|exact fs0_proper]. Qed.

Lemma report_is_stored : stored_file fs_report (secure_filename "report.pdf").
Proof. by exists "0123456789", 1. Qed.

End ExampleFacts.

Module Coverage.
Import Text TextFacts Werkzeug WerkzeugFacts Pathlib PathFacts Store.
Import UmDrive ServiceFacts Examples MoreExamples Effects Conditions.
Import SanitizeFacts CoverageFacts TesteStore TesteFacts ExampleFacts.
Import Interleaving Schedules.

(** ** The metadata document and the start of the server *)

(** X1. [load_metadata] never raises and never writes: it returns what the
    metadata document parses to, and the empty dict when the document is
    missing, is a directory, or does not parse. *)
Theorem load_metadata_never_raises (RT : Runtime) (fs : filesystem) :
  ∃ v, load_metadata fs = (inr v, fs)
       ∧ match fs !! metadata_slot with
         | Some (File c _) => v = default empty_dict (json_loads c)
         | _ => v = empty_dict
         end.
Proof.
  exists (current_metadata fs). split; [apply load_metadata_run|].
  unfold current_metadata. by destruct (fs !! metadata_slot) as [[]|].
Qed.

(** X2. What [save_metadata] writes, [load_metadata] reads back: for every
    value the serializer round-trips, in a store whose root exists and
    whose metadata document is not a directory, saving succeeds, changes
    the metadata document only, and the load that follows returns the
    value. *)
Theorem save_then_load (RT : Runtime) (fs : filesystem) (v : JSON) (now : Z) :
  json_loads (json_dumps v) = Some v →
  storage_ready fs → fs !! metadata_slot ≠ Some Dir →
  ∃ fs', save_metadata v now fs = (inr (), fs')
         ∧ load_metadata fs' = (inr v, fs')
         ∧ ∀ p, p ≠ metadata_slot → fs' !! p = fs !! p.
Proof.
  intros Hv Hs Hd. eexists. split; [by apply save_metadata_run|]. split.
  - by rewrite load_metadata_run, current_metadata_saved.
  - intros p Hp. by rewrite lookup_insert_ne.
Qed.

(** X2 for a nested document in the store of a fresh server. *)
Lemma save_then_load_at_nested_document :
  let v := nested_document in
  @json_loads reference_runtime (json_dumps v) = Some v
  ∧ @storage_ready fs0 ∧ fs0 !! metadata_slot ≠ Some Dir
  ∧ ∃ fs', save_metadata v 1 fs0 = (inr (), fs')
           ∧ load_metadata fs' = (inr v, fs')
           ∧ ∀ p, p ≠ metadata_slot → fs' !! p = fs0 !! p.
Proof.
  intros v.
  assert (H1 : @json_loads reference_runtime (json_dumps v) = Some v)
    by apply JsonFacts.loads_dumps.
  assert (H2 : storage_ready fs0) by (by vm_compute).
  assert (H3 : fs0 !! metadata_slot ≠ Some Dir) by (by vm_compute).
  split; [exact H1|]. split; [exact H2|]. split; [exact H3|].
  exact (save_then_load reference_runtime fs0 v 1 H1 H2 H3).
Defined.

(** X3. Starting the server where [/app] exists and nothing lies at or
    below [/app/storage] creates the storage root and an empty metadata
    document, touches nothing outside the storage root, and leaves a
    well-formed store in which [list] answers with no line. *)
Theorem startup_prepares_an_empty_store (RT : Runtime) (fs : filesystem) (now : Z) :
  json_loads (json_dumps empty_dict) = Some empty_dict →
  fs !! ["app"] = Some Dir → (∀ p, inside_storage p → fs !! p = None) →
  proper_names fs →
  ∃ fs', startup now fs = (inr (), fs')
         ∧ well_formed fs'
         ∧ fs' !! metadata_slot = Some (File (json_dumps empty_dict) now)
         ∧ (∀ p, ¬ inside_storage p → fs' !! p = fs !! p)
         ∧ serve list_files fs' = ({| status := 200; payload := Listing [] |}, fs').
Proof.
  intros Hc Ha Hnone Hp.
  assert (Hs : fs !! storage = None) by (apply Hnone; by exists []).
  assert (Hm : fs !! metadata_slot = None) by (apply Hnone; by exists [reserved]).
  set (fs1 := <[storage := Dir]> fs).
  set (fs' := <[metadata_slot := File (json_dumps empty_dict) now]> fs1).
  assert (Hr1 : storage_ready fs1) by apply lookup_insert_eq.
  assert (Hm1 : fs1 !! metadata_slot ≠ Some Dir).
  { unfold fs1. rewrite lookup_insert_ne by done. by rewrite Hm. }
  assert (Hwf : well_formed fs').
  { split; [|split].
    - unfold storage_ready, fs'. by rewrite lookup_insert_ne.
    - unfold fs'. by rewrite lookup_insert_eq.
    - unfold fs'. by rewrite current_metadata_saved. }
  exists fs'. split; [|split; [done|split; [apply lookup_insert_eq|split]]].
  - rewrite startup_run, Hs, Ha, Hm.
    rewrite bool_decide_eq_false_2 by (by intros [? ?]).
    by apply save_metadata_run.
  - intros p Hout. unfold fs', fs1.
    rewrite !lookup_insert_ne; [done| |].
    + intros E. apply Hout. exists []. by rewrite <- E.
    + intros E. apply Hout. exists [reserved]. by rewrite <- E.
  - assert (Hp' : proper_names fs').
    { intros p [n Hn]. unfold fs', fs1 in Hn.
      destruct (decide (p = metadata_slot)) as [->|]; [by apply slot_has_no_dotdot|].
      rewrite lookup_insert_ne in Hn by done.
      destruct (decide (p = storage)) as [->|]; [apply storage_has_no_dotdot|].
      rewrite lookup_insert_ne in Hn by done. apply Hp. eauto. }
    destruct Hwf as (Hr & Hd & Hdict).
    rewrite list_files_run by done. do 3 f_equal.
    assert (Hf : List.filter (listed fs') (FS.entries fs' storage) = []); [|by rewrite Hf].
    apply filter_none. intros n Hin. unfold listed.
    destruct (String.eqb_spec n reserved) as [->|Hn].
    { by destruct (fs' !! slot reserved) as [[]|]. }
    assert (fs' !! slot n = None) as ->; [|done].
    unfold fs', fs1. rewrite !lookup_insert_ne.
    + apply Hnone. by exists [n].
    + done.
    + intros [= ?]. done.
Qed.

(** X3 on a machine on which only [/app] exists. *)
Lemma startup_prepares_an_empty_store_at_bare :
  @json_loads reference_runtime (json_dumps empty_dict) = Some empty_dict
  ∧ bare !! ["app"] = Some Dir ∧ (∀ p, inside_storage p → bare !! p = None)
  ∧ proper_names bare
  ∧ ∃ fs', startup 0 bare = (inr (), fs')
           ∧ well_formed fs'
           ∧ fs' !! metadata_slot = Some (File (json_dumps empty_dict) 0)
           ∧ (∀ p, ¬ inside_storage p → fs' !! p = bare !! p)
           ∧ serve list_files fs' = ({| status := 200; payload := Listing [] |}, fs').
Proof.
  assert (H1 : @json_loads reference_runtime (json_dumps empty_dict) = Some empty_dict)
    by reflexivity.
  assert (H2 : bare !! ["app"] = Some Dir) by reflexivity.
  assert (H3 : ∀ p, inside_storage p → bare !! p = None).
  { intros p [rest ->]. unfold bare. by apply lookup_singleton_ne. }
  assert (H4 : proper_names bare).
  { intros p [n Hn]. unfold bare in Hn.
    apply lookup_singleton_Some in Hn as [<- _].
    intros H%list_elem_of_In. simpl in H. intuition discriminate. }
  split; [exact H1|]. split; [exact H2|]. split; [exact H3|]. split; [exact H4|].
  exact (startup_prepares_an_empty_store reference_runtime bare 0 H1 H2 H3 H4).
Defined.

(** X4. Starting the server again changes nothing: whenever [startup]
    succeeds, a second [startup] on the store it left succeeds and leaves
    that store as it is; in particular an existing metadata document is
    never rewritten. *)
Theorem startup_twice_is_startup_once (RT : Runtime) (fs fs' : filesystem)
    (now later : Z) :
  startup now fs = (inr (), fs') → startup later fs' = (inr (), fs').
Proof.
  intros H. rewrite startup_run in H.
  assert (Hgoal : storage_ready fs' ∧ is_Some (fs' !! metadata_slot)).
  { destruct (fs !! storage) as [[c t|]|] eqn:Es; try done.
    - destruct (bool_decide (is_Some (fs !! metadata_slot))) eqn:Eb.
      + apply bool_decide_eq_true_1 in Eb. by injection H as <-.
      + apply save_metadata_done in H as (-> & Hr & _).
        split; [unfold storage_ready; by rewrite lookup_insert_ne|].
        rewrite lookup_insert_eq. eauto.
    - destruct (fs !! ["app"]) as [[c t|]|] eqn:Ea; try done.
      destruct (bool_decide (is_Some (fs !! metadata_slot))) eqn:Eb.
      + apply bool_decide_eq_true_1 in Eb. injection H as <-.
        split; [apply lookup_insert_eq|]. by rewrite lookup_insert_ne.
      + apply save_metadata_done in H as (-> & Hr & _).
        split; [unfold storage_ready; by rewrite lookup_insert_ne|].
        rewrite lookup_insert_eq. eauto. }
  destruct Hgoal as [Hr Hm]. rewrite startup_run, Hr.
  by rewrite bool_decide_eq_true_2.
Qed.

(** X4 on a machine on which only [/app] exists. *)
Lemma startup_twice_at_bare :
  startup 0 bare = (inr (), fs0) ∧ startup 7 fs0 = (inr (), fs0).
Proof.
  assert (H : startup 0 bare = (inr (), fs0)) by reflexivity.
  split; [exact H|].
  exact (startup_twice_is_startup_once reference_runtime bare fs0 0 7 H).
Defined.

(** ** Upload *)

(** X5. An upload is refused, and the store left as it was, when the
    declared length exceeds the limit (413, whatever the form holds), when
    the form has no field [file] (400), and when the file's name is empty
    (400). *)
Theorem refused_upload_changes_nothing (RT : Runtime) (fs : filesystem)
    (req : upload_request) (now : Z) :
  (MAX_CONTENT_LENGTH < content_length req →
   serve (upload_file req now) fs
   = ({| status := 413; payload := Json (error_json "Ficheiro demasiado grande") |}, fs))
  ∧ (content_length req ≤ MAX_CONTENT_LENGTH → files req !! "file" = None →
     serve (upload_file req now) fs
     = ({| status := 400; payload := Json (error_json "Nenhum ficheiro enviado") |}, fs))
  ∧ (content_length req ≤ MAX_CONTENT_LENGTH →
     ∀ f, files req !! "file" = Some f → filename f = "" →
     serve (upload_file req now) fs
     = ({| status := 400; payload := Json (error_json "Nome de ficheiro vazio") |}, fs)).
Proof.
  unfold serve, upload_file, request_files. split; [|split].
  - intros H. by destruct (Z.ltb_spec MAX_CONTENT_LENGTH (content_length req)); [|lia].
  - intros H Hf. destruct (Z.ltb_spec MAX_CONTENT_LENGTH (content_length req)); [lia|].
    by rewrite bind_ret_l, Hf.
  - intros H f Hf Hn. destruct (Z.ltb_spec MAX_CONTENT_LENGTH (content_length req)); [lia|].
    by rewrite bind_ret_l, Hf, Hn.
Qed.

(** X5 for a request one byte above the limit, a form without the field,
    and a file without a name. *)
Lemma refused_upload_examples :
  serve (upload_file (upload_of "a.txt" "x" (MAX_CONTENT_LENGTH + 1)) 1) fs0
  = ({| status := 413; payload := Json (error_json "Ficheiro demasiado grande") |}, fs0)
  ∧ serve (upload_file {| content_length := 10; files := ∅ |} 1) fs0
    = ({| status := 400; payload := Json (error_json "Nenhum ficheiro enviado") |}, fs0)
  ∧ serve (upload_file (upload_of "" "x" 1) 1) fs0
    = ({| status := 400; payload := Json (error_json "Nome de ficheiro vazio") |}, fs0).
Proof.
  split; [|split].
  - apply (proj1 (refused_upload_changes_nothing reference_runtime fs0
                    (upload_of "a.txt" "x" (MAX_CONTENT_LENGTH + 1)) 1)).
    cbn [content_length upload_of]. lia.
  - apply (proj1 (proj2 (refused_upload_changes_nothing reference_runtime fs0
                           {| content_length := 10; files := ∅ |} 1))).
    + by vm_compute.
    + reflexivity.
  - apply (proj2 (proj2 (refused_upload_changes_nothing reference_runtime fs0
                           (upload_of "" "x" 1) 1))
             ltac:(by vm_compute) {| filename := ""; stream := "x" |}).
    + apply lookup_upload_of.
    + reflexivity.
Defined.

(** X6. For every name whose sanitized form is neither empty nor the name
    of the metadata document, is short enough to name an entry and is not
    the name of a directory, in a well-formed store: the upload is
    answered 201 with the sanitized name; the download that follows sends
    the uploaded bytes under that name; the record of the name is the one
    it had (the empty one if it had none); the records of all other names
    and all other files are as they were. *)
Theorem upload_then_download_unreserved (RT : Runtime) (fs : filesystem)
    (raw data : string) (len now : Z) :
  let safe := secure_filename raw in
  let put := upload_file (upload_of raw data len) now in
  codec_round_trip → well_formed fs →
  len ≤ MAX_CONTENT_LENGTH → raw ≠ "" → safe ≠ "" → safe ≠ reserved →
  fits safe → fs !! slot safe ≠ Some Dir →
  answer put fs = {| status := 201; payload := Json (message_json "uploaded" safe) |}
  ∧ answer (download_file raw) (after put fs)
    = {| status := 200; payload := Attachment safe data |}
  ∧ record_of (after put fs) safe = record_of fs safe
  ∧ (∀ other, other ≠ safe → record_of (after put fs) other = record_of fs other)
  ∧ (∀ p, p ≠ slot safe → p ≠ metadata_slot → after put fs !! p = fs !! p).
Proof.
  intros safe put Hc Hwf Hlen Hraw Hsafe Hres _ Hd.
  pose proof Hwf as (Hs & Hmd & Hm).
  destruct (current_metadata fs) as [| | | | |m] eqn:E; try done.
  split; [|split; [|split; [|split]]].
  - unfold answer, put.
    by rewrite (upload_file_well_formed fs raw data len now m).
  - by apply put_then_get.
  - by apply (reupload_keeps_record fs raw data len now).
  - by apply (reupload_keeps_record fs raw data len now (record_of fs safe)).
  - intros p Hp1 Hp2. unfold after, put. apply touches_serve with
      (ps := [target safe; metadata_slot]).
    + pose proof (upload_file_touches (upload_of raw data len) now) as H.
      by rewrite lookup_upload_of in H.
    + unfold target. apply String.eqb_neq in Hsafe as ->. by apply not_elem_of_pair.
Qed.

(** X6 for [My Report.pdf] in the store of a fresh server. *)
Lemma upload_then_download_at_fresh_store :
  let put := upload_file (upload_of "My Report.pdf" "0123456789" 10) 1 in
  @codec_round_trip reference_runtime ∧ @well_formed reference_runtime fs0
  ∧ 10 ≤ MAX_CONTENT_LENGTH ∧ "My Report.pdf" ≠ ""
  ∧ secure_filename "My Report.pdf" ≠ "" ∧ secure_filename "My Report.pdf" ≠ reserved
  ∧ fits (secure_filename "My Report.pdf")
  ∧ fs0 !! slot (secure_filename "My Report.pdf") ≠ Some Dir
  ∧ answer put fs0
    = {| status := 201; payload := Json (message_json "uploaded" "My_Report.pdf") |}
  ∧ answer (download_file "My Report.pdf") (after put fs0)
    = {| status := 200; payload := Attachment "My_Report.pdf" "0123456789" |}.
Proof.
  intros put.
  assert (H1 : @codec_round_trip reference_runtime) by apply Claims.reference_round_trip.
  assert (H2 : @well_formed reference_runtime fs0) by apply Claims.fs0_well_formed.
  assert (H3 : 10 ≤ MAX_CONTENT_LENGTH) by (by vm_compute).
  assert (H4 : "My Report.pdf" ≠ "") by done.
  assert (H5 : secure_filename "My Report.pdf" ≠ "") by (by vm_compute).
  assert (H6 : secure_filename "My Report.pdf" ≠ reserved) by (by vm_compute).
  assert (H7 : fits (secure_filename "My Report.pdf")) by (vm_compute; lia).
  assert (H8 : fs0 !! slot (secure_filename "My Report.pdf") ≠ Some Dir)
    by (by vm_compute).
  pose proof (upload_then_download_unreserved reference_runtime fs0
                "My Report.pdf" "0123456789" 10 1 H1 H2 H3 H4 H5 H6 H7 H8)
    as (Ha & Hb & _).
  repeat (split; [assumption|]). exact Hb.
Defined.

(** X7. After an upload, in a well-formed store with no entry called
    [..], under a name whose sanitized form is neither empty nor the name
    of the metadata document, is short enough to name an entry and is not
    the name of a directory, [list] shows a line for the
    sanitized name with the number of uploaded bytes as size, the time of
    the upload as modification time and the record the name had before
    (the empty one if none) as metadata; the names listed are that name
    and the ones listed before. *)
Theorem uploaded_file_is_listed (RT : Runtime) (fs : filesystem)
    (raw data : string) (len now : Z) :
  let safe := secure_filename raw in
  let fs' := after (upload_file (upload_of raw data len) now) fs in
  codec_round_trip → well_formed fs → proper_names fs →
  len ≤ MAX_CONTENT_LENGTH → raw ≠ "" → safe ≠ "" → safe ≠ reserved →
  fits safe → fs !! slot safe ≠ Some Dir →
  ∃ lines,
    serve list_files fs' = ({| status := 200; payload := Listing lines |}, fs')
    ∧ {| fe_name := safe;
         fe_size := Z.of_nat (String.length data);
         fe_mtime := now;
         fe_download_url := "/api/files/" ++ safe ++ "/download";
         fe_metadata := record_of fs safe |} ∈ lines
    ∧ ∀ name, name ∈ fe_name <$> lines
              ↔ name = safe ∨ (stored_file fs name ∧ name ≠ reserved).
Proof.
  intros safe fs' Hc Hwf Hp Hlen Hraw Hsafe Hres _ Hd.
  pose proof Hwf as (Hs & Hmd & Hm).
  destruct (current_metadata fs) as [| | | | |m] eqn:E; try done.
  assert (Hne : slot safe ≠ metadata_slot) by by apply slot_not_metadata.
  assert (E' : fs' = <[metadata_slot :=
                         File (json_dumps (JObj (with_default safe m))) now]>
                       (saved fs safe data now)).
  { unfold fs', after. by rewrite (upload_file_well_formed fs raw data len now m). }
  assert (Hs' : storage_ready fs').
  { rewrite E'. unfold storage_ready, saved. by rewrite !lookup_insert_ne. }
  assert (Hp' : proper_names fs').
  { rewrite E'. apply proper_names_insert; [|by apply slot_has_no_dotdot].
    apply proper_names_insert; [done|]. apply slot_has_no_dotdot, sanitized_not_dotdot. }
  assert (Hm' : is_dict (current_metadata fs') = true).
  { rewrite E'. by rewrite current_metadata_saved. }
  assert (Hf' : fs' !! slot safe = Some (File data now)).
  { rewrite E'. rewrite lookup_insert_ne by done. apply lookup_insert_eq. }
  assert (Hother : ∀ n, n ≠ safe → n ≠ reserved → fs' !! slot n = fs !! slot n).
  { intros n H1 H2. rewrite E'. unfold saved.
    rewrite !lookup_insert_ne; [done| |]; intros [= ?]; done. }
  destruct (list_files_lines fs' Hs' Hp' Hm') as (lines & names & Hrun & Hperm & Hnames).
  exists lines. split; [done|]. split.
  - rewrite Hperm. apply list_elem_of_fmap. exists safe. split.
    + unfold entry_for. rewrite Hf'. f_equal.
      rewrite E'. rewrite record_of_saved by done.
      rewrite with_default_lookup. unfold record_of. by rewrite E.
    + apply Hnames. split; [by exists data, now|done].
  - intros n. rewrite Hperm, Claims.fe_name_entry_for, Hnames.
    unfold stored_file. destruct (decide (n = safe)) as [->|Hn].
    + split; [by left|]. intros _. split; [by exists data, now|done].
    + split.
      * intros [Hst Hr]. right. by rewrite <- Hother.
      * intros [?|[Hst Hr]]; [done|]. by rewrite Hother.
Qed.

(** X7 for [My Report.pdf] in the store of a fresh server. *)
Lemma uploaded_file_is_listed_at_fresh_store :
  let fs' := after (upload_file (upload_of "My Report.pdf" "0123456789" 10) 1) fs0 in
  @codec_round_trip reference_runtime ∧ @well_formed reference_runtime fs0
  ∧ proper_names fs0 ∧ fits (secure_filename "My Report.pdf")
  ∧ ∃ lines,
      serve list_files fs' = ({| status := 200; payload := Listing lines |}, fs')
      ∧ {| fe_name := "My_Report.pdf";
           fe_size := 10;
           fe_mtime := 1;
           fe_download_url := "/api/files/My_Report.pdf/download";
           fe_metadata := empty_dict |} ∈ lines.
Proof.
  intros fs'.
  split; [exact reference_codec|]. split; [exact Claims.fs0_well_formed|].
  assert (Hfit : fits (secure_filename "My Report.pdf")) by (vm_compute; lia).
  split; [exact fs0_proper|]. split; [exact Hfit|].
  destruct (uploaded_file_is_listed reference_runtime fs0 "My Report.pdf"
              "0123456789" 10 1 reference_codec Claims.fs0_well_formed fs0_proper
              ltac:(by vm_compute) ltac:(done) ltac:(by vm_compute)
              ltac:(by vm_compute) Hfit ltac:(by vm_compute))
    as (lines & Hrun & Hin & _).
  exists lines. split; [exact Hrun|exact Hin].
Defined.

(** X8. Names with one sanitized form are one file: when, in a
    well-formed store, two uploads are made under names that are sanitized
    to the same name (neither empty nor the name of the metadata document,
    short enough to name an entry, not the name of a directory), the
    second replaces the bytes of the first, and a download under either
    name sends the bytes of the second. *)
Theorem names_sanitized_alike_share_a_file (RT : Runtime) (fs : filesystem)
    (first second data1 data2 : string) (len1 len2 now1 now2 : Z) :
  let safe := secure_filename first in
  let fs1 := after (upload_file (upload_of first data1 len1) now1) fs in
  let fs2 := after (upload_file (upload_of second data2 len2) now2) fs1 in
  secure_filename second = safe →
  well_formed fs → len1 ≤ MAX_CONTENT_LENGTH → len2 ≤ MAX_CONTENT_LENGTH →
  first ≠ "" → second ≠ "" → safe ≠ "" → safe ≠ reserved →
  fits safe → fs !! slot safe ≠ Some Dir →
  fs2 !! slot safe = Some (File data2 now2)
  ∧ answer (download_file first) fs2
    = {| status := 200; payload := Attachment safe data2 |}
  ∧ answer (download_file second) fs2
    = {| status := 200; payload := Attachment safe data2 |}.
Proof.
  intros safe fs1 fs2 Hsame (Hs & Hmd & Hm) Hlen1 Hlen2 H1 H2 Hsafe Hres _ Hd.
  destruct (current_metadata fs) as [| | | | |m] eqn:E; try done.
  assert (Hne : slot safe ≠ metadata_slot) by by apply slot_not_metadata.
  assert (E1 : fs1 = <[metadata_slot :=
                         File (json_dumps (JObj (with_default safe m))) now1]>
                       (saved fs safe data1 now1)).
  { unfold fs1, after. by rewrite (upload_file_well_formed fs first data1 len1 now1 m). }
  assert (Hs1 : storage_ready fs1).
  { rewrite E1. unfold storage_ready, saved. by rewrite !lookup_insert_ne. }
  assert (Hd1 : fs1 !! slot (secure_filename second) ≠ Some Dir).
  { rewrite Hsame, E1. rewrite lookup_insert_ne by done.
    unfold saved. by rewrite lookup_insert_eq. }
  assert (Hfile : fs2 !! slot safe = Some (File data2 now2)).
  { rewrite <- Hsame. unfold fs2, after.
    apply (upload_file_stores fs1 (upload_of second data2 len2)
             {| filename := second; stream := data2 |} now2 Hlen2
             (lookup_upload_of second data2 len2) H2);
      cbn [filename]; rewrite ?Hsame; try done. by rewrite <- Hsame. }
  split; [done|]. unfold answer. split.
  - rewrite download_file_run by done. fold safe. by rewrite Hfile.
  - rewrite download_file_run by by rewrite Hsame. by rewrite Hsame, Hfile.
Qed.

(** X8 for [a b.txt] and [a_b.txt] in the store of a fresh server. *)
Lemma names_sanitized_alike_at_fresh_store :
  let fs1 := after (upload_file (upload_of "a b.txt" "one" 3) 1) fs0 in
  let fs2 := after (upload_file (upload_of "a_b.txt" "two" 3) 2) fs1 in
  secure_filename "a_b.txt" = secure_filename "a b.txt"
  ∧ @well_formed reference_runtime fs0 ∧ fits (secure_filename "a b.txt")
  ∧ answer (download_file "a b.txt") fs2
    = {| status := 200; payload := Attachment "a_b.txt" "two" |}.
Proof.
  intros fs1 fs2.
  assert (H : secure_filename "a_b.txt" = secure_filename "a b.txt") by reflexivity.
  assert (Hfit : fits (secure_filename "a b.txt")) by (vm_compute; lia).
  split; [exact H|]. split; [exact Claims.fs0_well_formed|]. split; [exact Hfit|].
  exact (proj1 (proj2 (names_sanitized_alike_share_a_file reference_runtime fs0
                         "a b.txt" "a_b.txt" "one" "two" 3 3 1 2 H
                         Claims.fs0_well_formed
                         ltac:(by vm_compute) ltac:(by vm_compute)
                         ltac:(done) ltac:(done) ltac:(by vm_compute)
                         ltac:(by vm_compute) Hfit ltac:(by vm_compute)))).
Defined.

(** X9. The handlers keep the store well-formed. From a well-formed store
    in which no entry is called [..], every upload whose sanitized name
    is not that of the metadata document, every delete and every metadata
    request, whatever they answer, leave such a store again; downloads and
    listings leave the store as it is. *)
Theorem handlers_keep_the_store_well_formed (RT : Runtime) (fs : filesystem)
    (now : Z) :
  codec_round_trip → consistent fs →
  (∀ req,
     (∀ f, files req !! "file" = Some f → secure_filename (filename f) ≠ reserved) →
     consistent (after (upload_file req now) fs))
  ∧ (∀ raw, consistent (after (delete_file raw now) fs))
  ∧ (∀ raw meth body, consistent (after (metadata raw meth body now) fs))
  ∧ (∀ raw, after (download_file raw) fs = fs)
  ∧ after list_files fs = fs.
Proof.
  intros Hc [Hwf Hp]. pose proof Hwf as (Hs & Hmd & Hm).
  destruct (current_metadata fs) as [| | | | |m] eqn:E; try done.
  split; [|split; [|split; [|split]]].
  - intros req Hreq. unfold after.
    destruct (upload_file_cases req now fs Hs) as [->|(f & Hlen & Hf & Hraw & Hsafe & Hd)];
      [done|].
    set (safe := secure_filename (filename f)) in *.
    assert (Hne : slot safe ≠ metadata_slot) by (apply slot_not_metadata; by apply Hreq).
    rewrite (upload_file_run fs req f now m); try done.
    + cbn [snd]. fold safe. apply consistent_saved; [done| |].
      * unfold storage_ready, saved. by rewrite lookup_insert_ne.
      * apply proper_names_insert; [done|].
        apply slot_has_no_dotdot, sanitized_not_dotdot.
    + fold safe. unfold saved. by rewrite lookup_insert_ne.
    + fold safe. unfold saved. by rewrite current_metadata_frame.
  - intros raw. unfold after.
    destruct (delete_file_cases raw now fs Hs) as [->|(Hsafe & c & t & Hf)]; [done|].
    set (safe := secure_filename raw) in *.
    assert (Hready : storage_ready (delete (slot safe) fs)).
    { unfold storage_ready. by rewrite lookup_delete_ne. }
    destruct (decide (slot safe = metadata_slot)) as [Heq|Hne].
    + rewrite (delete_file_run fs raw now c t ∅); try done.
      * cbn [snd]. fold safe. apply consistent_saved; [done..|].
        by apply proper_names_delete.
      * fold safe. by rewrite Heq, lookup_delete_eq.
      * fold safe. unfold current_metadata. by rewrite Heq, lookup_delete_eq.
    + rewrite (delete_file_run fs raw now c t m); try done.
      * cbn [snd]. fold safe. apply consistent_saved; [done..|].
        by apply proper_names_delete.
      * fold safe. by rewrite lookup_delete_ne.
      * fold safe. by rewrite current_metadata_delete.
  - intros raw meth body. unfold after. destruct meth.
    + by rewrite (metadata_get_run fs raw body now m).
    + destruct body as [v|].
      * destruct v as [| | | | |obj];
          try (by rewrite metadata_post_rejected).
        rewrite (metadata_post_run fs raw obj now m) by done.
        by apply consistent_saved.
      * unfold serve, metadata, mbind, M_bind. by rewrite load_metadata_run.
  - intros raw. apply download_file_reads.
  - apply reads_only_serve, reads_only_list_files.
Qed.

(** X9 in the store of a fresh server. *)
Lemma handlers_keep_the_store_well_formed_at_fresh_store :
  @codec_round_trip reference_runtime ∧ @consistent reference_runtime fs0
  ∧ (∀ raw, consistent (after (delete_file raw 1) fs0))
  ∧ (∀ raw meth body, consistent (after (metadata raw meth body 1) fs0)).
Proof.
  split; [exact reference_codec|]. split; [exact fs0_consistent|].
  destruct (handlers_keep_the_store_well_formed reference_runtime fs0 1
              reference_codec fs0_consistent) as (_ & Hdel & Hmeta & _).
  split; [exact Hdel|exact Hmeta].
Defined.

(** ** Delete *)

(** X10. For every name whose sanitized form is neither empty nor the name
    of the metadata document and that names a stored file, in a well-formed
    store: delete is answered 200 with the sanitized name; the file and
    the record of the name are gone; the records of all other names and
    all other files are as they were; a second delete is answered 404 and
    changes nothing. *)
Theorem delete_removes_file_and_record (RT : Runtime) (fs : filesystem)
    (raw : string) (now : Z) :
  let safe := secure_filename raw in
  let del := delete_file raw now in
  codec_round_trip → well_formed fs →
  safe ≠ "" → safe ≠ reserved → stored_file fs safe →
  answer del fs = {| status := 200; payload := Json (message_json "deleted" safe) |}
  ∧ after del fs !! slot safe = None
  ∧ record_of (after del fs) safe = empty_dict
  ∧ (∀ other, other ≠ safe → record_of (after del fs) other = record_of fs other)
  ∧ (∀ p, p ≠ slot safe → p ≠ metadata_slot → after del fs !! p = fs !! p)
  ∧ (∀ later,
       serve (delete_file raw later) (after del fs)
       = ({| status := 404; payload := Json (error_json "Não encontrado") |},
          after del fs)).
Proof.
  intros safe del Hc (Hs & Hmd & Hm) Hsafe Hres (c & t & Hf).
  destruct (current_metadata fs) as [| | | | |m] eqn:E; try done.
  assert (Hne : slot safe ≠ metadata_slot) by by apply slot_not_metadata.
  assert (Hrun : serve del fs
                 = ({| status := 200; payload := Json (message_json "deleted" safe) |},
                    <[metadata_slot := File (json_dumps (JObj (delete safe m))) now]>
                      (delete (slot safe) fs))).
  { apply (delete_file_run fs raw now c t m); try done.
    - fold safe. by rewrite lookup_delete_ne.
    - fold safe. by rewrite current_metadata_delete. }
  assert (Hgone : after del fs !! slot safe = None).
  { unfold after. rewrite Hrun. cbn [snd].
    rewrite lookup_insert_ne by done. apply lookup_delete_eq. }
  unfold answer. split; [by rewrite Hrun|]. split; [done|].
  split; [|split; [|split]].
  - unfold after. rewrite Hrun. cbn [snd]. rewrite record_of_saved by done.
    by rewrite lookup_delete_eq.
  - intros other Ho. unfold after. rewrite Hrun. cbn [snd].
    rewrite record_of_saved by done. rewrite lookup_delete_ne by done.
    unfold record_of. by rewrite E.
  - intros p H1 H2. unfold after. rewrite Hrun. cbn [snd].
    rewrite lookup_insert_ne by done. by rewrite lookup_delete_ne.
  - intros later. by apply delete_file_missing.
Qed.

(** X10 for [report.pdf] in a store with two uploaded files. *)
Lemma delete_removes_file_and_record_at_report_store :
  let del := delete_file "report.pdf" 4 in
  @codec_round_trip reference_runtime ∧ @well_formed reference_runtime fs_report
  ∧ stored_file fs_report (secure_filename "report.pdf")
  ∧ record_of fs_report "report.pdf" = JObj tag_final
  ∧ answer del fs_report
    = {| status := 200; payload := Json (message_json "deleted" "report.pdf") |}
  ∧ after del fs_report !! slot "report.pdf" = None
  ∧ record_of (after del fs_report) "report.pdf" = empty_dict.
Proof.
  intros del.
  split; [exact reference_codec|]. split; [exact Claims.fs_report_well_formed|].
  split; [exact report_is_stored|]. split; [reflexivity|].
  destruct (delete_removes_file_and_record reference_runtime fs_report "report.pdf" 4
              reference_codec Claims.fs_report_well_formed
              ltac:(by vm_compute) ltac:(by vm_compute) report_is_stored)
    as (Ha & Hb & Hc & _).
  split; [exact Ha|]. split; [exact Hb|exact Hc].
Defined.

(** X11. After the delete of a stored file whose sanitized name is neither
    empty nor the name of the metadata document, [list] shows the names it
    showed before, without the deleted one. *)
Theorem deleted_file_is_no_longer_listed (RT : Runtime) (fs : filesystem)
    (raw : string) (now : Z) :
  let safe := secure_filename raw in
  let fs' := after (delete_file raw now) fs in
  codec_round_trip → well_formed fs → proper_names fs →
  safe ≠ "" → safe ≠ reserved → stored_file fs safe →
  ∃ lines,
    serve list_files fs' = ({| status := 200; payload := Listing lines |}, fs')
    ∧ ∀ name, name ∈ fe_name <$> lines
              ↔ name ≠ safe ∧ stored_file fs name ∧ name ≠ reserved.
Proof.
  intros safe fs' Hc (Hs & Hmd & Hm) Hp Hsafe Hres (c & t & Hf).
  destruct (current_metadata fs) as [| | | | |m] eqn:E; try done.
  assert (Hne : slot safe ≠ metadata_slot) by by apply slot_not_metadata.
  assert (E' : fs' = <[metadata_slot := File (json_dumps (JObj (delete safe m))) now]>
                       (delete (slot safe) fs)).
  { unfold fs', after. rewrite (delete_file_run fs raw now c t m); try done.
    - fold safe. by rewrite lookup_delete_ne.
    - fold safe. by rewrite current_metadata_delete. }
  assert (Hs' : storage_ready fs').
  { rewrite E'. unfold storage_ready.
    rewrite lookup_insert_ne by done. by rewrite lookup_delete_ne. }
  assert (Hp' : proper_names fs').
  { rewrite E'. apply proper_names_insert; [|by apply slot_has_no_dotdot].
    by apply proper_names_delete. }
  assert (Hm' : is_dict (current_metadata fs') = true).
  { rewrite E'. by rewrite current_metadata_saved. }
  assert (Hgone : fs' !! slot safe = None).
  { rewrite E'. rewrite lookup_insert_ne by done. apply lookup_delete_eq. }
  assert (Hother : ∀ n, n ≠ safe → n ≠ reserved → fs' !! slot n = fs !! slot n).
  { intros n H1 H2. rewrite E'.
    rewrite lookup_insert_ne by (intros [= ?]; done).
    apply lookup_delete_ne. intros [= ?]. done. }
  destruct (list_files_lines fs' Hs' Hp' Hm') as (lines & names & Hrun & Hperm & Hnames).
  exists lines. split; [done|].
  intros n. rewrite Hperm, Claims.fe_name_entry_for, Hnames.
  unfold stored_file. destruct (decide (n = safe)) as [->|Hn].
  - rewrite Hgone. split; [by intros [(? & ? & ?) _]|by intros [? _]].
  - split.
    + intros [Hst Hr]. by rewrite <- Hother.
    + intros (_ & Hst & Hr). by rewrite Hother.
Qed.

(** X11 for [report.pdf] in a store with two uploaded files. *)
Lemma deleted_file_is_no_longer_listed_at_report_store :
  let fs' := after (delete_file "report.pdf" 4) fs_report in
  @codec_round_trip reference_runtime ∧ @well_formed reference_runtime fs_report
  ∧ proper_names fs_report ∧ stored_file fs_report (secure_filename "report.pdf")
  ∧ ∃ lines,
      serve list_files fs' = ({| status := 200; payload := Listing lines |}, fs')
      ∧ ∀ name, name ∈ fe_name <$> lines
                ↔ name ≠ secure_filename "report.pdf"
                  ∧ stored_file fs_report name ∧ name ≠ reserved.
Proof.
  intros fs'.
  split; [exact reference_codec|]. split; [exact Claims.fs_report_well_formed|].
  split; [exact Claims.fs_report_proper|]. split; [exact report_is_stored|].
  exact (deleted_file_is_no_longer_listed reference_runtime fs_report "report.pdf" 4
           reference_codec Claims.fs_report_well_formed Claims.fs_report_proper
           ltac:(by vm_compute) ltac:(by vm_compute) report_is_stored).
Defined.

(** X12. A delete that finds no file to remove changes nothing.  For a
    name that is not empty after sanitization: when it is short enough to
    name an entry and has no entry in the storage root the delete is
    answered 404, and when its entry is a directory the delete is answered
    500. *)
Theorem delete_without_a_file_changes_nothing (RT : Runtime) (fs : filesystem)
    (raw : string) (now : Z) :
  let safe := secure_filename raw in
  (safe ≠ "" → fits safe → fs !! slot safe = None →
   serve (delete_file raw now) fs
   = ({| status := 404; payload := Json (error_json "Não encontrado") |}, fs))
  ∧ (safe ≠ "" → fs !! slot safe = Some Dir →
     serve (delete_file raw now) fs
     = ({| status := 500; payload := ErrorPage |}, fs)).
Proof.
  intros safe. split.
  - intros Hsafe _. by apply delete_file_missing.
  - intros Hsafe Hd. apply delete_file_directory. fold safe. unfold target.
    apply String.eqb_neq in Hsafe as ->. by rewrite stat_slot.
Qed.

(** X12 for a name with no entry in the store of a fresh server. *)
Lemma delete_without_a_file_at_fresh_store :
  secure_filename "nothing.txt" ≠ "" ∧ fits (secure_filename "nothing.txt")
  ∧ fs0 !! slot (secure_filename "nothing.txt") = None
  ∧ serve (delete_file "nothing.txt" 1) fs0
    = ({| status := 404; payload := Json (error_json "Não encontrado") |}, fs0).
Proof.
  assert (H1 : secure_filename "nothing.txt" ≠ "") by (by vm_compute).
  assert (H2 : fits (secure_filename "nothing.txt")) by (vm_compute; lia).
  assert (H3 : fs0 !! slot (secure_filename "nothing.txt") = None) by reflexivity.
  split; [exact H1|]. split; [exact H2|]. split; [exact H3|].
  exact (proj1 (delete_without_a_file_changes_nothing reference_runtime fs0
                  "nothing.txt" 1) H1 H2 H3).
Defined.

(** X13. No handler removes or replaces a directory: whatever the request
    and the store, every node that was a directory before an upload, a
    delete or a metadata request is a directory afterwards; the storage
    root in particular. *)
Theorem handlers_leave_directories_alone (RT : Runtime) (fs : filesystem)
    (p : list string) :
  fs !! p = Some Dir →
  (∀ req now, after (upload_file req now) fs !! p = Some Dir)
  ∧ (∀ raw now, after (delete_file raw now) fs !! p = Some Dir)
  ∧ (∀ raw meth body now, after (metadata raw meth body now) fs !! p = Some Dir).
Proof.
  intros Hp. unfold after. split; [|split]; intros.
  - by apply keeps_dirs_serve; [apply keeps_dirs_upload_file|].
  - by apply keeps_dirs_serve; [apply keeps_dirs_delete_file|].
  - by apply keeps_dirs_serve; [apply keeps_dirs_metadata|].
Qed.

(** X13 for the storage root of a fresh server. *)
Lemma handlers_leave_the_storage_root_alone :
  fs0 !! storage = Some Dir
  ∧ (∀ req now, after (upload_file req now) fs0 !! storage = Some Dir)
  ∧ (∀ raw now, after (delete_file raw now) fs0 !! storage = Some Dir)
  ∧ (∀ raw meth body now, after (metadata raw meth body now) fs0 !! storage = Some Dir).
Proof.
  assert (H : fs0 !! storage = Some Dir) by reflexivity.
  split; [exact H|].
  exact (handlers_leave_directories_alone reference_runtime fs0 storage H).
Defined.

(** ** Download and names *)



(** X15. A stored file whose name is sanitized to itself is downloaded
    under its own name: where NFKD normalisation leaves ASCII text as it
    is, for every regular file of the storage root whose name is made of
    the characters [A-Za-z0-9_.-] and neither starts nor ends with a dot
    or an underscore, the download of that name sends the content of that
    file. *)
Theorem tidy_name_downloads_its_file (RT : Runtime) (fs : filesystem)
    (n c : string) (t : Z) :
  (∀ s, Forall (λ c, is_ascii c = true) (chars s) → nfkd s = s) →
  tidy (chars n) → n ≠ "" → fs !! slot n = Some (File c t) →
  secure_filename n = n
  ∧ serve (download_file n) fs
    = ({| status := 200; payload := Attachment n c |}, fs).
Proof.
  intros Hn Ht Hne Hf.
  assert (E : secure_filename n = n).
  { unfold secure_filename, Werkzeug.secure_filename. rewrite Hn.
    - rewrite secure_chars_fixed by done. apply text_chars.
    - destruct Ht as [[Hk _] _]. eapply Forall_impl; [exact Hk|apply keep_ascii]. }
  split; [done|]. rewrite download_file_run by by rewrite E. by rewrite E, Hf.
Qed.

(** X15 for [report.pdf] in a store with two uploaded files. *)
Lemma tidy_name_downloads_at_report_store :
  (∀ s, Forall (λ c, is_ascii c = true) (chars s) → @nfkd reference_runtime s = s)
  ∧ tidy (chars "report.pdf")
  ∧ fs_report !! slot "report.pdf" = Some (File "0123456789" 1)
  ∧ serve (download_file "report.pdf") fs_report
    = ({| status := 200; payload := Attachment "report.pdf" "0123456789" |}, fs_report).
Proof.
  assert (H1 : ∀ s, Forall (λ c, is_ascii c = true) (chars s)
                    → @nfkd reference_runtime s = s) by done.
  assert (H2 : tidy (chars "report.pdf")).
  { split; [split|].
    - repeat constructor.
    - reflexivity.
    - intros c [= <-]. reflexivity. }
  assert (H3 : fs_report !! slot "report.pdf" = Some (File "0123456789" 1))
    by reflexivity.
  split; [exact H1|]. split; [exact H2|]. split; [exact H3|].
  exact (proj2 (tidy_name_downloads_its_file reference_runtime fs_report
                  "report.pdf" "0123456789" 1 H1 H2 ltac:(done) H3)).
Defined.



(** ** Metadata *)

(** X17. When the metadata document holds JSON that is not an object,
    [getRecord] and [setRecord] are answered 500 for every name and leave
    the store as it was.  For a name whose sanitized form is neither empty
    nor the name of the metadata document, upload and delete are answered
    500 after the file was written or removed: an upload (of a name short
    enough to name an entry and not that of a directory, with the storage
    root in place) leaves the uploaded file behind, the delete of a stored
    file leaves the file removed, and the document stays as it is. *)
Theorem document_that_is_not_an_object (RT : Runtime) (fs : filesystem)
    (raw : string) (now : Z) :
  let safe := secure_filename raw in
  is_dict (current_metadata fs) = false →
  (∀ body, serve (metadata raw GET body now) fs
           = ({| status := 500; payload := ErrorPage |}, fs))
  ∧ (∀ obj, serve (metadata raw POST (Some (JObj obj)) now) fs
            = ({| status := 500; payload := ErrorPage |}, fs))
  ∧ (∀ data len,
       safe ≠ "" → safe ≠ reserved → fits safe →
       len ≤ MAX_CONTENT_LENGTH → raw ≠ "" →
       storage_ready fs → fs !! slot safe ≠ Some Dir →
       serve (upload_file (upload_of raw data len) now) fs
       = ({| status := 500; payload := ErrorPage |}, saved fs safe data now))
  ∧ (∀ c t,
       safe ≠ "" → safe ≠ reserved → fs !! slot safe = Some (File c t) →
       serve (delete_file raw now) fs
       = ({| status := 500; payload := ErrorPage |}, delete (slot safe) fs)).
Proof.
  intros safe Hm. split; [|split; [|split]].
  - intros body. by apply metadata_get_failed.
  - intros obj. by apply metadata_post_failed.
  - intros data len Hsafe Hres _ Hlen Hraw Hs Hd.
    assert (Hne : slot safe ≠ metadata_slot) by by apply slot_not_metadata.
    apply (upload_file_partial fs (upload_of raw data len)
             {| filename := raw; stream := data |} now
             Hlen (lookup_upload_of raw data len) Hraw Hsafe Hs Hd).
    cbn [filename stream]. fold safe. unfold saved.
    by rewrite current_metadata_frame.
  - intros c t Hsafe Hres Hf.
    assert (Hne : slot safe ≠ metadata_slot) by by apply slot_not_metadata.
    apply (delete_file_partial fs raw now c t); try done.
    fold safe. by rewrite current_metadata_delete.
Qed.

(** X17 in the store a fresh server is left with by the upload of a file
    called [metadata.json] that holds the JSON array [[]]. *)
Lemma document_that_is_not_an_object_after_upload :
  let fs := fs_array in
  @current_metadata reference_runtime fs = JArr []
  ∧ (∀ body, serve (metadata "a.txt" GET body 2) fs
             = ({| status := 500; payload := ErrorPage |}, fs))
  ∧ (∀ obj, serve (metadata "a.txt" POST (Some (JObj obj)) 2) fs
            = ({| status := 500; payload := ErrorPage |}, fs))
  ∧ serve (upload_file (upload_of "a.txt" "abc" 3) 2) fs
    = ({| status := 500; payload := ErrorPage |}, saved fs "a.txt" "abc" 2).
Proof.
  intros fs.
  assert (H0 : @current_metadata reference_runtime fs = JArr []) by reflexivity.
  assert (H1 : is_dict (@current_metadata reference_runtime fs) = false) by reflexivity.
  pose proof (document_that_is_not_an_object reference_runtime fs "a.txt" 2 H1)
    as (Ha & Hb & Hc & _).
  split; [exact H0|]. split; [exact Ha|]. split; [exact Hb|].
  apply (Hc "abc" 3).
  - by vm_compute.
  - by vm_compute.
  - vm_compute. lia.
  - by vm_compute.
  - done.
  - reflexivity.
  - by vm_compute.
Defined.

(** X18. The handlers of GET requests never write: in every store,
    whatever they answer, [list], [getRecord] and download leave the file
    system exactly as it was. *)
Theorem get_requests_never_write (RT : Runtime) (fs : filesystem) :
  after list_files fs = fs
  ∧ (∀ raw body now, after (metadata raw GET body now) fs = fs)
  ∧ (∀ raw, after (download_file raw) fs = fs).
Proof.
  unfold after. split; [|split].
  - apply reads_only_serve, reads_only_list_files.
  - intros. apply reads_only_serve, reads_only_metadata_get.
  - intros. apply download_file_reads.
Qed.

(** X19. [setRecord] does not ask whether the file exists: in a
    well-formed store, for a name with no entry in the storage root whose
    sanitized form is neither empty nor the name of the metadata document
    and is short enough to name an entry, it is answered 200 and creates
    no file, and the upload under that name that follows is answered 201
    and keeps the record that was set. *)
Theorem record_set_before_upload_is_kept (RT : Runtime) (fs : filesystem)
    (raw data : string) (obj : gmap string JSON) (len now later : Z) :
  let safe := secure_filename raw in
  let set := metadata raw POST (Some (JObj obj)) now in
  let put := upload_file (upload_of raw data len) later in
  codec_round_trip → well_formed fs →
  raw ≠ "" → safe ≠ "" → safe ≠ reserved → fits safe →
  fs !! slot safe = None → len ≤ MAX_CONTENT_LENGTH →
  status (answer set fs) = 200
  ∧ after set fs !! slot safe = None
  ∧ status (answer put (after set fs)) = 201
  ∧ after put (after set fs) !! slot safe = Some (File data later)
  ∧ record_of (after put (after set fs)) safe = JObj obj.
Proof.
  intros safe set put Hc (Hs & Hmd & Hm) Hraw Hsafe Hres _ Hnone Hlen.
  destruct (current_metadata fs) as [| | | | |m] eqn:E; try done.
  assert (Hne : slot safe ≠ metadata_slot) by by apply slot_not_metadata.
  assert (Hset : serve set fs
                 = ({| status := 200;
                       payload := Json (message_json "metadata updated" safe) |},
                    <[metadata_slot :=
                        File (json_dumps (JObj (<[safe := JObj obj]> m))) now]> fs))
    by by apply metadata_post_run.
  set (fs1 := after set fs).
  assert (E1 : fs1 = <[metadata_slot :=
                         File (json_dumps (JObj (<[safe := JObj obj]> m))) now]> fs).
  { unfold fs1, after. by rewrite Hset. }
  assert (Hwf1 : well_formed fs1) by (rewrite E1; by apply well_formed_saved).
  assert (Hnone1 : fs1 !! slot safe = None).
  { rewrite E1. by rewrite lookup_insert_ne. }
  assert (Hd1 : fs1 !! slot safe ≠ Some Dir) by by rewrite Hnone1.
  assert (Hr1 : record_of fs1 safe = JObj obj).
  { rewrite E1, record_of_saved by done. by rewrite lookup_insert_eq. }
  destruct (reupload_keeps_record fs1 raw data len later (JObj obj))
    as (Hfile & Hrec & _); try done.
  unfold answer. rewrite Hset. split; [done|]. split; [done|]. split; [|done].
  pose proof Hwf1 as (Hs1 & Hmd1 & Hm1).
  destruct (current_metadata fs1) as [| | | | |m1] eqn:E1'; try done.
  unfold put. by rewrite (upload_file_well_formed fs1 raw data len later m1).
Qed.

(** X19 for [a.txt] in the store of a fresh server. *)
Lemma record_set_before_upload_at_fresh_store :
  let set := metadata "a.txt" POST (Some (JObj tag_final)) 1 in
  let put := upload_file (upload_of "a.txt" "abc" 3) 2 in
  @codec_round_trip reference_runtime ∧ @well_formed reference_runtime fs0
  ∧ fits (secure_filename "a.txt")
  ∧ fs0 !! slot (secure_filename "a.txt") = None
  ∧ status (answer set fs0) = 200
  ∧ after put (after set fs0) !! slot "a.txt" = Some (File "abc" 2)
  ∧ record_of (after put (after set fs0)) "a.txt" = JObj tag_final.
Proof.
  intros set put.
  split; [exact reference_codec|]. split; [exact Claims.fs0_well_formed|].
  assert (Hfit : fits (secure_filename "a.txt")) by (vm_compute; lia).
  split; [exact Hfit|]. split; [reflexivity|].
  destruct (record_set_before_upload_is_kept reference_runtime fs0 "a.txt" "abc"
              tag_final 3 1 2 reference_codec Claims.fs0_well_formed
              ltac:(done) ltac:(by vm_compute) ltac:(by vm_compute) Hfit
              ltac:(reflexivity) ltac:(by vm_compute))
    as (Ha & _ & _ & Hb & Hc).
  split; [exact Ha|]. split; [exact Hb|exact Hc].
Defined.

(** X20. [setRecord] changes one record and nothing else: in a well-formed
    store the records of all other names are as they were, and no node
    other than the metadata document changes. *)
Theorem set_record_changes_one_record (RT : Runtime) (fs : filesystem)
    (raw : string) (obj : gmap string JSON) (now : Z) :
  let safe := secure_filename raw in
  let set := metadata raw POST (Some (JObj obj)) now in
  codec_round_trip → well_formed fs →
  record_of (after set fs) safe = JObj obj
  ∧ (∀ other, other ≠ safe → record_of (after set fs) other = record_of fs other)
  ∧ (∀ p, p ≠ metadata_slot → after set fs !! p = fs !! p).
Proof.
  intros safe set Hc (Hs & Hmd & Hm).
  destruct (current_metadata fs) as [| | | | |m] eqn:E; try done.
  unfold after, set. rewrite (metadata_post_run fs raw obj now m) by done.
  cbn [snd]. fold safe. split; [|split].
  - rewrite record_of_saved by done. by rewrite lookup_insert_eq.
  - intros other Ho. rewrite record_of_saved by done.
    rewrite lookup_insert_ne by done. unfold record_of. by rewrite E.
  - intros p Hp. by rewrite lookup_insert_ne.
Qed.

(** X20 for [Notes.txt] in a store with two uploaded files. *)
Lemma set_record_changes_one_record_at_report_store :
  let set := metadata "Notes.txt" POST (Some (JObj tag_final)) 4 in
  @codec_round_trip reference_runtime ∧ @well_formed reference_runtime fs_report
  ∧ record_of (after set fs_report) "Notes.txt" = JObj tag_final
  ∧ (∀ other, other ≠ "Notes.txt" →
       record_of (after set fs_report) other = record_of fs_report other).
Proof.
  intros set.
  split; [exact reference_codec|]. split; [exact Claims.fs_report_well_formed|].
  destruct (set_record_changes_one_record reference_runtime fs_report "Notes.txt"
              tag_final 4 reference_codec Claims.fs_report_well_formed)
    as (Ha & Hb & _).
  split; [exact Ha|exact Hb].
Defined.

(** X21. Two [setRecord] requests for two names that are interleaved lose
    one update, in every well-formed store and whatever the records: in
    each of the four schedules in which both threads load the document
    before either saves it, both requests are answered 200, the record of
    the thread that saves last is stored, and the other name keeps the
    record it had before. *)
Theorem interleaved_set_records_keep_the_last_one (RT : Runtime)
    (fs : filesystem) (a b : set_record) (schedule : list thread) :
  let winner := match last_turn schedule with First => a | Second => b end in
  let loser := match last_turn schedule with First => b | Second => a end in
  codec_round_trip → well_formed fs → interleaved schedule →
  secure_filename (sr_name a) ≠ secure_filename (sr_name b) →
  ∃ sa sb fs',
    run schedule a b Pending Pending fs = (sa, sb, fs')
    ∧ both_succeeded sa sb
    ∧ record_of fs' (secure_filename (sr_name winner)) = JObj (sr_obj winner)
    ∧ record_of fs' (secure_filename (sr_name loser))
      = record_of fs (secure_filename (sr_name loser)).
Proof.
  intros winner loser Hc (Hs & Hd & Hm) Hi Hne.
  destruct (current_metadata fs) as [| | | | |m] eqn:E; try done.
  assert (Hrace : ∀ x y : set_record,
            secure_filename (sr_name x) ≠ secure_filename (sr_name y) →
            ∃ rx ry fs',
              turn x (Loaded (JObj m)) fs = (Finished rx, (turn x (Loaded (JObj m)) fs).2)
              ∧ turn y (Loaded (JObj m)) (turn x (Loaded (JObj m)) fs).2
                = (Finished ry, fs')
              ∧ status rx = 200 ∧ status ry = 200
              ∧ record_of fs' (secure_filename (sr_name y)) = JObj (sr_obj y)
              ∧ record_of fs' (secure_filename (sr_name x))
                = record_of fs (secure_filename (sr_name x))).
  { intros x y Hxy. rewrite (Claims.turn_loaded x fs m Hs Hd). cbn [snd].
    set (mx := <[secure_filename (sr_name x) := JObj (sr_obj x)]> m).
    set (fs1 := <[metadata_slot := File (json_dumps (JObj mx)) (sr_now x)]> fs).
    destruct (well_formed_saved fs mx (sr_now x) Hc Hs) as (Hs1 & Hd1 & _).
    fold fs1 in Hs1, Hd1. rewrite (Claims.turn_loaded y fs1 m Hs1 Hd1).
    eexists _, _, _. split; [done|]. split; [done|]. split; [done|]. split; [done|].
    rewrite !record_of_saved by done. rewrite lookup_insert_eq.
    rewrite lookup_insert_ne by done. unfold record_of. by rewrite E. }
  destruct Hi as [-> | [-> | [-> | ->]]]; cbn [run last_turn List.last] in *;
    unfold winner, loser; rewrite !Claims.turn_pending, E; cbn [fst snd].
  - destruct (Hrace a b Hne) as (ra & rb & fs' & H1 & H2 & Ha & Hb & Hw & Hl).
    rewrite H1, H2. by exists (Finished ra), (Finished rb), fs'.
  - destruct (Hrace b a (not_eq_sym Hne)) as (rb & ra & fs' & H1 & H2 & Hb & Ha & Hw & Hl).
    rewrite H1, H2. by exists (Finished ra), (Finished rb), fs'.
  - destruct (Hrace a b Hne) as (ra & rb & fs' & H1 & H2 & Ha & Hb & Hw & Hl).
    rewrite H1, H2. by exists (Finished ra), (Finished rb), fs'.
  - destruct (Hrace b a (not_eq_sym Hne)) as (rb & ra & fs' & H1 & H2 & Hb & Ha & Hw & Hl).
    rewrite H1, H2. by exists (Finished ra), (Finished rb), fs'.
Qed.

(** X21 for two requests in the store of a fresh server, the second thread
    saving first. *)
Lemma interleaved_set_records_at_fresh_store :
  @codec_round_trip reference_runtime ∧ @well_formed reference_runtime fs0
  ∧ interleaved [First; Second; Second; First]
  ∧ secure_filename (sr_name set_a) ≠ secure_filename (sr_name set_b)
  ∧ ∃ sa sb fs',
      run [First; Second; Second; First] set_a set_b Pending Pending fs0
      = (sa, sb, fs')
      ∧ both_succeeded sa sb
      ∧ record_of fs' (secure_filename (sr_name set_a)) = JObj (sr_obj set_a)
      ∧ record_of fs' (secure_filename (sr_name set_b))
        = record_of fs0 (secure_filename (sr_name set_b)).
Proof.
  assert (H1 : interleaved [First; Second; Second; First]) by (right; by left).
  assert (H2 : secure_filename (sr_name set_a) ≠ secure_filename (sr_name set_b))
    by (by vm_compute).
  split; [exact reference_codec|]. split; [exact Claims.fs0_well_formed|].
  split; [exact H1|]. split; [exact H2|].
  exact (interleaved_set_records_keep_the_last_one reference_runtime fs0 set_a set_b
           [First; Second; Second; First] reference_codec Claims.fs0_well_formed H1 H2).
Defined.

(** X22. A metadata document that cannot be parsed is taken for an empty
    one and is lost at the next write: [getRecord] answers the empty
    object for every name, and after a [setRecord] the document holds the
    new record and nothing else. *)
Theorem unreadable_document_is_replaced (RT : Runtime) (fs : filesystem)
    (raw c : string) (t : Z) (obj : gmap string JSON) (now : Z) :
  let safe := secure_filename raw in
  let set := metadata raw POST (Some (JObj obj)) now in
  codec_round_trip → storage_ready fs →
  fs !! metadata_slot = Some (File c t) → json_loads c = None →
  (∀ name body later,
     answer (metadata name GET body later) fs
     = {| status := 200; payload := Json empty_dict |})
  ∧ status (answer set fs) = 200
  ∧ current_metadata (after set fs) = JObj {[ safe := JObj obj ]}.
Proof.
  intros safe set Hc Hs Hf Hbad.
  assert (E : current_metadata fs = JObj ∅).
  { unfold current_metadata. by rewrite Hf, Hbad. }
  assert (Hmd : fs !! metadata_slot ≠ Some Dir) by by rewrite Hf.
  split; [|split].
  - intros name body later. unfold answer.
    by rewrite (metadata_get_run fs name body later ∅).
  - unfold answer, set. by rewrite (metadata_post_run fs raw obj now ∅).
  - unfold after, set. rewrite (metadata_post_run fs raw obj now ∅) by done.
    cbn [snd]. fold safe. rewrite current_metadata_saved by done.
    by rewrite insert_empty.
Qed.

(** X22 for a document cut short after its first character. *)
Lemma unreadable_document_is_replaced_at_cut_document :
  let set := metadata "a.txt" POST (Some (JObj tag_final)) 1 in
  @codec_round_trip reference_runtime ∧ storage_ready fs_cut
  ∧ fs_cut !! metadata_slot = Some (File "{" 0)
  ∧ @json_loads reference_runtime "{" = None
  ∧ @current_metadata reference_runtime (after set fs_cut)
    = JObj {[ "a.txt" := JObj tag_final ]}.
Proof.
  intros set.
  assert (H1 : storage_ready fs_cut) by reflexivity.
  assert (H2 : fs_cut !! metadata_slot = Some (File "{" 0)) by reflexivity.
  assert (H3 : @json_loads reference_runtime "{" = None) by reflexivity.
  split; [exact reference_codec|]. split; [exact H1|]. split; [exact H2|].
  split; [exact H3|].
  exact (proj2 (proj2 (unreadable_document_is_replaced reference_runtime fs_cut
                         "a.txt" "{" 0 tag_final 1 reference_codec H1 H2 H3))).
Defined.

(** ** The storage root and the names *)

(** X23. While the storage root is missing (the mount point of the storage
    is gone), the requests for a name that is not empty after sanitization
    and is short enough to name an entry create nothing: [list], the
    upload and [setRecord] are answered 500, download and delete 404, and
    [getRecord] answers the empty object; the file system is left as it
    was. *)
Theorem storage_root_missing (RT : Runtime) (fs : filesystem) (raw : string)
    (now : Z) :
  let safe := secure_filename raw in
  (∀ p, inside_storage p → fs !! p = None) → safe ≠ "" → fits safe →
  serve list_files fs = ({| status := 500; payload := ErrorPage |}, fs)
  ∧ (raw ≠ "" → ∀ data len, len ≤ MAX_CONTENT_LENGTH →
       serve (upload_file (upload_of raw data len) now) fs
       = ({| status := 500; payload := ErrorPage |}, fs))
  ∧ serve (download_file raw) fs
    = ({| status := 404; payload := Json (error_json "Não encontrado") |}, fs)
  ∧ serve (delete_file raw now) fs
    = ({| status := 404; payload := Json (error_json "Não encontrado") |}, fs)
  ∧ (∀ body, serve (metadata raw GET body now) fs
             = ({| status := 200; payload := Json empty_dict |}, fs))
  ∧ (∀ obj, serve (metadata raw POST (Some (JObj obj)) now) fs
            = ({| status := 500; payload := ErrorPage |}, fs)).
Proof.
  intros safe Hnone Hsafe _.
  assert (Hs : fs !! storage = None) by (apply Hnone; by exists []).
  assert (Hm : fs !! metadata_slot = None) by (apply Hnone; by exists [reserved]).
  assert (Hf : fs !! slot safe = None) by (apply Hnone; by exists [safe]).
  assert (E : current_metadata fs = JObj ∅).
  { unfold current_metadata. by rewrite Hm. }
  split; [|split; [|split; [|split; [|split]]]].
  - by apply list_files_without_root.
  - intros Hraw data len Hlen.
    by apply (upload_file_without_root fs (upload_of raw data len)
                {| filename := raw; stream := data |} now Hlen
                (lookup_upload_of raw data len)).
  - rewrite download_file_run by done. fold safe. by rewrite Hf.
  - by apply delete_file_missing.
  - intros body. by rewrite (metadata_get_run fs raw body now ∅).
  - intros obj. unfold serve, metadata.
    rewrite (bind_run _ _ _ _ _ (load_metadata_run _)), E.
    cbn [get_json py_setitem is_dict negb]. rewrite !bind_ret_l. cbn [is_dict negb].
    by rewrite (bind_fail _ _ _ _ _ (save_metadata_without_root _ now fs Hs Hm)).
Qed.

(** X23 on a machine on which only [/app] exists. *)
Lemma storage_root_missing_at_bare :
  (∀ p, inside_storage p → bare !! p = None) ∧ secure_filename "a.txt" ≠ ""
  ∧ fits (secure_filename "a.txt")
  ∧ serve list_files bare = ({| status := 500; payload := ErrorPage |}, bare)
  ∧ serve (download_file "a.txt") bare
    = ({| status := 404; payload := Json (error_json "Não encontrado") |}, bare).
Proof.
  assert (H1 : ∀ p, inside_storage p → bare !! p = None).
  { intros p [rest ->]. unfold bare. by apply lookup_singleton_ne. }
  assert (H2 : secure_filename "a.txt" ≠ "") by (by vm_compute).
  assert (H3 : fits (secure_filename "a.txt")) by (vm_compute; lia).
  pose proof (storage_root_missing reference_runtime bare "a.txt" 1 H1 H2 H3)
    as (Ha & _ & Hb & _).
  split; [exact H1|]. split; [exact H2|]. split; [exact H3|].
  split; [exact Ha|exact Hb].
Defined.

(** X24. The name a client's name is sanitized to consists of the
    characters [A-Za-z0-9_.-] only and neither starts nor ends with a dot
    or an underscore. *)
Theorem sanitized_name_shape (RT : Runtime) (raw : string) :
  let l := chars (secure_filename raw) in
  Forall (λ c, keep c = true) l
  ∧ (∀ c, head l = Some c → dot_or_under c = false)
  ∧ (∀ c, last l = Some c → dot_or_under c = false).
Proof.
  intros l. unfold l, secure_filename, Werkzeug.secure_filename.
  rewrite chars_text.
  destruct (secure_chars_tidy (chars (nfkd raw))) as [[Hk Hh] Hl].
  split; [done|]. split; [|done].
  intros c Hc. destruct (secure_chars _); [done|]. by injection Hc as ->.
Qed.

(** X25. Sanitizing is idempotent where NFKD normalisation leaves ASCII
    text as it is: the name an upload reports and [list] shows is sanitized
    to itself, so a client can use it as it is in the requests that follow. *)
Theorem sanitized_name_is_stable (RT : Runtime) (raw : string) :
  (∀ s, Forall (λ c, is_ascii c = true) (chars s) → nfkd s = s) →
  secure_filename (secure_filename raw) = secure_filename raw.
Proof.
  intros Hn. unfold secure_filename, Werkzeug.secure_filename.
  pose proof (secure_chars_tidy (chars (nfkd raw))) as Ht.
  rewrite Hn.
  - rewrite chars_text. by rewrite secure_chars_fixed.
  - rewrite chars_text. destruct Ht as [[Hk _] _].
    eapply Forall_impl; [exact Hk|apply keep_ascii].
Qed.

(** X25 for a name with blanks and separators. *)
Lemma sanitized_name_is_stable_at_path :
  (∀ s, Forall (λ c, is_ascii c = true) (chars s) → @nfkd reference_runtime s = s)
  ∧ secure_filename "../My Report (final).pdf" = "My_Report_final.pdf"
  ∧ secure_filename (secure_filename "../My Report (final).pdf")
    = secure_filename "../My Report (final).pdf".
Proof.
  assert (H : ∀ s, Forall (λ c, is_ascii c = true) (chars s)
                   → @nfkd reference_runtime s = s) by done.
  split; [exact H|]. split; [reflexivity|].
  exact (sanitized_name_is_stable reference_runtime "../My Report (final).pdf" H).
Defined.

(** ** The listing *)

(** X30. In every well-formed store in which no entry is called [..],
    [list] answers with one line for each regular file of the storage root
    other than the metadata document, and with no other line; the lines
    are in ascending order of their lower-cased names; each line gives the
    size and modification time of its file, and as metadata the stored
    record of that name, or the empty object when there is none.  The
    store is left as it was. *)
Theorem list_shows_the_stored_files (RT : Runtime) (fs : filesystem) :
  well_formed fs → proper_names fs →
  ∃ lines,
    serve list_files fs = ({| status := 200; payload := Listing lines |}, fs)
    ∧ NoDup (fe_name <$> lines)
    ∧ (∀ name, name ∈ fe_name <$> lines ↔ stored_file fs name ∧ name ≠ reserved)
    ∧ StronglySorted name_le lines
    ∧ Forall (describes fs) lines.
Proof.
  intros (Hs & _ & Hm) Hp.
  set (names := List.filter (listed fs) (FS.entries fs storage)).
  set (lines := sorted (λ x, str_lower (fe_name x)) (entry_for fs <$> names)).
  assert (Hperm : lines ≡ₚ entry_for fs <$> names) by apply sorted_perm.
  assert (Hnames : ∀ n, n ∈ names ↔ stored_file fs n ∧ n ≠ reserved).
  { intros n. unfold names. rewrite list_elem_of_In, filter_In, <- list_elem_of_In.
    rewrite Claims.listed_spec, elem_of_entries. split; [tauto|].
    intros [(c & t & Hf) Hne]. split; [|split; [by exists c, t|done]].
    change (storage ++ [n])%list with (slot n). rewrite Hf. eauto. }
  exists lines. split; [by apply list_files_run|].
  split; [|split; [|split]].
  - rewrite Hperm, Claims.fe_name_entry_for.
    apply Claims.NoDup_list_filter, NoDup_entries.
  - intros n. by rewrite Hperm, Claims.fe_name_entry_for.
  - apply sorted_sorted.
  - rewrite Hperm. apply Forall_fmap, Forall_forall. intros n Hn.
    apply Hnames in Hn as [(c & t & Hf) _].
    exists c, t. unfold entry_for. cbn. by rewrite Hf.
Qed.

(** X30 at a store with two uploaded files and one record. *)
Lemma list_shows_the_stored_files_at_report_store :
  @well_formed reference_runtime fs_report ∧ proper_names fs_report
  ∧ ∃ lines,
      serve list_files fs_report
      = ({| status := 200; payload := Listing lines |}, fs_report)
      ∧ NoDup (fe_name <$> lines)
      ∧ (∀ name, name ∈ fe_name <$> lines
                 ↔ stored_file fs_report name ∧ name ≠ reserved)
      ∧ StronglySorted name_le lines
      ∧ Forall (describes fs_report) lines.
Proof.
  split; [exact Claims.fs_report_well_formed|].
  split; [exact Claims.fs_report_proper|].
  exact (list_shows_the_stored_files reference_runtime fs_report
           Claims.fs_report_well_formed Claims.fs_report_proper).
Defined.

(** ** The development server *)

(** X27. In the development server the containment check of
    [download_file] and [delete_file] passes for every client-supplied
    name, wherever the server runs: the path checked is the storage root
    or an entry of it, so the answer "invalid path" is never given. *)
Theorem teste_containment_check_always_passes (RT : Runtime) (raw : string) :
  let safe := secure_filename raw in
  let file_path := joinpath UmDriveTesteApp.STORAGE_DIR safe in
  locate file_path = teste_target safe
  ∧ UmDriveTeste.is_within_directory file_path UmDriveTesteApp.STORAGE_DIR = true.
Proof.
  intros safe file_path. split.
  - apply teste_locate_joinpath, sanitized_plain.
  - apply teste_is_within_directory_joinpath, sanitized_plain.
Qed.

(** X28. The development server looks for the file to download in two
    places.  For a name that is not empty after sanitization and an
    application root such that the path of the name in [storage] below
    that root is one the file system takes: it answers 404 unless the
    sanitized name has an entry in [storage] below the working directory,
    and then sends the regular file of that name in [storage] below the
    application root, answering 404 if there is none there. *)
Theorem teste_download_reads_below_the_application_root (RT : Runtime)
    (root : list string) (fs : filesystem) (raw : string) :
  let safe := secure_filename raw in
  Forall component root → safe ≠ "" → path_fits root safe →
  UmDriveTesteApp.serve
    (UmDriveTesteApp.download_file (path_text root) raw) fs
  = (match fs !! teste_slot safe with
     | None =>
         {| status := 404; payload := Json (error_json "Ficheiro não encontrado") |}
     | Some _ =>
         match fs !! served root safe with
         | Some (File c _) => {| status := 200; payload := Attachment safe c |}
         | _ => {| status := 404; payload := ErrorPage |}
         end
     end, fs).
Proof. intros safe Hroot Hsafe _. by apply teste_download_file_run. Qed.

(** X28 for a server run in [/app] whose module lies in [/srv/umdrive]:
    the file it stored is not the one it looks for. *)
Lemma teste_download_at_other_root :
  let fs := fs_teste in
  Forall component ["srv"; "umdrive"] ∧ secure_filename "a.txt" ≠ ""
  ∧ path_fits ["srv"; "umdrive"] (secure_filename "a.txt")
  ∧ fs !! teste_slot "a.txt" = Some (File "abc" 1)
  ∧ UmDriveTesteApp.serve
      (UmDriveTesteApp.download_file (path_text ["srv"; "umdrive"]) "a.txt") fs
    = ({| status := 404; payload := ErrorPage |}, fs).
Proof.
  intros fs.
  assert (H1 : Forall component ["srv"; "umdrive"]).
  { repeat constructor; try done. }
  assert (H2 : secure_filename "a.txt" ≠ "") by (by vm_compute).
  assert (H3 : path_fits ["srv"; "umdrive"] (secure_filename "a.txt")).
  { split; [repeat constructor; vm_compute; lia|vm_compute; lia]. }
  split; [exact H1|]. split; [exact H2|]. split; [exact H3|].
  split; [reflexivity|].
  exact (teste_download_reads_below_the_application_root
           reference_runtime ["srv"; "umdrive"] fs "a.txt" H1 H2 H3).
Defined.

(** X29. Run in [/app] with the application root [/app], the development
    server serves every request as the deployed one does: the same store
    afterwards, the same status and, unless the response is an error, the
    same body.  The one difference is the limit: it refuses with 413 every
    upload of more than 100 MB. *)
Theorem teste_serves_as_umdrive (RT : Runtime) (fs : filesystem) :
  cwd = ["app"] →
  (∀ req now, content_length req ≤ UmDriveTesteApp.MAX_CONTENT_LENGTH →
     same_outcome (UmDriveTesteApp.serve (UmDriveTesteApp.upload_file req now) fs)
                  (serve (upload_file req now) fs))
  ∧ (∀ req now, UmDriveTesteApp.MAX_CONTENT_LENGTH < content_length req →
       UmDriveTesteApp.serve (UmDriveTesteApp.upload_file req now) fs
       = (UmDriveTesteApp.handle_file_too_large, fs))
  ∧ (∀ raw, same_outcome
              (UmDriveTesteApp.serve (UmDriveTesteApp.download_file "/app" raw) fs)
              (serve (download_file raw) fs))
  ∧ (∀ raw now, same_outcome
                  (UmDriveTesteApp.serve (UmDriveTesteApp.delete_file raw now) fs)
                  (serve (delete_file raw now) fs))
  ∧ (∀ raw meth body now,
       same_outcome
         (UmDriveTesteApp.serve (UmDriveTesteApp.metadata raw meth body now) fs)
         (serve (metadata raw meth body now) fs))
  ∧ UmDriveTesteApp.serve UmDriveTesteApp.list_files fs = serve list_files fs
  ∧ (∀ now, UmDriveTesteApp.startup now fs = startup now fs).
Proof.
  intros Hcwd. split; [|split; [|split; [|split; [|split; [|split]]]]].
  - intros. by apply teste_upload_file.
  - intros req now H. unfold UmDriveTesteApp.serve, UmDriveTesteApp.upload_file,
      UmDriveTesteApp.request_files.
    by destruct (Z.ltb_spec UmDriveTesteApp.MAX_CONTENT_LENGTH (content_length req));
      [|lia].
  - intros. by apply teste_download_file.
  - intros. by apply teste_delete_file.
  - intros. by apply teste_metadata.
  - by apply teste_list_files.
  - intros. by apply teste_startup.
Qed.

(** X29 for a download and the listing in a store with two uploaded
    files. *)
Lemma teste_serves_as_umdrive_at_report_store :
  @cwd reference_runtime = ["app"]
  ∧ same_outcome
      (UmDriveTesteApp.serve (UmDriveTesteApp.download_file "/app" "report.pdf") fs_report)
      (serve (download_file "report.pdf") fs_report)
  ∧ UmDriveTesteApp.serve UmDriveTesteApp.list_files fs_report
    = serve list_files fs_report.
Proof.
  assert (H : @cwd reference_runtime = ["app"]) by reflexivity.
  pose proof (teste_serves_as_umdrive reference_runtime fs_report H)
    as (_ & _ & Hd & _ & _ & Hl & _).
  split; [exact H|]. split; [exact (Hd "report.pdf")|exact Hl].
Defined.

End Coverage.
